(** * Telegram session keepalive: the session lifecycle manager

    A shallow embedding of [session_manager.py], [telegram_client.py],
    [models.py], the notification intents of [bot_notifier.py], and the
    task and login routes of [web_server.py].

    Conventions of the embedding.
    - Python [int] is [Z]; [str] is [string]; timestamps ([datetime]) are
      [Z] seconds; a [dict] whose iteration order is never observed is a
      [gmap]; the two dicts that [initialize] iterates are
      insertion-ordered association lists; a Python [set] is a [gset],
      and the order in which a loop visits it is given from outside.
    - A coroutine that can raise returns [result A = exn + A].
    - Everything the code obtains from outside the process (the answers of
      Telegram, [uuid4()], the clocks, [random.randint], whether a write or
      an unlink raises, the order of [glob]) is an explicit argument, the
      record [Env], so that every definition is a function that computes.
    - The calls made to the notifier (delivered or not), the records
      written to the data directory and the files deleted from it are
      appended, in the order they happen, to the [log] field of the state.
      Messages sent to [logging] are not modelled. *)

From stdpp Require Import gmap strings list fin_maps pretty sorting.
From Stdlib Require Import ZArith Lia.

Open Scope Z_scope.

(** ** Exceptions and results *)

Inductive exn_class :=
  | FloodWaitError (seconds : Z)
  | AuthKeyUnregisteredError
  | PhoneCodeInvalidError
  | PhoneCodeExpiredError
  | PasswordHashInvalidError
  | ValueError
  | OSError
  | OtherException.

(** An exception object: its class and the text [str(e)] gives. *)
Record exn := Exn { exn_class_of : exn_class; exn_str : string }.

Definition result (A : Type) : Type := exn + A.
Abbreviation raise := (@inl exn _) (only parsing).
Abbreviation ret := (@inr exn _) (only parsing).

(** ** [mask_sensitive_data] (the same function in session_manager.py,
    telegram_client.py and web_server.py) *)

Module Masking.

(** [data[:stop]]: a negative [stop] counts from the end. *)
Definition py_prefix (data : string) (stop : Z) : string :=
  if stop <? 0
  then String.substring 0 (Z.to_nat (Z.of_nat (String.length data) + stop)) data
  else String.substring 0 (Z.to_nat stop) data.

Definition mask_sensitive_data (data : string) (visible_chars : Z) : string :=
  match data with
  | EmptyString => ""
  | _ =>
      if Z.of_nat (String.length data) <=? visible_chars
      then py_prefix data 3 +:+ "..."
      else py_prefix data visible_chars +:+ "..."
  end.

(** Every call site uses the default [visible_chars = 10]. *)
Definition default_visible_chars : Z := 10.

Definition mask (data : string) : string :=
  mask_sensitive_data data default_visible_chars.

(** The claim as the specification words it: one fixed prefix length [n],
    and for every non-empty credential the output is its [n]-character
    prefix, a proper one, followed by the ellipsis. *)
Definition reveals_fixed_proper_prefix : Prop :=
  ∃ n : nat, ∀ s : string, s ≠ "" →
    mask s = String.substring 0 n s +:+ "..." ∧ (n < String.length s)%nat.

End Masking.

(** ** The probe gate: [handle_telegram_errors] (telegram_client.py) *)

Module ProbeGate.

(** What the decorator does that a caller can tell: invocations of the
    wrapped coroutine (numbered from 0) and sleeps. *)
Inductive gate_event :=
  | Called (attempt : nat)
  | Slept (seconds : Z).

(** [func n] is the outcome of the [n]-th invocation of the wrapped
    coroutine. The retry sits inside the [except FloodWaitError] clause,
    so whatever it raises leaves the wrapper as it is. *)
Definition handle_telegram_errors {A} (func : nat → result A)
  : result A * list gate_event :=
  match func 0%nat with
  | inr v => (inr v, [Called 0])
  | inl e =>
      match exn_class_of e with
      | FloodWaitError seconds =>
          (func 1%nat, [Called 0; Slept (seconds + 5); Called 1])
      | AuthKeyUnregisteredError =>
          (raise (Exn ValueError "Session expired or invalid"), [Called 0])
      | PhoneCodeInvalidError =>
          (raise (Exn ValueError "Invalid verification code"), [Called 0])
      | PhoneCodeExpiredError =>
          (raise (Exn ValueError "Verification code expired"), [Called 0])
      | PasswordHashInvalidError =>
          (raise (Exn ValueError "Invalid 2FA password"), [Called 0])
      | _ => (raise e, [Called 0])
      end
  end.

(** The dict [validate_session] returns. *)
Record AccountInfo := {
  ai_tg_id : Z;
  ai_username : option string;
  ai_phone : option string;
  ai_first_name : option string;
  ai_last_name : option string;
}.

(** [TelegramClientWrapper.validate_session] and [.heartbeat]: the
    decorated coroutines; the argument is what the undecorated body
    ([_with_limits(_do_validate())], [_with_limits(_do_heartbeat())])
    yields at each invocation. *)
Definition validate_session (tg : nat → result AccountInfo)
  : result AccountInfo * list gate_event :=
  handle_telegram_errors tg.

Definition heartbeat (tg : nat → result bool) : result bool * list gate_event :=
  handle_telegram_errors tg.

Definition is_call (ev : gate_event) : bool :=
  match ev with Called _ => true | Slept _ => false end.

Definition calls (tr : list gate_event) : nat :=
  length (List.filter is_call tr).

Definition sleeps (tr : list gate_event) : list Z :=
  omap (λ ev, match ev with Slept s => Some s | _ => None end) tr.

End ProbeGate.

(** ** Data model (models.py, bot_notifier.py, session_manager.py) *)

(** [SessionData]. The pydantic validators (the uuid pattern, the non-blank
    session string, [consecutive_failures >= 0]) are what makes a file load
    or not: a file that fails them is a [FileBad] below. *)
Record SessionData := {
  uuid : string;
  tg_id : Z;
  session_string : string;
  notify_chat_id : Z;
  consecutive_failures : Z;
  created_at : Z;
  last_heartbeat : option Z;
}.

Definition set_heartbeat_success (t : Z) (d : SessionData) : SessionData :=
  {| uuid := uuid d; tg_id := tg_id d; session_string := session_string d;
     notify_chat_id := notify_chat_id d;
     consecutive_failures := 0;
     created_at := created_at d;
     last_heartbeat := Some t |}.

Definition incr_failures (d : SessionData) : SessionData :=
  {| uuid := uuid d; tg_id := tg_id d; session_string := session_string d;
     notify_chat_id := notify_chat_id d;
     consecutive_failures := consecutive_failures d + 1;
     created_at := created_at d;
     last_heartbeat := last_heartbeat d |}.

(** [session_manager.Config] *)
Record Config := {
  api_id : Z;
  api_hash : string;
  interval_seconds : Z;
  jitter_seconds : Z;
  notify_bot_token : string;
  notify_bot_name : string;
  max_failures : Z;
  data_dir : string;
}.

(** The three intents of [BotNotifier]; none of them raises. *)
Inductive notification :=
  | send_success (chat_id : Z) (task : string)
  | send_failure (chat_id : Z) (task : string) (error : string)
  | send_cleanup (chat_id : Z) (task : string) (reason : string).

(** What [<stem>.json] holds: something [_load_session_file] parses and
    validates to [d], or something that makes it raise. *)
Inductive file :=
  | FileOk (d : SessionData)
  | FileBad.

Inductive event :=
  | Notified (n : notification)
  | FileWritten (stem : string) (d : SessionData)
  | FileDeleted (stem : string).

(** The manager together with the two collaborators it drives: the
    scheduler's one-shot jobs ([jobs]: job id to run date; the entry of a
    job that has fired stays until it is replaced or cancelled) and the
    data directory ([files]: stem to content). The lock table
    [_file_locks] has no effect on a sequential run and is left out. *)
Record SessionManager := {
  sessions : gmap string SessionData;
  tg_id_to_uuid : gmap Z string;
  jobs : gmap string Z;
  files : gmap string file;
  log : list event;
}.

Definition with_sessions (f : gmap string SessionData → gmap string SessionData)
    (st : SessionManager) : SessionManager :=
  {| sessions := f (sessions st); tg_id_to_uuid := tg_id_to_uuid st;
     jobs := jobs st; files := files st; log := log st |}.

Definition with_tg_id_to_uuid (f : gmap Z string → gmap Z string)
    (st : SessionManager) : SessionManager :=
  {| sessions := sessions st; tg_id_to_uuid := f (tg_id_to_uuid st);
     jobs := jobs st; files := files st; log := log st |}.

Definition with_jobs (f : gmap string Z → gmap string Z)
    (st : SessionManager) : SessionManager :=
  {| sessions := sessions st; tg_id_to_uuid := tg_id_to_uuid st;
     jobs := f (jobs st); files := files st; log := log st |}.

Definition with_files (f : gmap string file → gmap string file)
    (st : SessionManager) : SessionManager :=
  {| sessions := sessions st; tg_id_to_uuid := tg_id_to_uuid st;
     jobs := jobs st; files := f (files st); log := log st |}.

Definition emit (ev : event) (st : SessionManager) : SessionManager :=
  {| sessions := sessions st; tg_id_to_uuid := tg_id_to_uuid st;
     jobs := jobs st; files := files st; log := log st ++ [ev] |}.

(** [SessionManager.__init__] over a data directory holding [disk]. *)
Definition new_manager (disk : gmap string file) : SessionManager :=
  {| sessions := ∅; tg_id_to_uuid := ∅; jobs := ∅; files := disk; log := [] |}.

(** What one operation obtains from outside the process. *)
Record Env := {
  (** the undecorated [validate_session] / [heartbeat] body, per invocation *)
  tg_validate : nat → result ProbeGate.AccountInfo;
  tg_heartbeat : nat → result bool;
  (** [str(uuid.uuid4())] *)
  uuid4 : string;
  (** [datetime.utcnow()], read once by an operation, and
      [datetime.now()], read when the job of that id is scheduled *)
  utcnow : Z;
  now : string → Z;
  (** the random source read when the job of that id is scheduled *)
  random_source : string → nat;
  (** whether the [n]-th [_save_session_file] of the operation raises,
      and, when it does, whether [open(file_path, 'w')] had gone through
      before the error (a full disk is met after it, a refused permission
      at it) *)
  write_raises : nat → option exn;
  write_opens : nat → bool;
  (** whether [exists()]/[unlink()] on that stem raises *)
  unlink_raises : string → bool;
  (** the order of [data_dir.glob("*.json")], and the order in which a
      [for] loop visits a set of uuids: neither is the program's to choose;
      each is the order of an arbitrary ranking *)
  glob_rank : string → nat;
  visit_rank : string → nat;
}.

(** The members of [l], each once, in the order of the ranking (any
    permutation of [l] is the order of some ranking). *)
Definition in_rank_order (rank : string → nat) (l : list string) : list string :=
  @merge_sort string (λ x y, (rank x ≤ rank y)%nat)
    (λ x y, decide (rank x ≤ rank y)%nat) l.

(** [data_dir.glob("*.json")]: the stems of the files present. *)
Definition glob (env : Env) (st : SessionManager) : list string :=
  in_rank_order (glob_rank env) (elements (dom (files st))).

(** [for uuid in s], for a set [s] of uuids. *)
Definition iterate (env : Env) (s : gset string) : list string :=
  in_rank_order (visit_rank env) (elements s).

(** ** Insertion-ordered dicts *)

Section Dict.
Context {K V : Type} `{EqDecision K}.

Fixpoint dict_get (k : K) (d : list (K * V)) : option V :=
  match d with
  | [] => None
  | (k', v) :: d' => if decide (k' = k) then Some v else dict_get k d'
  end.

(** [d[k] = v]: an existing key keeps its place. *)
Fixpoint dict_set (k : K) (v : V) (d : list (K * V)) : list (K * V) :=
  match d with
  | [] => [(k, v)]
  | (k', v') :: d' =>
      if decide (k' = k) then (k', v) :: d' else (k', v') :: dict_set k v d'
  end.
End Dict.

(** [max(l, key=key)]: the first of the maximal elements; [None] is the
    [ValueError] on an empty sequence. *)
Definition py_max_by {A} (key : A → Z) (l : list A) : option A :=
  match l with
  | [] => None
  | x :: l' => Some (foldl (λ best y, if key best <? key y then y else best) x l')
  end.

(** [random.randint(a, b)]: [ValueError] on an empty range, otherwise a
    point of [a..b] picked by the random source. *)
Definition randint (a b : Z) (rnd : nat) : result Z :=
  if b <? a then raise (Exn ValueError "empty range for randrange()")
  else ret (a + Z.of_nat rnd mod (b - a + 1)).

(** ** [SessionManager] (session_manager.py) *)

Definition replaced_reason : string := "被新任务替换".

Definition key_error : exn := Exn OtherException "KeyError".

Section Manager.
Variable cfg : Config.

(** [_load_session_file]: [FileNotFoundError], or whatever parsing and
    validation raise, or the record. *)
Definition _load_session_file (stem : string) (st : SessionManager)
  : result SessionData :=
  match files st !! stem with
  | None => raise (Exn OtherException "Session file not found")
  | Some FileBad => raise (Exn OtherException "Invalid session file")
  | Some (FileOk d) => ret d
  end.

(** [_save_session_file], which runs [_write_json_file] in a worker
    thread: the file is named after the record's uuid.
    [open(file_path, 'w')] creates the file, or empties the one that is
    there, before [json.dump] writes anything: an error raised after it
    leaves a file that holds no record (it is empty, or ends inside the
    object, and does not parse); an error raised by [open] itself leaves
    the directory as it was. *)
Definition _save_session_file (env : Env) (n : nat) (d : SessionData)
    (st : SessionManager) : result unit * SessionManager :=
  match write_raises env n with
  | Some e =>
      (raise e, if write_opens env n
                then with_files (insert (uuid d) FileBad) st
                else st)
  | None =>
      (ret tt, emit (FileWritten (uuid d) d)
                 (with_files (insert (uuid d) (FileOk d)) st))
  end.

(** The block [try: if file_path.exists(): file_path.unlink() except
    Exception: log] that [cleanup_task] and [initialize] share. *)
Definition remove_file (env : Env) (stem : string) (st : SessionManager)
  : SessionManager :=
  if unlink_raises env stem then st
  else match files st !! stem with
       | Some _ => emit (FileDeleted stem) (with_files (delete stem) st)
       | None => st
       end.

Definition _calculate_next_interval (rnd : nat) : result Z :=
  match randint 0 (jitter_seconds cfg) rnd with
  | inl e => raise e
  | inr jitter => ret (interval_seconds cfg + jitter)
  end.

(** [scheduler.add_job(..., 'date', run_date=now + interval, id=uuid,
    replace_existing=True)], as [start_heartbeat] and
    [_execute_heartbeat_and_reschedule] both do it. *)
Definition schedule_next (env : Env) (u : string) (st : SessionManager)
  : result unit * SessionManager :=
  match _calculate_next_interval (random_source env u) with
  | inl e => (raise e, st)
  | inr interval => (ret tt, with_jobs (insert u (now env u + interval)) st)
  end.

Definition start_heartbeat (env : Env) (u : string) (st : SessionManager)
  : result unit * SessionManager :=
  match sessions st !! u with
  | None => (ret tt, st)
  | Some _ => schedule_next env u st
  end.

(** [scheduler.remove_job] raises on an unknown id; the error is caught. *)
Definition stop_heartbeat (u : string) (st : SessionManager) : SessionManager :=
  with_jobs (delete u) st.

Definition cleanup_task (env : Env) (u : string) (reason : string)
    (st : SessionManager) : SessionManager :=
  match sessions st !! u with
  | None => st
  | Some session_data =>
      let st := emit (Notified (send_cleanup (notify_chat_id session_data) u reason)) st in
      let st := stop_heartbeat u st in
      let st := remove_file env u st in
      let st := with_sessions (delete u) st in
      match tg_id_to_uuid st !! tg_id session_data with
      | Some u' =>
          if decide (u' = u)
          then with_tg_id_to_uuid (delete (tg_id session_data)) st
          else st
      | None => st
      end
  end.

(** The second step of [create_task]: retire the task the reverse index
    holds for this account, if any. *)
Definition replace_existing (env : Env) (tg : Z) (st : SessionManager)
  : SessionManager :=
  match tg_id_to_uuid st !! tg with
  | Some old_uuid => cleanup_task env old_uuid replaced_reason st
  | None => st
  end.

Definition new_session_data (env : Env) (tg : Z) (session : string)
    (chat : Z) : SessionData :=
  {| uuid := uuid4 env; tg_id := tg; session_string := session;
     notify_chat_id := chat; consecutive_failures := 0;
     created_at := utcnow env; last_heartbeat := None |}.

(** The two assignments [self.sessions[task_uuid] = session_data] and
    [self.tg_id_to_uuid[tg_id] = task_uuid]; no suspension point lies
    between them. *)
Definition register (d : SessionData) (st : SessionManager) : SessionManager :=
  with_tg_id_to_uuid (insert (tg_id d) (uuid d))
    (with_sessions (insert (uuid d) d) st).

Definition create_task (env : Env) (session : string) (chat : Z)
    (st : SessionManager) : result string * SessionManager :=
  match fst (ProbeGate.validate_session (tg_validate env)) with
  | inl e => (raise e, st)
  | inr account_info =>
      let tg := ProbeGate.ai_tg_id account_info in
      let st := replace_existing env tg st in
      let session_data := new_session_data env tg session chat in
      match _save_session_file env 0 session_data st with
      | (inl e, st) => (raise e, st)
      | (inr _, st) =>
          let st := register session_data st in
          match start_heartbeat env (uuid session_data) st with
          | (inl e, st) => (raise e, st)
          | (inr _, st) => (ret (uuid session_data), st)
          end
      end
  end.

Definition _handle_success (env : Env) (n : nat) (u : string)
    (st : SessionManager) : result unit * SessionManager :=
  match sessions st !! u with
  | None => (raise key_error, st)
  | Some d =>
      let session_data := set_heartbeat_success (utcnow env) d in
      let st := with_sessions (insert u session_data) st in
      match _save_session_file env n session_data st with
      | (inl e, st) => (raise e, st)
      | (inr _, st) =>
          (ret tt, emit (Notified (send_success (notify_chat_id session_data) u)) st)
      end
  end.

Definition max_failures_reason : string :=
  "连续失败 " +:+ pretty (max_failures cfg) +:+ " 次".

Definition _handle_failure (env : Env) (n : nat) (u : string) (error : exn)
    (st : SessionManager) : result unit * SessionManager :=
  match sessions st !! u with
  | None => (raise key_error, st)
  | Some d =>
      let session_data := incr_failures d in
      let st := with_sessions (insert u session_data) st in
      match _save_session_file env n session_data st with
      | (inl e, st) => (raise e, st)
      | (inr _, st) =>
          let st := emit (Notified (send_failure (notify_chat_id session_data) u
                                      (exn_str error))) st in
          if max_failures cfg <=? consecutive_failures session_data
          then (ret tt, cleanup_task env u max_failures_reason st)
          else (ret tt, st)
      end
  end.

(** The body of the [try] of [execute_heartbeat]: the probe, then the
    handler its outcome selects; numbered writes: this is write 0. *)
Definition heartbeat_attempt (env : Env) (u : string) (st : SessionManager)
  : result unit * SessionManager :=
  match fst (ProbeGate.heartbeat (tg_heartbeat env)) with
  | inl e => (raise e, st)
  | inr true => _handle_success env 0 u st
  | inr false =>
      _handle_failure env 0 u (Exn OtherException "Heartbeat returned False") st
  end.

(** [except Exception as e: await self._handle_failure(uuid, e)] catches
    what the probe raises and also what a handler run inside the [try]
    raises; a write made by that second handler is write 1 unless the
    probe itself raised. *)
Definition execute_heartbeat (env : Env) (u : string) (st : SessionManager)
  : result unit * SessionManager :=
  match sessions st !! u with
  | None => (ret tt, st)
  | Some _ =>
      match heartbeat_attempt env u st with
      | (inr _, st) => (ret tt, st)
      | (inl e, st) =>
          match fst (ProbeGate.heartbeat (tg_heartbeat env)) with
          | inl _ => _handle_failure env 0 u e st
          | inr _ => _handle_failure env 1 u e st
          end
      end
  end.

Definition _execute_heartbeat_and_reschedule (env : Env) (u : string)
    (st : SessionManager) : result unit * SessionManager :=
  match execute_heartbeat env u st with
  | (inl e, st) => (raise e, st)
  | (inr _, st) =>
      match sessions st !! u with
      | Some _ => schedule_next env u st
      | None => (ret tt, st)
      end
  end.

(** *** [initialize] *)

(** Phase 1: [all_sessions], keyed by the uuid inside the record. *)
Definition load_all (listing : list string) (st : SessionManager)
  : list (string * SessionData) * nat :=
  foldl (λ '(all_sessions, error_count) stem,
           match _load_session_file stem st with
           | inr session_data =>
               (dict_set (uuid session_data) session_data all_sessions, error_count)
           | inl _ => (all_sessions, S error_count)
           end)
        ([], 0%nat) listing.

(** Phase 2: [tg_id_groups], each group a list of [(uuid, created_at)]. *)
Definition group_step (groups : list (Z * list (string * Z)))
    (item : string * SessionData) : list (Z * list (string * Z)) :=
  let tg := tg_id item.2 in
  let groups :=
    match dict_get tg groups with
    | None => dict_set tg [] groups
    | Some _ => groups
    end in
  dict_set tg (default [] (dict_get tg groups) ++ [(item.1, created_at item.2)]) groups.

Definition group_by_tg_id (all_sessions : list (string * SessionData))
  : list (Z * list (string * Z)) :=
  foldl group_step [] all_sessions.

(** Phase 3: [tasks_to_keep] and [tasks_to_delete]. No list of
    [tg_id_groups] is empty (each is created by an append), so the
    [ValueError] of [max] on an empty list has no place here. *)
Definition select_step (acc : gset string * gset string)
    (group : Z * list (string * Z)) : gset string * gset string :=
  match group.2 with
  | [only] => (acc.1 ∪ {[only.1]}, acc.2)
  | uuid_list =>
      match py_max_by snd uuid_list with
      | None => acc
      | Some newest =>
          (acc.1 ∪ {[newest.1]},
           acc.2 ∪ list_to_set (filter (λ u, u ≠ newest.1) uuid_list.*1))
      end
  end.

Definition select (groups : list (Z * list (string * Z)))
  : gset string * gset string :=
  foldl select_step (∅, ∅) groups.

(** Phase 4, "load tasks to keep": store and schedule each of them. *)
Fixpoint load_kept (env : Env) (all_sessions : list (string * SessionData))
    (keep : list string) (st : SessionManager) : result unit * SessionManager :=
  match keep with
  | [] => (ret tt, st)
  | u :: keep' =>
      match dict_get u all_sessions with
      | None => (raise key_error, st)
      | Some session_data =>
          let st := register session_data st in
          match start_heartbeat env (uuid session_data) st with
          | (inl e, st) => (raise e, st)
          | (inr _, st) => load_kept env all_sessions keep' st
          end
      end
  end.

(** Phase 4, "delete old duplicate files": notify, then delete the file. *)
Fixpoint discard (env : Env) (all_sessions : list (string * SessionData))
    (del : list string) (st : SessionManager) : result unit * SessionManager :=
  match del with
  | [] => (ret tt, st)
  | u :: del' =>
      match dict_get u all_sessions with
      | None => (raise key_error, st)
      | Some session_data =>
          let st := emit (Notified (send_cleanup (notify_chat_id session_data) u
                                      replaced_reason)) st in
          let st := remove_file env u st in
          discard env all_sessions del' st
      end
  end.

(** [__init__] has created the data directory, so the early return on a
    missing directory is not taken. *)
Definition initialize (env : Env) (st : SessionManager)
  : result unit * SessionManager :=
  let all_sessions := (load_all (glob env st) st).1 in
  let selected := select (group_by_tg_id all_sessions) in
  match load_kept env all_sessions (iterate env selected.1) st with
  | (inl e, st) => (raise e, st)
  | (inr _, st) => discard env all_sessions (iterate env selected.2) st
  end.

End Manager.

(** ** Text: [str] methods and [re] classes (models.py, telegram_client.py,
    web_server.py) *)

Module Text.
Import Stdlib.Strings.Ascii.

(** A character is a code point; [ascii] has those up to U+00FF, and the
    classes below are Python's on that range. *)
Definition code (c : ascii) : N := N_of_ascii c.

Definition between (lo hi : N) (c : ascii) : bool :=
  ((lo <=? code c) && (code c <=? hi))%N.

(** [\d] of [re] on a [str] pattern: the decimal digits. *)
Definition is_decimal (c : ascii) : bool := between 48 57 c.

(** One character of [str.isdigit()]: the decimal digits and the
    superscript digits. *)
Definition is_digit (c : ascii) : bool :=
  is_decimal c || between 178 179 c || between 185 185 c.

(** [\w] of [re] on a [str] pattern: alphanumerics and the underscore. *)
Definition is_word (c : ascii) : bool :=
  between 48 57 c || between 65 90 c || between 95 95 c || between 97 122 c
  || between 170 170 c || between 178 179 c || between 181 181 c
  || between 185 186 c || between 188 190 c || between 192 214 c
  || between 216 246 c || between 248 255 c.

(** [[0-9a-f]] under [re.IGNORECASE]. *)
Definition is_hex (c : ascii) : bool :=
  between 48 57 c || between 65 70 c || between 97 102 c.

Fixpoint all (p : ascii → bool) (s : string) : bool :=
  match s with
  | EmptyString => true
  | String c s' => p c && all p s'
  end.

Fixpoint count (p : ascii → bool) (s : string) : nat :=
  match s with
  | EmptyString => 0
  | String c s' => (if p c then 1 else 0) + count p s'
  end.

Definition len (s : string) : Z := Z.of_nat (String.length s).

(** [s.isdigit()]: false on the empty string. *)
Definition isdigit (s : string) : bool :=
  match s with
  | EmptyString => false
  | _ => all is_digit s
  end.

(** [s.replace(x, '')] for a one-character [x]. *)
Fixpoint remove (x : ascii) (s : string) : string :=
  match s with
  | EmptyString => EmptyString
  | String c s' => if decide (c = x) then remove x s' else String c (remove x s')
  end.

Definition head (s : string) : option ascii :=
  match s with
  | EmptyString => None
  | String c _ => Some c
  end.

(** The last character of [s], or [prev] when [s] is empty. *)
Fixpoint last_of (prev : option ascii) (s : string) : option ascii :=
  match s with
  | EmptyString => prev
  | String c s' => last_of (Some c) s'
  end.

End Text.

(** ** Request validators (models.py) *)

Module Validators.
Import Stdlib.Strings.Ascii Text.

(** [LoginCodeRequest.validate_code] *)
Definition validate_code (v : string) : result string :=
  if negb (isdigit v)
  then raise (Exn ValueError "Verification code must contain only digits")
  else if (len v <? 5) || (6 <? len v)
  then raise (Exn ValueError "Verification code must be 5 or 6 digits")
  else ret v.

(** [LoginStartRequest.validate_phone] *)
Definition validate_phone (v : string) : result string :=
  let cleaned := remove "-" (remove " " v) in
  let cleaned :=
    match cleaned with
    | String "+" rest => rest
    | _ => cleaned
    end in
  if negb (isdigit cleaned)
  then raise (Exn ValueError
                "Phone number must contain only digits (and optional + prefix)")
  else if (len cleaned <? 10) || (15 <? len cleaned)
  then raise (Exn ValueError "Phone number must be between 10 and 15 digits")
  else ret v.

(** The pattern both uuid checks share, up to its end anchor:
    [[0-9a-f]{8}-[0-9a-f]{4}-[0-9a-f]{4}-[0-9a-f]{4}-[0-9a-f]{12}] matched
    at the start of the string; the result is what follows the match. Every
    repetition has a fixed count, so there is one way to match. *)
Fixpoint hexes (n : nat) (s : string) : option string :=
  match n with
  | O => Some s
  | S n' =>
      match s with
      | String c s' => if is_hex c then hexes n' s' else None
      | EmptyString => None
      end
  end.

Definition dash (s : string) : option string :=
  match s with
  | String "-" s' => Some s'
  | _ => None
  end.

Inductive atom :=
  | Hex (n : nat)
  | Dash.

Definition match_atom (a : atom) (s : string) : option string :=
  match a with
  | Hex n => hexes n s
  | Dash => dash s
  end.

Definition uuid_atoms : list atom :=
  [Hex 8; Dash; Hex 4; Dash; Hex 4; Dash; Hex 4; Dash; Hex 12].

(** The atoms in sequence; [None] once one of them has failed. *)
Definition match_atoms (atoms : list atom) (r : option string) : option string :=
  foldl (λ (r : option string) a, r ≫= match_atom a) r atoms.

Definition uuid_pattern (s : string) : option string :=
  match_atoms uuid_atoms (Some s).

(** The number of characters a sequence of atoms matches. *)
Definition width (atoms : list atom) : nat :=
  foldr (λ a n, (match a with Hex k => k | Dash => 1 end + n)%nat) 0%nat atoms.

Definition is_uuid_char (c : ascii) : bool :=
  is_hex c || bool_decide (c = "-"%char).

Definition is_plus (c : ascii) : bool := bool_decide (c = "+"%char).

Definition is_phone_char (c : ascii) : bool :=
  is_digit c || is_plus c || bool_decide (c = "-"%char) || bool_decide (c = " "%char).

Definition newline : string := String "010" EmptyString.

(** [SessionData.validate_uuid]: the pattern ends in [$], which matches at
    the end of the string and also before a newline that ends it. *)
Definition validate_uuid (v : string) : result string :=
  match uuid_pattern v with
  | Some rest =>
      if bool_decide (rest = EmptyString) || bool_decide (rest = newline)
      then ret v
      else raise (Exn ValueError "Invalid UUID format")
  | None => raise (Exn ValueError "Invalid UUID format")
  end.

(** [web_server.validate_uuid_format]: the pattern ends in [\Z]. *)
Definition validate_uuid_format (u : string) : bool :=
  match uuid_pattern u with
  | Some rest => bool_decide (rest = EmptyString)
  | None => false
  end.

End Validators.

(** ** [_extract_verification_code] (telegram_client.py) *)

Module CodeListener.
Import Stdlib.Strings.Ascii Text.

Definition at_word (c : option ascii) : bool :=
  match c with
  | Some c => is_word c
  | None => false
  end.

(** [\b] at a position: exactly one of the character before it and the
    character after it is a word character (the ends of the string count
    as non-word). *)
Definition word_boundary (prev : option ascii) (rest : string) : bool :=
  xorb (at_word prev) (at_word (head rest)).

(** [\d{n}] at the start of [s]: the digits matched and what follows. *)
Fixpoint digits (n : nat) (s : string) : option (string * string) :=
  match n with
  | O => Some (EmptyString, s)
  | S n' =>
      match s with
      | String c s' =>
          if is_decimal c
          then (λ mr : string * string, (String c mr.1, mr.2)) <$> digits n' s'
          else None
      | EmptyString => None
      end
  end.

(** [(\d{n})\b] at the start of [s], the character before being [prev]. *)
Definition digits_then_boundary (n : nat) (prev : option ascii) (s : string)
  : option string :=
  match digits n s with
  | Some (m, rest) => if word_boundary (last_of prev m) rest then Some m else None
  | None => None
  end.

(** [\b(\d{5,6})\b] at one position: the repetition is greedy, six digits
    are tried before five. *)
Definition match_here (prev : option ascii) (s : string) : option string :=
  if word_boundary prev s
  then match digits_then_boundary 6 prev s with
       | Some m => Some m
       | None => digits_then_boundary 5 prev s
       end
  else None.

(** [re.search]: the match at the leftmost position that has one; the
    positions run up to the end of the string. *)
Fixpoint search (prev : option ascii) (s : string) : option string :=
  match match_here prev s with
  | Some m => Some m
  | None =>
      match s with
      | EmptyString => None
      | String c s' => search (Some c) s'
      end
  end.

Definition _extract_verification_code (message : string) : option string :=
  search None message.

(** A run of 5 or 6 decimal digits with no word character on either
    side. *)
Definition standalone_code (pre code post : string) : Prop :=
  all is_decimal code = true ∧
  (String.length code = 5 ∨ String.length code = 6)%nat ∧
  at_word (last_of None pre) = false ∧
  at_word (head post) = false.

End CodeListener.

(** ** The task routes (web_server.py) *)

(** The values the routes put in their answers. *)
Inductive json :=
  | JString (s : string)
  | JInt (n : Z)
  | JNull.

Definition optional (s : option string) : json :=
  match s with
  | Some s => JString s
  | None => JNull
  end.

(** What a route hands to the framework: a [JSONResponse] it returns, or an
    [HTTPException] it raises. The routes are modelled from the point
    where the request has passed the validators of its model. *)
Inductive response :=
  | JSONResponse (status_code : Z) (content : list (string * json))
  | HTTPException (status_code : Z) (detail : string).

Definition status_of (r : response) : Z :=
  match r with
  | JSONResponse status_code _ => status_code
  | HTTPException status_code _ => status_code
  end.

(** A field of the content of an answer. *)
Definition field (name : string) (r : response) : option json :=
  match r with
  | JSONResponse _ content => dict_get name content
  | HTTPException _ _ => None
  end.

Definition manual_reason : string := "用户手动删除".

(** [delete_task]: [DELETE /api/task/{uuid}]. [cleanup_task] has no error
    result, so the last [except] clause has nothing to catch. *)
Definition delete_task (env : Env) (u : string) (st : SessionManager)
  : response * SessionManager :=
  if Validators.validate_uuid_format u
  then match sessions st !! u with
       | None =>
           (HTTPException 404 ("Task with UUID " +:+ u +:+ " not found"), st)
       | Some _ =>
           (JSONResponse 200 [("status", JString "deleted"); ("uuid", JString u);
                              ("message", JString "Task deleted successfully")],
            cleanup_task env u manual_reason st)
       end
  else (HTTPException 400 ("Invalid UUID format: " +:+ "Invalid UUID format"), st).

Section Routes.
Variable cfg : Config.

(** [create_keepalive_task]: [POST /api/task/create]. [except ValueError]
    comes first, [except Exception] takes the rest. *)
Definition create_keepalive_task (env : Env) (session : string) (chat : Z)
    (st : SessionManager) : response * SessionManager :=
  match create_task cfg env session chat st with
  | (inr task_uuid, st) =>
      (JSONResponse 201
         [("status", JString "created"); ("uuid", JString task_uuid);
          ("verify_url", JString ("/verifyCode/" +:+ task_uuid));
          ("message",
           JString ("Keepalive task created successfully. Please start the bot @"
                    +:+ notify_bot_name cfg +:+ " to receive notifications."))],
       st)
  | (inl e, st) =>
      match exn_class_of e with
      | ValueError => (HTTPException 400 (exn_str e), st)
      | _ => (HTTPException 500 "Internal server error during task creation", st)
      end
  end.

(** [validate_task_session]: [POST /api/task/validate]. *)
Definition validate_task_session (env : Env) : response :=
  match fst (ProbeGate.validate_session (tg_validate env)) with
  | inr account_info =>
      JSONResponse 200
        [("status", JString "valid");
         ("tg_id", JInt (ProbeGate.ai_tg_id account_info));
         ("username", optional (ProbeGate.ai_username account_info));
         ("phone", optional (ProbeGate.ai_phone account_info));
         ("first_name", optional (ProbeGate.ai_first_name account_info));
         ("last_name", optional (ProbeGate.ai_last_name account_info));
         ("bot_name", JString (notify_bot_name cfg));
         ("message", JString "Session is valid")]
  | inl e =>
      match exn_class_of e with
      | ValueError => HTTPException 400 (exn_str e)
      | _ => HTTPException 500 "Internal server error during session validation"
      end
  end.

(** [lifespan], up to its [yield]: a manager over the data directory, then
    [initialize]. *)
Definition lifespan_startup (env : Env) (disk : gmap string file)
  : result unit * SessionManager :=
  initialize cfg env (new_manager disk).

End Routes.

(** ** The login routes (web_server.py) *)

Module Login.

(** [d.pop(k, None)] on an insertion-ordered dict. *)
Fixpoint dict_pop {K V : Type} `{EqDecision K} (k : K) (d : list (K * V))
  : list (K * V) :=
  match d with
  | [] => []
  | (k', v) :: d' => if decide (k' = k) then d' else (k', v) :: dict_pop k d'
  end.

(** The two values the routes give to [LoginSession.status]. *)
Inductive login_status :=
  | code_sent
  | password_required.

Section LoginRoutes.
(** [time.time()] is a float; the routes only store it and compare it:
    [timed_out current_time created_at] stands for
    [current_time - created_at > SESSION_TIMEOUT]. *)
Context {time : Type}.
Variable timed_out : time → time → bool.

(** [LoginSession], without its [client]: what the routes ask of the
    client is in [LoginEnv]. *)
Record LoginSession := {
  session_id : string;
  phone : string;
  phone_code_hash : string;
  created_at : time;
  status : login_status;
}.

Definition with_status (s : login_status) (l : LoginSession) : LoginSession :=
  {| session_id := session_id l; phone := phone l;
     phone_code_hash := phone_code_hash l; created_at := created_at l;
     status := s |}.

(** The dict [login_sessions], and the calls made to [client.disconnect()]
    (by the id of the session the client belongs to), in order. *)
Record LoginState := {
  login_sessions : list (string * LoginSession);
  disconnected : list string;
}.

(** What [submit_code] returns. *)
Inductive code_result :=
  | PasswordRequired
  | LoggedIn (session_string : string) (tg_id : Z).

(** What a request obtains from outside the process: the undecorated
    bodies of [start_login], [submit_code] and [submit_password] per
    invocation (for [start_login] the [phone_code_hash] of its answer),
    [secrets.token_urlsafe(32)], [time.time()], and
    [client.is_connected()] for the client of a session. *)
Record LoginEnv := {
  tg_start_login : nat → result string;
  tg_submit_code : nat → result code_result;
  tg_submit_password : nat → result (string * Z);
  token_urlsafe : string;
  time_time : time;
  is_connected : string → bool;
}.

(** [login_sessions.pop(session_id, None)], then the disconnect of a client
    that is still connected: the body of [cleanup_login_session], and of
    the loops of [cleanup_expired_sessions] and
    [cleanup_all_login_sessions]. *)
Definition cleanup_login_session (env : LoginEnv) (sid : string)
    (st : LoginState) : LoginState :=
  match dict_get sid (login_sessions st) with
  | None => st
  | Some _ =>
      {| login_sessions := dict_pop sid (login_sessions st);
         disconnected := if is_connected env sid
                         then disconnected st ++ [sid] else disconnected st |}
  end.

Definition cleanup_expired_sessions (env : LoginEnv) (st : LoginState)
  : LoginState :=
  let current_time := time_time env in
  let expired_sessions :=
    (filter (λ item, timed_out current_time (created_at item.2) = true)
            (login_sessions st)).*1 in
  foldl (λ st sid, cleanup_login_session env sid st) st expired_sessions.

Definition cleanup_all_login_sessions (env : LoginEnv) (st : LoginState)
  : LoginState :=
  let session_ids := (login_sessions st).*1 in
  foldl (λ st sid, cleanup_login_session env sid st) st session_ids.

Definition expired_detail : string :=
  "Invalid or expired session. Please start login again.".

(** [login_start]: [POST /api/login/start]. *)
Definition login_start (env : LoginEnv) (phone_number : string)
    (st : LoginState) : response * LoginState :=
  match fst (ProbeGate.handle_telegram_errors (tg_start_login env)) with
  | inr hash =>
      let sid := token_urlsafe env in
      let login_session :=
        {| session_id := sid; phone := phone_number; phone_code_hash := hash;
           created_at := time_time env; status := code_sent |} in
      (JSONResponse 200
         [("status", JString "code_sent"); ("session_id", JString sid);
          ("phone", JString phone_number);
          ("message", JString "Verification code sent to your Telegram account")],
       {| login_sessions := dict_set sid login_session (login_sessions st);
          disconnected := disconnected st |})
  | inl e =>
      match exn_class_of e with
      | ValueError => (HTTPException 400 (exn_str e), st)
      | _ => (HTTPException 500 "Internal server error during login", st)
      end
  end.

(** [login_code]: [POST /api/login/code]. *)
Definition login_code (env : LoginEnv) (sid : string) (st : LoginState)
  : response * LoginState :=
  match dict_get sid (login_sessions st) with
  | None => (HTTPException 400 expired_detail, st)
  | Some login_session =>
      match fst (ProbeGate.handle_telegram_errors (tg_submit_code env)) with
      | inr PasswordRequired =>
          (JSONResponse 200
             [("status", JString "password_required");
              ("session_id", JString sid);
              ("message",
               JString "Two-factor authentication is enabled. Please provide your password.")],
           {| login_sessions :=
                dict_set sid (with_status password_required login_session)
                  (login_sessions st);
              disconnected := disconnected st |})
      | inr (LoggedIn session_string tg_id) =>
          (JSONResponse 200
             [("status", JString "success");
              ("session_string", JString session_string);
              ("tg_id", JInt tg_id);
              ("message", JString "Login successful")],
           cleanup_login_session env sid st)
      | inl e =>
          match exn_class_of e with
          | ValueError =>
              (HTTPException 400 (exn_str e), cleanup_login_session env sid st)
          | _ =>
              (HTTPException 500 "Internal server error during code submission",
               cleanup_login_session env sid st)
          end
      end
  end.

(** [login_password]: [POST /api/login/password]. *)
Definition login_password (env : LoginEnv) (sid : string) (st : LoginState)
  : response * LoginState :=
  match dict_get sid (login_sessions st) with
  | None => (HTTPException 400 expired_detail, st)
  | Some login_session =>
      match status login_session with
      | code_sent =>
          (HTTPException 400 "Session is not in password_required state", st)
      | password_required =>
          match fst (ProbeGate.handle_telegram_errors (tg_submit_password env)) with
          | inr (session_string, tg_id) =>
              (JSONResponse 200
                 [("status", JString "success");
                  ("session_string", JString session_string);
                  ("tg_id", JInt tg_id);
                  ("message", JString "Login successful with 2FA")],
               cleanup_login_session env sid st)
          | inl e =>
              match exn_class_of e with
              | ValueError =>
                  (HTTPException 400 (exn_str e), cleanup_login_session env sid st)
              | _ =>
                  (HTTPException 500
                     "Internal server error during password submission",
                   cleanup_login_session env sid st)
              end
          end
      end
  end.

(** The session string an answer carries, if any. *)
Definition session_string_of (r : response) : option string :=
  match field "session_string" r with
  | Some (JString s) => Some s
  | _ => None
  end.

End LoginRoutes.

End Login.

(** ** Vocabulary of the statements *)

(** The outcome of the probe as [execute_heartbeat] sees it, through the
    gate, and the error text its failure notification carries. *)
Definition probe_outcome (env : Env) : result bool :=
  fst (ProbeGate.heartbeat (tg_heartbeat env)).

Definition failure_text (env : Env) : string :=
  match probe_outcome env with
  | inl e => exn_str e
  | inr _ => "Heartbeat returned False"
  end.

(** How the gate hands an unusable credential to the caller:
    [AuthKeyUnregisteredError] becomes a [ValueError]; the [ValueError] of
    [_do_validate] passes as it is. *)
Definition classified_invalid (e : exn) : exn :=
  match exn_class_of e with
  | AuthKeyUnregisteredError => Exn ValueError "Session expired or invalid"
  | _ => e
  end.

(** The range the specification gives for a scheduled interval. *)
Definition within_jitter (cfg : Config) (i : Z) : Prop :=
  interval_seconds cfg ≤ i ≤ interval_seconds cfg + jitter_seconds cfg.

(** Number of cleanup notifications sent for a task. *)
Definition is_cleanup_of (u : string) (ev : event) : bool :=
  match ev with
  | Notified (send_cleanup _ u' _) => bool_decide (u' = u)
  | _ => false
  end.

Definition cleanups_for (u : string) (l : list event) : nat :=
  length (List.filter (is_cleanup_of u) l).

(** The uniqueness invariant: live tasks have pairwise distinct accounts,
    and the reverse index holds exactly the accounts of the live tasks,
    each with the uuid of its task. *)
Record one_task_per_account (st : SessionManager) : Prop := {
  distinct_accounts :
    ∀ u1 u2 d1 d2, u1 ≠ u2 → sessions st !! u1 = Some d1 →
                   sessions st !! u2 = Some d2 → tg_id d1 ≠ tg_id d2;
  index_of_live :
    ∀ u d, sessions st !! u = Some d → tg_id_to_uuid st !! tg_id d = Some u;
  index_is_live :
    ∀ tg u, tg_id_to_uuid st !! tg = Some u →
            ∃ d, sessions st !! u = Some d ∧ tg_id d = tg;
}.

(** The group [initialize] forms for an account: the records of
    [all_sessions] with that [tg_id], in the order of the dict. *)
Definition members (tg : Z) (all_sessions : list (string * SessionData))
  : list (string * Z) :=
  omap (λ item, if decide (tg_id item.2 = tg)
                then Some (item.1, created_at item.2) else None) all_sessions.

(** The uuid [initialize] keeps out of a group. *)
Definition winner (uuid_list : list (string * Z)) : option string :=
  fst <$> py_max_by snd uuid_list.

(** Every live record is stored under its own uuid. *)
Definition keyed (st : SessionManager) : Prop :=
  ∀ u d, sessions st !! u = Some d → uuid d = u.

(** What the second loop of [initialize] sends and deletes, in order,
    when the files are there. *)
Definition discard_events (env : Env) (all_sessions : list (string * SessionData))
    (del : list string) : list event :=
  del ≫= λ u, match dict_get u all_sessions with
              | Some d =>
                  Notified (send_cleanup (notify_chat_id d) u replaced_reason)
                  :: (if unlink_raises env u then [] else [FileDeleted u])
              | None => []
              end.

(** Every record sits in the file named after its uuid, as
    [_save_session_file] writes it. *)
Definition well_named (disk : gmap string file) : Prop :=
  ∀ stem d, disk !! stem = Some (FileOk d) → uuid d = stem.

Definition persisted (disk : gmap string file) (d : SessionData) : Prop :=
  disk !! uuid d = Some (FileOk d).

(** States reached under the startup discipline: [initialize] runs while
    the live index is empty; afterwards tasks are created, cleaned up and
    probed in any order. [uuid4] never returns the uuid of a live task.
    The states met inside [initialize] (after any number of rounds of its
    first loop) and inside [create_task] (old task retired, new record
    written, not yet indexed) are included. *)
Inductive reachable (cfg : Config) : SessionManager → Prop :=
  | reach_new disk :
      reachable cfg (new_manager disk)
  | reach_initialize st env :
      reachable cfg st → sessions st = ∅ →
      reachable cfg (initialize cfg env st).2
  | reach_loading st env (k : nat) :
      reachable cfg st → sessions st = ∅ →
      let all_sessions := (load_all (glob env st) st).1 in
      let keep := (select (group_by_tg_id all_sessions)).1 in
      reachable cfg (load_kept cfg env all_sessions (take k (iterate env keep)) st).2
  | reach_create st env session chat :
      reachable cfg st → sessions st !! uuid4 env = None →
      reachable cfg (create_task cfg env session chat st).2
  | reach_creating st env session chat account_info :
      reachable cfg st →
      fst (ProbeGate.validate_session (tg_validate env)) = ret account_info →
      let tg := ProbeGate.ai_tg_id account_info in
      reachable cfg (_save_session_file env 0 (new_session_data env tg session chat)
                       (replace_existing env tg st)).2
  | reach_cleanup st env u reason :
      reachable cfg st → reachable cfg (cleanup_task env u reason st)
  | reach_heartbeat st env u :
      reachable cfg st →
      reachable cfg (_execute_heartbeat_and_reschedule cfg env u st).2.


(** A task's timer firing at each of [envs] in turn. *)
Definition execute_heartbeats (cfg : Config) (envs : list Env) (u : string)
    (st : SessionManager) : SessionManager :=
  foldl (λ st env, (execute_heartbeat cfg env u st).2) st envs.

(** The probe fails and the handler's write goes through. *)
Definition fails (env : Env) : Prop :=
  probe_outcome env ≠ inr true ∧ write_raises env 0%nat = None.

(** Every scheduled job belongs to a live task. *)
Definition jobs_are_live (st : SessionManager) : Prop :=
  ∀ u, is_Some (jobs st !! u) → is_Some (sessions st !! u).

(** The fields of a task that no heartbeat changes. *)
Definition same_identity (d d' : SessionData) : Prop :=
  uuid d' = uuid d ∧ tg_id d' = tg_id d ∧ session_string d' = session_string d ∧
  notify_chat_id d' = notify_chat_id d ∧ created_at d' = created_at d.

(** The readable records of a directory have pairwise distinct accounts. *)
Definition one_file_per_account (disk : gmap string file) : Prop :=
  ∀ d1 d2, persisted disk d1 → persisted disk d2 → tg_id d1 = tg_id d2 → d1 = d2.

(** *** A concrete deployment, for the scenarios *)

Module Scenario.

(** Uuids as [uuid4] prints them. *)
Definition first_uuid : string := "6f1c2a9e-58d3-4b7a-9c41-0d2e7f3a1b01".
Definition older_uuid : string := "6f1c2a9e-58d3-4b7a-9c41-0d2e7f3a1b02".
Definition newer_uuid : string := "6f1c2a9e-58d3-4b7a-9c41-0d2e7f3a1b03".
Definition third_uuid : string := "6f1c2a9e-58d3-4b7a-9c41-0d2e7f3a1b04".
Definition ghost_uuid : string := "6f1c2a9e-58d3-4b7a-9c41-0d2e7f3a1b07".
Definition spare_uuid : string := "6f1c2a9e-58d3-4b7a-9c41-0d2e7f3a1b08".

Definition config : Config :=
  {| api_id := 1; api_hash := "hash"; interval_seconds := 86400;
     jitter_seconds := 300; notify_bot_token := "token";
     notify_bot_name := "bot"; max_failures := 3; data_dir := "./data" |}.

Definition account (tg : Z) : ProbeGate.AccountInfo :=
  {| ProbeGate.ai_tg_id := tg; ProbeGate.ai_username := None;
     ProbeGate.ai_phone := None; ProbeGate.ai_first_name := None;
     ProbeGate.ai_last_name := None |}.

Definition task (u : string) (tg t : Z) : SessionData :=
  {| uuid := u; tg_id := tg; session_string := "1AQAAAsession";
     notify_chat_id := 7; consecutive_failures := 0; created_at := t;
     last_heartbeat := None |}.

(** Telegram answers every probe well; nothing on the disk fails. *)
Definition calm (new_uuid : string) (clock : Z) : Env :=
  {| tg_validate := λ _, ret (account 42);
     tg_heartbeat := λ _, ret true;
     uuid4 := new_uuid; utcnow := clock; now := λ _, clock;
     random_source := λ _, 17%nat;
     write_raises := λ _, None;
     write_opens := λ _, false;
     unlink_raises := λ _, false;
     glob_rank := λ _, 0%nat;
     visit_rank := λ _, 0%nat |}.

(** The probe fails: by a false result, or by an exception. *)
Definition failing (how : result bool) (clock : Z) : Env :=
  {| tg_validate := λ _, ret (account 42);
     tg_heartbeat := λ _, how;
     uuid4 := spare_uuid; utcnow := clock; now := λ _, clock;
     random_source := λ _, 17%nat;
     write_raises := λ _, None;
     write_opens := λ _, false;
     unlink_raises := λ _, false;
     glob_rank := λ _, 0%nat;
     visit_rank := λ _, 0%nat |}.

(** Every unlink raises. *)
Definition stuck_disk (clock : Z) : Env :=
  {| tg_validate := λ _, ret (account 42);
     tg_heartbeat := λ _, ret true;
     uuid4 := spare_uuid; utcnow := clock; now := λ _, clock;
     random_source := λ _, 17%nat;
     write_raises := λ _, None;
     write_opens := λ _, false;
     unlink_raises := λ _, true;
     glob_rank := λ _, 0%nat;
     visit_rank := λ _, 0%nat |}.

(** Telegram rejects the credential. *)
Definition rejecting : Env :=
  {| tg_validate := λ _, raise (Exn AuthKeyUnregisteredError "AUTH_KEY_UNREGISTERED");
     tg_heartbeat := λ _, ret true;
     uuid4 := spare_uuid; utcnow := 0; now := λ _, 0;
     random_source := λ _, 0%nat;
     write_raises := λ _, None;
     write_opens := λ _, false;
     unlink_raises := λ _, false;
     glob_rank := λ _, 0%nat;
     visit_rank := λ _, 0%nat |}.

(** Two records of account 42 on the disk, created at 1 and at 2. *)
Definition duplicated_disk : gmap string file :=
  {[ older_uuid := FileOk (task older_uuid 42 1);
     newer_uuid := FileOk (task newer_uuid 42 2) ]}.

(** One live task, of account 42. *)
Definition one_live : SessionManager :=
  (create_task config (calm first_uuid 10) "1AQAAAsession" 7 (new_manager ∅)).2.



(** A restart over the duplicated disk, then a new task for the account. *)
Definition restarted : SessionManager :=
  (initialize config (calm spare_uuid 10)
     (new_manager duplicated_disk)).2.

Definition restarted_then_replaced : SessionManager :=
  (create_task config (calm third_uuid 20) "1AQAAAsession" 7 restarted).2.

(** The live task after two failed probes: a false result at time 20, a
    connection error at time 30. *)
Definition connection_reset : result bool :=
  raise (Exn OSError "Connection reset by peer").

Definition twice_failed : SessionManager :=
  (execute_heartbeat config (failing connection_reset 30) first_uuid
     (execute_heartbeat config (failing (ret false) 20) first_uuid one_live).2).2.

End Scenario.

(** *** More of the deployment *)

Module Cases.
Import Scenario.

(** The disk is full at the first write of an operation (the error comes
    once the file has been opened), the next write goes through. *)
Definition disk_full : exn := Exn OSError "No space left on device".

Definition full_disk (how : result bool) (clock : Z) : Env :=
  {| tg_validate := λ _, ret (account 42);
     tg_heartbeat := λ _, how;
     uuid4 := spare_uuid; utcnow := clock; now := λ _, clock;
     random_source := λ _, 17%nat;
     write_raises := λ n, match n with O => Some disk_full | _ => None end;
     write_opens := λ _, true;
     unlink_raises := λ _, false;
     glob_rank := λ _, 0%nat;
     visit_rank := λ _, 0%nat |}.

(** Telegram answers well, nothing on the disk fails, and the random
    source yields [rnd]. *)
Definition drawing (rnd : nat) (clock : Z) : Env :=
  {| tg_validate := λ _, ret (account 42);
     tg_heartbeat := λ _, ret true;
     uuid4 := spare_uuid; utcnow := clock; now := λ _, clock;
     random_source := λ _, rnd;
     write_raises := λ _, None;
     write_opens := λ _, false;
     unlink_raises := λ _, false;
     glob_rank := λ _, 0%nat;
     visit_rank := λ _, 0%nat |}.


(** Telegram asks to wait, then rejects the credential at the retry. *)
Definition unregistered : exn :=
  Exn AuthKeyUnregisteredError "AUTH_KEY_UNREGISTERED".

Definition flood_then_rejected : Env :=
  {| tg_validate := λ n, match n with
                         | O => raise (Exn (FloodWaitError 30) "A wait is required")
                         | _ => raise unregistered
                         end;
     tg_heartbeat := λ _, ret true;
     uuid4 := spare_uuid; utcnow := 0; now := λ _, 0;
     random_source := λ _, 0%nat;
     write_raises := λ _, None;
     write_opens := λ _, false;
     unlink_raises := λ _, false;
     glob_rank := λ _, 0%nat;
     visit_rank := λ _, 0%nat |}.

(** Two records of account 42, one of account 43, and a file that does
    not parse. *)
Definition mixed_disk : gmap string file :=
  {[ older_uuid := FileOk (task older_uuid 42 1);
     newer_uuid := FileOk (task newer_uuid 42 2);
     third_uuid := FileOk (task third_uuid 43 3);
     ghost_uuid := FileBad ]}.

(** The same directory once reconciled. *)
Definition reconciled_disk : gmap string file :=
  {[ newer_uuid := FileOk (task newer_uuid 42 2);
     third_uuid := FileOk (task third_uuid 43 3);
     ghost_uuid := FileBad ]}.

(** Two live tasks, of accounts 42 and 43. *)
Definition two_live : SessionManager :=
  (initialize config (calm spare_uuid 10) (new_manager reconciled_disk)).2.

(** Login sessions, with times in whole seconds. *)
Definition timed_out (current_time created_at : Z) : bool :=
  600 <? current_time - created_at.

Definition login_session (sid : string) (t : Z) (s : Login.login_status)
  : Login.LoginSession :=
  {| Login.session_id := sid; Login.phone := "+12345678901";
     Login.phone_code_hash := "hash"; Login.created_at := t;
     Login.status := s |}.

(** A session started at time 0 and one started at time 500. *)
Definition pending : Login.LoginState :=
  {| Login.login_sessions :=
       [("sid-early", login_session "sid-early" 0 Login.code_sent);
        ("sid-late", login_session "sid-late" 500 Login.code_sent)];
     Login.disconnected := [] |}.

(** Telegram refuses the code; asks for the password; accepts the
    password. *)
Definition login_env (code : result Login.code_result) (clock : Z)
  : Login.LoginEnv :=
  {| Login.tg_start_login := λ _, ret "hash";
     Login.tg_submit_code := λ _, code;
     Login.tg_submit_password := λ _, ret ("1AQAAAsession", 42);
     Login.token_urlsafe := "sid-new";
     Login.time_time := clock;
     Login.is_connected := λ _, true |}.

Definition wrong_code : result Login.code_result :=
  raise (Exn PhoneCodeInvalidError "PHONE_CODE_INVALID").

End Cases.

(** * Theorems *)

Import ProbeGate.

(** ** Redaction *)

Section MaskingFacts.
Import Masking.

Lemma substring_full (s : string) :
  String.substring 0 (String.length s) s = s.
Proof. induction s as [|c s IH]; simpl; [reflexivity | by rewrite IH]. Qed.

Lemma substring_split (n : nat) (s : string) :
  (n ≤ String.length s)%nat →
  s = String.substring 0 n s +:+ String.substring n (String.length s - n) s.
Proof.
  revert n; induction s as [|c s IH]; intros [|n] Hn; simpl in *; try lia.
  - reflexivity.
  - by rewrite substring_full.
  - change (String c s = String c (String.substring 0 n s
              +:+ String.substring n (String.length s - n) s)).
    f_equal. apply IH. lia.
Qed.

Lemma substring_prefix_length (n : nat) (s : string) :
  (n ≤ String.length s)%nat → String.length (String.substring 0 n s) = n.
Proof.
  revert n; induction s as [|c s IH]; intros [|n] Hn; simpl in *; try lia.
  f_equal. apply IH. lia.
Qed.

Lemma substring_nonempty (n m : nat) (s : string) :
  (0 < m)%nat → (n + m ≤ String.length s)%nat → String.substring n m s ≠ "".
Proof.
  revert n; induction s as [|c s IH]; intros n Hm Hn; simpl in *; [lia|].
  destruct n as [|n].
  - destruct m; [lia | discriminate].
  - apply IH; lia.
Qed.

Lemma mask_unfold (s : string) :
  s ≠ "" →
  mask s = if Z.of_nat (String.length s) <=? 10
           then String.substring 0 3 s +:+ "..."
           else String.substring 0 10 s +:+ "...".
Proof. destruct s; [congruence | reflexivity]. Qed.

(** C8, as the claim words it, fails: a credential of at most three
    characters is shown whole, and two prefix lengths are in use. *)
Lemma C8_short_credential_shown_whole :
  mask "abc" = "abc" +:+ "..." ∧ ¬ reveals_fixed_proper_prefix.
Proof.
  split; [reflexivity|].
  intros [n H]. destruct (H "a") as [Hm Hn]; [discriminate|].
  simpl in Hn. assert (n = 0%nat) as -> by lia. discriminate Hm.
Qed.

(** C8, amended: a credential of more than three characters is logged as
    a proper prefix of itself followed by the ellipsis; the prefix has 10
    characters when the credential has more than 10, and 3 otherwise. The
    empty credential is logged as the empty string. *)
Theorem C8_mask_reveals_proper_prefix (s : string) :
  (3 < String.length s)%nat →
  let n := if (10 <? String.length s)%nat then 10%nat else 3%nat in
  ∃ hidden : string,
    hidden ≠ "" ∧
    s = String.substring 0 n s +:+ hidden ∧
    String.length (String.substring 0 n s) = n ∧
    mask s = String.substring 0 n s +:+ "..." ∧
    mask "" = "".
Proof.
  intros Hlen n.
  assert (n < String.length s)%nat as Hn.
  { subst n. destruct (Nat.ltb_spec 10 (String.length s)); lia. }
  exists (String.substring n (String.length s - n) s). repeat split.
  - apply substring_nonempty; lia.
  - apply substring_split; lia.
  - apply substring_prefix_length; lia.
  - rewrite mask_unfold by (intros ->; simpl in Hlen; lia).
    subst n. destruct (Nat.ltb_spec 10 (String.length s));
      destruct (Z.leb_spec (Z.of_nat (String.length s)) 10); try lia; reflexivity.
Qed.

Lemma C8_mask_reveals_proper_prefix_witness :
  ∃ hidden : string,
    hidden ≠ "" ∧
    "1AQAAAsession" = String.substring 0 10 "1AQAAAsession" +:+ hidden ∧
    String.length (String.substring 0 10 "1AQAAAsession") = 10%nat ∧
    mask "1AQAAAsession" = String.substring 0 10 "1AQAAAsession" +:+ "..." ∧
    mask "" = "".
Proof. apply (C8_mask_reveals_proper_prefix "1AQAAAsession"). simpl. lia. Defined.

End MaskingFacts.

(** ** The probe gate *)

Section GateFacts.
Context {A : Type}.

Lemma gate_passes_result (func : nat → result A) (v : A) :
  func 0%nat = inr v → handle_telegram_errors func = (inr v, [Called 0]).
Proof. intros H. unfold handle_telegram_errors. by rewrite H. Qed.

(** C6: when the first invocation signals a flood wait of [T] seconds,
    the gate sleeps [T + 5], invokes the same coroutine a second time and
    hands its outcome, result or exception, to the caller as it is; there
    is no third invocation, whatever the second one raises. *)
Theorem C6_rate_limited_retried_once (func : nat → result A) (e : exn) (T : Z) :
  func 0%nat = inl e → exn_class_of e = FloodWaitError T →
  handle_telegram_errors func = (func 1%nat, [Called 0; Slept (T + 5); Called 1]) ∧
  calls (handle_telegram_errors func).2 = 2%nat ∧
  sleeps (handle_telegram_errors func).2 = [T + 5].
Proof.
  intros H0 He.
  assert (handle_telegram_errors func
          = (func 1%nat, [Called 0; Slept (T + 5); Called 1])) as ->.
  { unfold handle_telegram_errors. by rewrite H0, He. }
  done.
Qed.

End GateFacts.

(** Rate-limited for 30 seconds, then rate-limited again for 60: the second
    error reaches the caller after two invocations and one sleep of 35. *)
Lemma C6_rate_limited_retried_once_witness :
  let flood s := raise (Exn (FloodWaitError s) "A wait is required") in
  let func := λ n : nat, match n with O => flood 30 | _ => flood 60 end
              : result bool in
  handle_telegram_errors func = (flood 60, [Called 0; Slept 35; Called 1]) ∧
  calls (handle_telegram_errors func).2 = 2%nat ∧
  sleeps (handle_telegram_errors func).2 = [35].
Proof.
  intros flood func.
  apply (C6_rate_limited_retried_once func (Exn (FloodWaitError 30) "A wait is required") 30);
    reflexivity.
Defined.

(** ** The manager *)

Lemma cleanups_for_app (u : string) (l1 l2 : list event) :
  cleanups_for u (l1 ++ l2) = (cleanups_for u l1 + cleanups_for u l2)%nat.
Proof. unfold cleanups_for. by rewrite List.filter_app, length_app. Qed.

Lemma cleanups_for_cleanup (u : string) (chat : Z) (reason : string) :
  cleanups_for u [Notified (send_cleanup chat u reason)] = 1%nat.
Proof. unfold cleanups_for. simpl. by rewrite bool_decide_eq_true_2. Qed.

Section ManagerFacts.
Variable cfg : Config.

(** *** Creation refused *)

(** C5: when Telegram reports the credential unusable at the first
    invocation, the gate raises after that single invocation, without a
    sleep, and [create_task] raises the same exception and leaves the
    whole state (indices, files, jobs, log, every counter) as it was. *)
Theorem C5_invalid_credential_creates_nothing (env : Env) (e : exn) :
  tg_validate env 0%nat = inl e →
  exn_class_of e = AuthKeyUnregisteredError ∨ exn_class_of e = ValueError →
  validate_session (tg_validate env) = (raise (classified_invalid e), [Called 0]) ∧
  exn_class_of (classified_invalid e) = ValueError ∧
  ∀ session chat st,
    create_task cfg env session chat st = (raise (classified_invalid e), st).
Proof.
  intros H0 Hclass.
  assert (validate_session (tg_validate env)
          = (raise (classified_invalid e), [Called 0])) as Hgate.
  { unfold validate_session, handle_telegram_errors, classified_invalid.
    rewrite H0. destruct Hclass as [-> | ->]; reflexivity. }
  split; [exact Hgate|]. split.
  - unfold classified_invalid. destruct Hclass as [Hc | Hc]; rewrite Hc; [reflexivity | exact Hc].
  - intros session chat st. unfold create_task. by rewrite Hgate.
Qed.

(** *** Scheduling *)

Lemma randint_range (a b : Z) (rnd : nat) (r : Z) :
  randint a b rnd = ret r → a ≤ r ≤ b.
Proof.
  unfold randint. destruct (Z.ltb_spec b a); [discriminate|].
  intros [= <-]. pose proof (Z.mod_pos_bound (Z.of_nat rnd) (b - a + 1)). lia.
Qed.

Lemma randint_total (a b : Z) (rnd : nat) :
  a ≤ b → ∃ r, randint a b rnd = ret r.
Proof. intros. unfold randint. destruct (Z.ltb_spec b a); [lia | eauto]. Qed.

Lemma randint_onto (a b r : Z) :
  a ≤ r ≤ b → randint a b (Z.to_nat (r - a)) = ret r.
Proof.
  intros. unfold randint. destruct (Z.ltb_spec b a); [lia|].
  rewrite Z2Nat.id by lia. rewrite Z.mod_small by lia. f_equal. lia.
Qed.

Lemma next_interval_range (rnd : nat) (i : Z) :
  _calculate_next_interval cfg rnd = ret i → within_jitter cfg i.
Proof.
  unfold _calculate_next_interval, within_jitter.
  destruct (randint 0 (jitter_seconds cfg) rnd) as [e|j] eqn:Hj; [discriminate|].
  intros [= <-]. apply randint_range in Hj. lia.
Qed.

Lemma schedule_next_job (env : Env) (u : string) (st st' : SessionManager) :
  schedule_next cfg env u st = (ret tt, st') →
  ∃ i, _calculate_next_interval cfg (random_source env u) = ret i ∧
       st' = with_jobs (insert u (now env u + i)) st.
Proof.
  unfold schedule_next.
  destruct (_calculate_next_interval cfg (random_source env u)) as [e|i];
    [discriminate|].
  intros [= <-]. eauto.
Qed.

Lemma create_task_job (env : Env) (session : string) (chat : Z)
    (st st' : SessionManager) (u : string) :
  create_task cfg env session chat st = (ret u, st') →
  u = uuid4 env ∧
  ∃ i, _calculate_next_interval cfg (random_source env u) = ret i ∧
       jobs st' !! u = Some (now env u + i).
Proof.
  unfold create_task.
  destruct (validate_session (tg_validate env)).1 as [e|info]; [discriminate|].
  destruct (_save_session_file _ _ _ _) as [[e|[]] st1]; [discriminate|].
  unfold start_heartbeat. cbn [sessions register with_tg_id_to_uuid with_sessions].
  rewrite lookup_insert_eq.
  destruct (schedule_next _ _ _ _) as [[e|[]] st2] eqn:Hs; [discriminate|].
  intros [= <- <-]. split; [reflexivity|].
  apply schedule_next_job in Hs as (i & Hi & ->).
  exists i. split; [exact Hi|]. cbn. apply lookup_insert_eq.
Qed.

Lemma reschedule_job (env : Env) (u : string) (st st' : SessionManager) :
  _execute_heartbeat_and_reschedule cfg env u st = (ret tt, st') →
  is_Some (sessions st' !! u) →
  ∃ i, _calculate_next_interval cfg (random_source env u) = ret i ∧
       jobs st' !! u = Some (now env u + i).
Proof.
  unfold _execute_heartbeat_and_reschedule.
  destruct (execute_heartbeat cfg env u st) as [[e|[]] st1]; [discriminate|].
  destruct (sessions st1 !! u) as [d|] eqn:Hu.
  - intros Hs _. apply schedule_next_job in Hs as (i & Hi & ->).
    exists i. split; [exact Hi|]. cbn. apply lookup_insert_eq.
  - intros [= <-] [d Hd]. congruence.
Qed.

(** C7: whatever the random source yields, the interval computed lies in
    [interval_seconds .. interval_seconds + jitter_seconds]; with a
    non-negative jitter bound an interval is always produced, and every
    point of the range is the outcome of some draw. Every scheduling
    decision makes a draw of its own: the job registered by a successful
    [create_task], and the one registered after a completed run of a task
    that is still live, are set at [now] plus the interval computed from
    the random source as it is read at that decision, for that job, and
    from nothing else; that interval is in the range. *)
Theorem C7_interval_within_jitter (rnd : nat) :
  (∀ i, _calculate_next_interval cfg rnd = ret i → within_jitter cfg i) ∧
  (0 ≤ jitter_seconds cfg → ∃ i, _calculate_next_interval cfg rnd = ret i) ∧
  (∀ i, within_jitter cfg i → ∃ rnd', _calculate_next_interval cfg rnd' = ret i) ∧
  (∀ env session chat st u st',
     create_task cfg env session chat st = (ret u, st') →
     ∃ i, _calculate_next_interval cfg (random_source env u) = ret i ∧
          within_jitter cfg i ∧ jobs st' !! u = Some (now env u + i)) ∧
  (∀ env u st st',
     _execute_heartbeat_and_reschedule cfg env u st = (ret tt, st') →
     is_Some (sessions st' !! u) →
     ∃ i, _calculate_next_interval cfg (random_source env u) = ret i ∧
          within_jitter cfg i ∧ jobs st' !! u = Some (now env u + i)).
Proof.
  split; [|split; [|split; [|split]]].
  - apply next_interval_range.
  - intros Hj. unfold _calculate_next_interval.
    destruct (randint_total 0 (jitter_seconds cfg) rnd Hj) as [r ->]. eauto.
  - intros i [Hlo Hhi]. exists (Z.to_nat (i - interval_seconds cfg - 0)).
    unfold _calculate_next_interval. rewrite randint_onto by lia.
    f_equal. lia.
  - intros env session chat st u st' H.
    apply create_task_job in H as (_ & i & Hi & Hjob).
    exists i. split; [exact Hi|].
    split; [by eapply next_interval_range | exact Hjob].
  - intros env u st st' H Hlive.
    destruct (reschedule_job _ _ _ _ H Hlive) as (i & Hi & Hjob).
    exists i. split; [exact Hi|].
    split; [by eapply next_interval_range | exact Hjob].
Qed.

(** *** Cleanup *)

Lemma cleanup_task_absent (env : Env) (u reason : string) (st : SessionManager) :
  sessions st !! u = None → cleanup_task env u reason st = st.
Proof. intros H. unfold cleanup_task. by rewrite H. Qed.

(** What [cleanup_task] does to each component, for a live task. *)
Lemma cleanup_task_live (env : Env) (u reason : string) (st : SessionManager)
    (d : SessionData) :
  sessions st !! u = Some d →
  let st' := cleanup_task env u reason st in
  sessions st' = delete u (sessions st) ∧
  tg_id_to_uuid st' =
    (if decide (tg_id_to_uuid st !! tg_id d = Some u)
     then delete (tg_id d) (tg_id_to_uuid st) else tg_id_to_uuid st) ∧
  jobs st' = delete u (jobs st) ∧
  files st' = files (remove_file env u st) ∧
  log st' = log (remove_file env u
                   (emit (Notified (send_cleanup (notify_chat_id d) u reason)) st)).
Proof.
  intros H. unfold cleanup_task. rewrite H. cbn zeta.
  set (st1 := remove_file env u _).
  assert (sessions st1 = sessions st ∧ tg_id_to_uuid st1 = tg_id_to_uuid st ∧
          jobs st1 = delete u (jobs st) ∧
          files st1 = files (remove_file env u st) ∧
          log st1 = log (remove_file env u
                   (emit (Notified (send_cleanup (notify_chat_id d) u reason)) st)))
    as (Hs & Ht & Hj & Hf & Hl).
  { subst st1. unfold remove_file. cbn.
    destruct (unlink_raises env u); [done|].
    destruct (files st !! u); done. }
  cbn [tg_id_to_uuid with_sessions]. rewrite Ht.
  destruct (tg_id_to_uuid st !! tg_id d) as [u'|] eqn:Hidx.
  - destruct (decide (u' = u)) as [->|Hne].
    + rewrite decide_True by done. cbn. by rewrite Hs, Ht.
    + rewrite decide_False by congruence. cbn. by rewrite Hs.
  - rewrite decide_False by done. cbn. by rewrite Hs.
Qed.

Lemma cleanup_task_gone (env : Env) (u reason : string) (st : SessionManager) :
  sessions (cleanup_task env u reason st) !! u = None.
Proof.
  destruct (sessions st !! u) as [d|] eqn:H.
  - destruct (cleanup_task_live env u reason st d H) as (-> & _).
    apply lookup_delete_eq.
  - by rewrite cleanup_task_absent.
Qed.

(** C9: a second [cleanup_task] on the same uuid changes nothing (no
    notification, no cancellation, no deletion) and, like every
    [cleanup_task], cannot raise; more generally [cleanup_task] on a uuid
    that is not live returns the state it was given. *)
Theorem C9_cleanup_task_idempotent (env env' : Env) (u reason reason' : string)
    (st : SessionManager) :
  cleanup_task env' u reason' (cleanup_task env u reason st)
    = cleanup_task env u reason st ∧
  (sessions st !! u = None → cleanup_task env u reason st = st).
Proof.
  split.
  - apply cleanup_task_absent, cleanup_task_gone.
  - apply cleanup_task_absent.
Qed.

(** C10: when deleting the file raises, [cleanup_task] still takes the task
    out of the live index, drops the reverse-index entry when it points at
    this uuid, cancels the job and has sent its one notification; the
    directory keeps whatever it held, the record included. *)
Theorem C10_cleanup_survives_failed_delete (env : Env) (u reason : string)
    (st : SessionManager) (d : SessionData) :
  sessions st !! u = Some d → unlink_raises env u = true →
  let st' := cleanup_task env u reason st in
  sessions st' = delete u (sessions st) ∧
  sessions st' !! u = None ∧
  tg_id_to_uuid st' =
    (if decide (tg_id_to_uuid st !! tg_id d = Some u)
     then delete (tg_id d) (tg_id_to_uuid st) else tg_id_to_uuid st) ∧
  jobs st' = delete u (jobs st) ∧
  files st' = files st ∧
  log st' = log st ++ [Notified (send_cleanup (notify_chat_id d) u reason)].
Proof.
  intros H Hraise st'.
  destruct (cleanup_task_live env u reason st d H) as (Hs & Ht & Hj & Hf & Hl).
  fold st' in Hs, Ht, Hj, Hf, Hl.
  unfold remove_file in Hf, Hl. rewrite Hraise in Hf, Hl.
  repeat split; try done.
  rewrite Hs. apply lookup_delete_eq.
Qed.

(** *** Heartbeats *)

(** The state a handler leaves once the record [d'] of task [u] is stored,
    written and notified with [n]. *)
Lemma handled_state_fields (u : string) (d' : SessionData) (n : notification)
    (st : SessionManager) :
  let st' := emit (Notified n)
               (emit (FileWritten (uuid d') d')
                  (with_files (insert (uuid d') (FileOk d'))
                     (with_sessions (insert u d') st))) in
  sessions st' = <[u := d']> (sessions st) ∧
  tg_id_to_uuid st' = tg_id_to_uuid st ∧
  jobs st' = jobs st ∧
  files st' = <[uuid d' := FileOk d']> (files st) ∧
  log st' = log st ++ [FileWritten (uuid d') d'; Notified n].
Proof. cbn. by rewrite <- app_assoc. Qed.

Lemma execute_heartbeat_success (env : Env) (u : string) (d : SessionData)
    (st : SessionManager) :
  sessions st !! u = Some d → probe_outcome env = ret true →
  write_raises env 0%nat = None →
  let d' := set_heartbeat_success (utcnow env) d in
  execute_heartbeat cfg env u st =
    (ret tt, emit (Notified (send_success (notify_chat_id d') u))
               (emit (FileWritten (uuid d') d')
                  (with_files (insert (uuid d') (FileOk d'))
                     (with_sessions (insert u d') st)))).
Proof.
  intros Hu Hp Hw d'. unfold execute_heartbeat, heartbeat_attempt.
  unfold probe_outcome in Hp. rewrite Hu, Hp.
  unfold _handle_success, _save_session_file. by rewrite Hu, Hw.
Qed.

(** A failed probe with a working disk: one increment, one write, one
    failure notification, and the cleanup once the threshold is met. *)
Lemma execute_heartbeat_failure (env : Env) (u : string) (d : SessionData)
    (st : SessionManager) :
  sessions st !! u = Some d → probe_outcome env ≠ ret true →
  write_raises env 0%nat = None →
  let d' := incr_failures d in
  let st1 := emit (Notified (send_failure (notify_chat_id d') u (failure_text env)))
               (emit (FileWritten (uuid d') d')
                  (with_files (insert (uuid d') (FileOk d'))
                     (with_sessions (insert u d') st))) in
  execute_heartbeat cfg env u st =
    (ret tt, if max_failures cfg <=? consecutive_failures d'
             then cleanup_task env u (max_failures_reason cfg) st1 else st1).
Proof.
  intros Hu Hp Hw d' st1. unfold execute_heartbeat, heartbeat_attempt.
  subst st1. unfold failure_text. unfold probe_outcome in *. rewrite Hu.
  destruct (heartbeat (tg_heartbeat env)).1 as [e|[|]]; [|done|];
    unfold _handle_failure, _save_session_file; rewrite Hu, Hw; cbn zeta;
    fold d'; by destruct (max_failures cfg <=? consecutive_failures d').
Qed.

(** C4: for a live task, whatever its failure count, a probe that returns
    true runs the success handler, which sets [consecutive_failures] to 0
    and [last_heartbeat] to the current time in the live index, whatever
    the write then does; and when the write goes through, the heartbeat
    returns normally with the record written to its file, one success
    notification sent to its chat, and nothing else changed. *)
Theorem C4_success_resets_failures (env : Env) (u : string) (d : SessionData)
    (st : SessionManager) :
  sessions st !! u = Some d → probe_outcome env = ret true →
  let d' := set_heartbeat_success (utcnow env) d in
  consecutive_failures d' = 0 ∧
  last_heartbeat d' = Some (utcnow env) ∧
  heartbeat_attempt cfg env u st = _handle_success env 0 u st ∧
  sessions (_handle_success env 0 u st).2 = <[u := d']> (sessions st) ∧
  (write_raises env 0%nat = None →
   ∃ st',
     execute_heartbeat cfg env u st = (ret tt, st') ∧
     sessions st' = <[u := d']> (sessions st) ∧
     files st' = <[uuid d := FileOk d']> (files st) ∧
     log st' = log st ++ [FileWritten (uuid d) d';
                          Notified (send_success (notify_chat_id d) u)] ∧
     tg_id_to_uuid st' = tg_id_to_uuid st ∧
     jobs st' = jobs st).
Proof.
  intros Hu Hp d'. split; [done|]. split; [done|]. split.
  { unfold heartbeat_attempt. unfold probe_outcome in Hp. by rewrite Hp. }
  split.
  { unfold _handle_success, _save_session_file. rewrite Hu. cbn zeta.
    by destruct (write_raises env 0), (write_opens env 0). }
  intros Hw. eexists. split; [by apply execute_heartbeat_success|].
  pose proof (handled_state_fields u d' (send_success (notify_chat_id d) u) st)
    as (Hs & Ht & Hj & Hf & Hl).
  repeat split; done.
Qed.

(** A write that goes through replaces whatever an earlier, failed write
    of the same file has left. *)
Lemma overwritten (k : string) (f f0 : file) (b : bool)
    (g : gmap string SessionData → gmap string SessionData)
    (st : SessionManager) :
  with_files (insert k f)
    (with_sessions g (if b then with_files (insert k f0) st else st))
  = with_files (insert k f) (with_sessions g st).
Proof.
  destruct b; [|done]. unfold with_files, with_sessions. cbn.
  f_equal. apply insert_insert_eq.
Qed.


Lemma cleanups_for_handled (u : string) (l : list event) (stem : string)
    (d : SessionData) (n : notification) :
  (∀ chat task reason, n ≠ send_cleanup chat task reason) →
  cleanups_for u (l ++ [FileWritten stem d; Notified n]) = cleanups_for u l.
Proof.
  intros Hn. rewrite cleanups_for_app. unfold cleanups_for at 2. simpl.
  destruct n; simpl; try lia. by destruct (Hn chat_id task reason).
Qed.

(** C2: with [max_failures = 3], a live task with a clean counter (stored
    under its own uuid, as every reachable state has it) whose probe fails
    at three executions in a row (by a false result or by an exception, the
    write of each handler going through) counts 1, then 2, and at the third
    failure is taken out of the live index, its job cancelled, with exactly
    one cleanup notification sent for it, and its file deleted (the file
    stays only if the unlink raises). When instead the third probe
    succeeds, the task stays live with its counter at 0, its file in place
    and no cleanup notification. *)
Theorem C2_threshold_cleanup (e1 e2 e3 : Env) (u : string) (d : SessionData)
    (st : SessionManager) :
  max_failures cfg = 3 →
  sessions st !! u = Some d → uuid d = u → consecutive_failures d = 0 →
  probe_outcome e1 ≠ ret true → write_raises e1 0%nat = None →
  probe_outcome e2 ≠ ret true → write_raises e2 0%nat = None →
  write_raises e3 0%nat = None →
  let st1 := (execute_heartbeat cfg e1 u st).2 in
  let st2 := (execute_heartbeat cfg e2 u st1).2 in
  let r3 := execute_heartbeat cfg e3 u st2 in
  consecutive_failures <$> sessions st1 !! u = Some 1 ∧
  consecutive_failures <$> sessions st2 !! u = Some 2 ∧
  cleanups_for u (log st2) = cleanups_for u (log st) ∧
  r3.1 = ret tt ∧
  (probe_outcome e3 ≠ ret true →
     sessions r3.2 !! u = None ∧
     jobs r3.2 !! u = None ∧
     cleanups_for u (log r3.2) = S (cleanups_for u (log st)) ∧
     files r3.2 !! u =
       if unlink_raises e3 u
       then Some (FileOk (incr_failures (incr_failures (incr_failures d))))
       else None) ∧
  (probe_outcome e3 = ret true →
     consecutive_failures <$> sessions r3.2 !! u = Some 0 ∧
     is_Some (files r3.2 !! u) ∧
     cleanups_for u (log r3.2) = cleanups_for u (log st)).
Proof.
  intros Hmax Hu Hkey Hcf Hp1 Hw1 Hp2 Hw2 Hw3 st1 st2 r3.
  (* first failure *)
  pose proof (execute_heartbeat_failure e1 u d st Hu Hp1 Hw1) as E1.
  cbn zeta in E1. rewrite Hmax in E1.
  assert (consecutive_failures (incr_failures d) = 1) as Hc1 by (cbn; lia).
  rewrite Hc1 in E1. change (3 <=? 1) with false in E1. cbn iota in E1.
  pose proof (handled_state_fields u (incr_failures d)
    (send_failure (notify_chat_id (incr_failures d)) u (failure_text e1)) st)
    as (Hs1 & _ & Hj1 & Hf1 & Hl1).
  assert (sessions st1 !! u = Some (incr_failures d)) as Hu1.
  { subst st1. rewrite E1. cbn [snd]. rewrite Hs1. apply lookup_insert_eq. }
  assert (cleanups_for u (log st1) = cleanups_for u (log st)) as Hn1.
  { subst st1. rewrite E1. cbn [snd]. rewrite Hl1.
    apply cleanups_for_handled. discriminate. }
  (* second failure *)
  pose proof (execute_heartbeat_failure e2 u _ st1 Hu1 Hp2 Hw2) as E2.
  cbn zeta in E2. rewrite Hmax in E2.
  assert (consecutive_failures (incr_failures (incr_failures d)) = 2) as Hc2
    by (cbn; lia).
  rewrite Hc2 in E2. change (3 <=? 2) with false in E2. cbn iota in E2.
  pose proof (handled_state_fields u (incr_failures (incr_failures d))
    (send_failure (notify_chat_id (incr_failures (incr_failures d))) u
       (failure_text e2)) st1) as (Hs2 & _ & Hj2 & Hf2 & Hl2).
  assert (sessions st2 !! u = Some (incr_failures (incr_failures d))) as Hu2.
  { subst st2. rewrite E2. cbn [snd]. rewrite Hs2. apply lookup_insert_eq. }
  assert (cleanups_for u (log st2) = cleanups_for u (log st)) as Hn2.
  { subst st2. rewrite E2. cbn [snd]. rewrite Hl2, <- Hn1.
    apply cleanups_for_handled. discriminate. }
  split; [by rewrite Hu1, <- Hc1|]. split; [by rewrite Hu2, <- Hc2|].
  split; [exact Hn2|].
  (* third execution *)
  assert (probe_outcome e3 = ret true ∨ probe_outcome e3 ≠ ret true) as [Hp3|Hp3].
  { destruct (probe_outcome e3) as [e|[|]];
      [right; discriminate | by left | right; discriminate]. }
  - pose proof (execute_heartbeat_success e3 u _ st2 Hu2 Hp3 Hw3) as E3.
    cbn zeta in E3.
    pose proof (handled_state_fields u
      (set_heartbeat_success (utcnow e3) (incr_failures (incr_failures d)))
      (send_success (notify_chat_id
         (set_heartbeat_success (utcnow e3) (incr_failures (incr_failures d)))) u)
      st2) as (Hs3 & _ & Hj3 & Hf3 & Hl3).
    subst r3. rewrite E3. cbn [fst snd].
    split; [done|]. split; [done|]. intros _.
    rewrite Hs3, Hf3, Hl3, lookup_insert_eq. split; [done|]. split.
    + cbn [uuid set_heartbeat_success incr_failures]. rewrite Hkey.
      rewrite lookup_insert_eq. eauto.
    + rewrite <- Hn2. apply cleanups_for_handled. discriminate.
  - pose proof (execute_heartbeat_failure e3 u _ st2 Hu2 Hp3 Hw3) as E3.
    cbn zeta in E3. rewrite Hmax in E3.
    assert (consecutive_failures
              (incr_failures (incr_failures (incr_failures d))) = 3) as Hc3
      by (cbn; lia).
    rewrite Hc3 in E3. change (3 <=? 3) with true in E3. cbn iota in E3.
    set (d3 := incr_failures (incr_failures (incr_failures d))) in *.
    pose proof (handled_state_fields u d3
      (send_failure (notify_chat_id d3) u (failure_text e3)) st2)
      as (Hs3 & _ & Hj3 & Hf3 & Hl3).
    set (st3 := emit (Notified (send_failure (notify_chat_id d3) u (failure_text e3)))
                  (emit (FileWritten (uuid d3) d3)
                     (with_files (insert (uuid d3) (FileOk d3))
                        (with_sessions (insert u d3) st2)))) in *.
    assert (sessions st3 !! u = Some d3) as Hu3
      by (rewrite Hs3; apply lookup_insert_eq).
    destruct (cleanup_task_live e3 u (max_failures_reason cfg) st3 d3 Hu3)
      as (Hcs & _ & Hcj & Hcfile & Hcl).
    subst r3. rewrite E3. cbn [fst snd].
    split; [done|]. split; [|done]. intros _.
    assert (files st3 !! u = Some (FileOk d3)) as Hfile.
    { rewrite Hf3. subst d3. cbn [uuid incr_failures]. rewrite Hkey.
      apply lookup_insert_eq. }
    unfold remove_file in Hcfile, Hcl. cbn [files emit] in Hcl.
    rewrite Hfile in Hcfile, Hcl.
    rewrite Hcs, Hcfile, Hcj, Hcl, !lookup_delete_eq.
    split; [done|]. split; [done|].
    destruct (unlink_raises e3 u); cbn [log emit files with_files]; split.
    + rewrite cleanups_for_app, cleanups_for_cleanup, Hl3,
        cleanups_for_handled, Hn2 by discriminate. lia.
    + exact Hfile.
    + rewrite !cleanups_for_app, cleanups_for_cleanup, Hl3,
        cleanups_for_handled, Hn2 by discriminate.
      unfold cleanups_for at 2. simpl. lia.
    + apply lookup_delete_eq.
Qed.

(** *** The uniqueness invariant is preserved by every operation *)

Lemma invariant_same_indices (st st' : SessionManager) :
  sessions st' = sessions st → tg_id_to_uuid st' = tg_id_to_uuid st →
  one_task_per_account st → one_task_per_account st'.
Proof. intros Hs Ht [H1 H2 H3]. split; rewrite ?Hs, ?Ht; assumption. Qed.



Lemma invariant_register (d : SessionData) (st : SessionManager) :
  sessions st !! uuid d = None → tg_id_to_uuid st !! tg_id d = None →
  one_task_per_account st → one_task_per_account (register d st).
Proof.
  intros Hu Htg [H1 H2 H3]. split; cbn.
  - intros u1 u2 d1 d2 Hne Hd1 Hd2 Heq.
    apply lookup_insert_Some in Hd1 as [[<- <-]|[Hn1 Hd1]];
      apply lookup_insert_Some in Hd2 as [[<- <-]|[Hn2 Hd2]]; try done.
    + apply H2 in Hd2. congruence.
    + apply H2 in Hd1. congruence.
    + exact (H1 _ _ _ _ Hne Hd1 Hd2 Heq).
  - intros v e [[<- <-]|[Hne Hv]]%lookup_insert_Some.
    + apply lookup_insert_eq.
    + rewrite lookup_insert_ne; [by apply H2|].
      intros Heq. apply H2 in Hv. congruence.
  - intros tg v [[<- <-]|[Hne Hv]]%lookup_insert_Some.
    + exists d. by rewrite lookup_insert_eq.
    + destruct (H3 tg v Hv) as (e & He & <-). exists e. split; [|done].
      rewrite lookup_insert_ne; [done|]. intros <-. congruence.
Qed.


Lemma schedule_next_indices (env : Env) (u : string) (st : SessionManager) :
  sessions (schedule_next cfg env u st).2 = sessions st ∧
  tg_id_to_uuid (schedule_next cfg env u st).2 = tg_id_to_uuid st.
Proof.
  unfold schedule_next. by destruct (_calculate_next_interval _ _).
Qed.

Lemma start_heartbeat_indices (env : Env) (u : string) (st : SessionManager) :
  sessions (start_heartbeat cfg env u st).2 = sessions st ∧
  tg_id_to_uuid (start_heartbeat cfg env u st).2 = tg_id_to_uuid st.
Proof.
  unfold start_heartbeat. destruct (sessions st !! u); [|done].
  apply schedule_next_indices.
Qed.

Lemma save_indices (env : Env) (n : nat) (d : SessionData) (st : SessionManager) :
  sessions (_save_session_file env n d st).2 = sessions st ∧
  tg_id_to_uuid (_save_session_file env n d st).2 = tg_id_to_uuid st.
Proof. unfold _save_session_file. by destruct (write_raises env n), (write_opens env n). Qed.






End ManagerFacts.

(** *** Ordered dicts, groups and the selection of [initialize] *)

Section DictFacts.
Context {K V : Type} `{EqDecision K}.
Implicit Types (d : list (K * V)) (k : K) (v : V).

Lemma dict_get_set_eq k v d : dict_get k (dict_set k v d) = Some v.
Proof.
  induction d as [|[k' v'] d IH]; simpl.
  - by rewrite decide_True.
  - destruct (decide (k' = k)) as [->|Hne]; simpl.
    + by rewrite decide_True.
    + by rewrite decide_False.
Qed.

Lemma dict_get_set_ne k k' v d :
  k ≠ k' → dict_get k' (dict_set k v d) = dict_get k' d.
Proof.
  intros Hne. induction d as [|[k0 v0] d IH]; simpl.
  - by rewrite decide_False.
  - destruct (decide (k0 = k)) as [->|Hne0]; simpl.
    + by rewrite !decide_False.
    + by rewrite IH.
Qed.

Lemma dict_set_keys k v d :
  (dict_set k v d).*1 =
    match dict_get k d with Some _ => d.*1 | None => d.*1 ++ [k] end.
Proof.
  induction d as [|[k' v'] d IH]; [done|].
  cbn [dict_set dict_get].
  destruct (decide (k' = k)) as [->|Hne]; [done|].
  rewrite !fmap_cons, IH. by destruct (dict_get k d).
Qed.

Lemma dict_get_None k d : dict_get k d = None ↔ k ∉ d.*1.
Proof.
  induction d as [|[k' v'] d IH]; simpl.
  - split; [intros _; apply not_elem_of_nil | done].
  - rewrite not_elem_of_cons. destruct (decide (k' = k)) as [->|Hne].
    + split; [done | by intros [? _]].
    + rewrite IH. split; [by intros ? | by intros [_ ?]].
Qed.

Lemma dict_set_NoDup k v d : NoDup d.*1 → NoDup (dict_set k v d).*1.
Proof.
  intros Hd. rewrite dict_set_keys.
  destruct (dict_get k d) eqn:Hk; [done|].
  apply NoDup_app. split; [done|]. split; [|apply NoDup_singleton].
  intros x Hx ->%list_elem_of_singleton. by apply dict_get_None in Hk.
Qed.

Lemma dict_get_elem_of k v d : dict_get k d = Some v → (k, v) ∈ d.
Proof.
  induction d as [|[k' v'] d IH]; simpl; [done|].
  destruct (decide (k' = k)) as [->|Hne].
  - intros [= ->]. apply list_elem_of_here.
  - intros H. apply list_elem_of_further. by apply IH.
Qed.

Lemma elem_of_dict_get k v d : NoDup d.*1 → (k, v) ∈ d → dict_get k d = Some v.
Proof.
  induction d as [|[k' v'] d IH]; simpl; [by intros _ ?%elem_of_nil|].
  intros [Hk' Hd]%NoDup_cons [[= -> ->]|Hin]%elem_of_cons.
  - by rewrite decide_True.
  - rewrite decide_False; [by apply IH|].
    intros ->. apply Hk'. apply list_elem_of_fmap. by exists (k, v).
Qed.

Lemma dict_set_elem_of k v k' v' d :
  (k', v') ∈ dict_set k v d → (k' = k ∧ v' = v) ∨ (k', v') ∈ d.
Proof.
  induction d as [|[k0 v0] d IH]; simpl.
  - intros [= -> ->]%list_elem_of_singleton. by left.
  - destruct (decide (k0 = k)) as [->|Hne].
    + intros [[= -> ->]|Hin]%elem_of_cons; [by left|].
      right. by apply list_elem_of_further.
    + intros [[= -> ->]|Hin]%elem_of_cons.
      * right. apply list_elem_of_here.
      * destruct (IH Hin) as [?|?]; [by left|].
        right. by apply list_elem_of_further.
Qed.

End DictFacts.

Lemma py_max_by_spec {A} (key : A → Z) (l : list A) (best : A) :
  py_max_by key l = Some best →
  best ∈ l ∧ ∀ y, y ∈ l → key y ≤ key best.
Proof.
  destruct l as [|x l]; [done|]. simpl. intros [= <-].
  revert x. induction l as [|z l IH]; intros x; simpl.
  - split; [apply list_elem_of_here|].
    intros y ->%list_elem_of_singleton. lia.
  - destruct (IH (if key x <? key z then z else x)) as [Hin Hmax].
    split.
    + apply elem_of_cons in Hin as [->|Hin].
      * destruct (key x <? key z); [apply list_elem_of_further|]; apply list_elem_of_here.
      * by do 2 apply list_elem_of_further.
    + intros y [->|[->|Hy]%elem_of_cons]%elem_of_cons.
      * etrans; [|apply Hmax, list_elem_of_here].
        destruct (Z.ltb_spec (key x) (key z)); lia.
      * etrans; [|apply Hmax, list_elem_of_here].
        destruct (Z.ltb_spec (key x) (key z)); lia.
      * by apply Hmax, list_elem_of_further.
Qed.

Lemma winner_spec (uuid_list : list (string * Z)) (w : string) :
  winner uuid_list = Some w →
  ∃ c, (w, c) ∈ uuid_list ∧ ∀ u c', (u, c') ∈ uuid_list → c' ≤ c.
Proof.
  unfold winner. destruct (py_max_by snd uuid_list) as [[w' c]|] eqn:Hmax; [|done].
  intros [= <-]. apply py_max_by_spec in Hmax as [Hin Hle].
  exists c. split; [done|]. intros u c' Hu. by apply (Hle (u, c')).
Qed.

Lemma winner_is_Some (uuid_list : list (string * Z)) :
  uuid_list ≠ [] → is_Some (winner uuid_list).
Proof. destruct uuid_list; [done|]. intros _. unfold winner. simpl. eauto. Qed.

Lemma members_app (tg : Z) (l1 l2 : list (string * SessionData)) :
  members tg (l1 ++ l2) = members tg l1 ++ members tg l2.
Proof. apply omap_app. Qed.

Lemma members_snoc (tg : Z) (l : list (string * SessionData)) (u : string)
    (d : SessionData) :
  members tg (l ++ [(u, d)]) =
    members tg l ++ (if decide (tg_id d = tg) then [(u, created_at d)] else []).
Proof.
  rewrite members_app. f_equal. unfold members. simpl.
  by destruct (decide (tg_id d = tg)).
Qed.

Lemma elem_of_members (tg : Z) (all_sessions : list (string * SessionData))
    (u : string) (c : Z) :
  (u, c) ∈ members tg all_sessions ↔
  ∃ d, (u, d) ∈ all_sessions ∧ tg_id d = tg ∧ created_at d = c.
Proof.
  unfold members. rewrite list_elem_of_omap. split.
  - intros ([u' d] & Hin & Hsome). simpl in Hsome.
    destruct (decide (tg_id d = tg)); [|done]. injection Hsome as -> <-. eauto.
  - intros (d & Hin & Htg & Hc). exists (u, d). split; [done|]. simpl.
    rewrite decide_True by done. by rewrite Hc.
Qed.

(** Phase 2 computes, for each account, the group [members] describes. *)
Lemma group_by_tg_id_spec (all_sessions : list (string * SessionData)) :
  let groups := group_by_tg_id all_sessions in
  NoDup groups.*1 ∧
  ∀ tg, dict_get tg groups =
        match members tg all_sessions with [] => None | l => Some l end.
Proof.
  unfold group_by_tg_id.
  assert (∀ rest done_ groups,
    (NoDup groups.*1 ∧
     ∀ tg, dict_get tg groups = match members tg done_ with [] => None | l => Some l end) →
    NoDup (foldl group_step groups rest).*1 ∧
    ∀ tg, dict_get tg (foldl group_step groups rest) =
          match members tg (done_ ++ rest) with [] => None | l => Some l end) as Hgen.
  { induction rest as [|[u d] rest IH]; intros done_ groups [Hnd Hget].
    - by rewrite app_nil_r.
    - simpl. replace (done_ ++ (u, d) :: rest) with ((done_ ++ [(u, d)]) ++ rest)
        by by rewrite <- app_assoc.
      apply IH. unfold group_step. cbn [fst snd].
      set (g1 := match dict_get (tg_id d) groups with
                 | None => dict_set (tg_id d) [] groups | Some _ => groups end).
      assert (NoDup g1.*1) as Hnd1.
      { subst g1. destruct (dict_get (tg_id d) groups); [done|].
        by apply dict_set_NoDup. }
      assert (default [] (dict_get (tg_id d) g1) = members (tg_id d) done_) as Hdef.
      { subst g1. destruct (dict_get (tg_id d) groups) as [l|] eqn:Hl.
        - rewrite Hl. rewrite Hget in Hl.
          destruct (members (tg_id d) done_); [done | by injection Hl as <-].
        - rewrite dict_get_set_eq. rewrite Hget in Hl.
          by destruct (members (tg_id d) done_). }
      assert (∀ tg, tg ≠ tg_id d → dict_get tg g1 = dict_get tg groups) as Hother.
      { intros tg Hne. subst g1. destruct (dict_get (tg_id d) groups); [done|].
        by apply dict_get_set_ne. }
      split; [by apply dict_set_NoDup|].
      intros tg. rewrite members_snoc. destruct (decide (tg = tg_id d)) as [->|Hne].
      + rewrite dict_get_set_eq, Hdef, decide_True by done.
        by destruct (members (tg_id d) done_).
      + rewrite dict_get_set_ne, Hother, Hget, decide_False by done.
        by rewrite app_nil_r. }
  apply (Hgen all_sessions [] []). split; [apply NoDup_nil_2 | done].
Qed.

(** Phase 3, one group: the winner is kept, the other members are marked. *)
Lemma select_step_spec (acc : gset string * gset string) (tg : Z)
    (uuid_list : list (string * Z)) :
  select_step acc (tg, uuid_list) =
    match winner uuid_list with
    | None => acc
    | Some w => (acc.1 ∪ {[w]},
                 acc.2 ∪ list_to_set (filter (λ u, u ≠ w) uuid_list.*1))
    end.
Proof.
  unfold select_step, winner. cbn [snd].
  destruct uuid_list as [|x [|y l]].
  - done.
  - cbn. rewrite decide_False by (intros H; by apply H).
    cbn. by rewrite (right_id_L ∅ (∪)).
  - by destruct (py_max_by snd (x :: y :: l)).
Qed.

Lemma select_keep (groups : list (Z * list (string * Z)))
    (acc : gset string * gset string) (u : string) :
  u ∈ (foldl select_step acc groups).1 ↔
  u ∈ acc.1 ∨ ∃ tg l, (tg, l) ∈ groups ∧ winner l = Some u.
Proof.
  revert acc. induction groups as [|[tg l] groups IH]; intros acc; simpl.
  - split; [by left|]. intros [?|(? & ? & ?%elem_of_nil & _)]; done.
  - rewrite IH, select_step_spec. split.
    + intros [Hacc|(tg' & l' & Hin & Hw)].
      * destruct (winner l) as [w|] eqn:Hw; [|by left].
        cbn in Hacc. apply elem_of_union in Hacc as [?| ->%elem_of_singleton];
          [by left|]. right. exists tg, l. split; [apply list_elem_of_here | done].
      * right. exists tg', l'. split; [by apply list_elem_of_further | done].
    + intros [Hacc|(tg' & l' & [[= -> ->]|Hin]%elem_of_cons & Hw)].
      * left. destruct (winner l); [|done]. cbn. apply elem_of_union. by left.
      * left. rewrite Hw. cbn. apply elem_of_union. right. by apply elem_of_singleton.
      * right. eauto.
Qed.

Lemma select_delete (groups : list (Z * list (string * Z)))
    (acc : gset string * gset string) (u : string) :
  u ∈ (foldl select_step acc groups).2 ↔
  u ∈ acc.2 ∨ ∃ tg l w, (tg, l) ∈ groups ∧ winner l = Some w ∧ u ∈ l.*1 ∧ u ≠ w.
Proof.
  revert acc. induction groups as [|[tg l] groups IH]; intros acc; simpl.
  - split; [by left|]. intros [?|(? & ? & ? & ?%elem_of_nil & _)]; done.
  - rewrite IH, select_step_spec. split.
    + intros [Hacc|(tg' & l' & w & Hin & Hw)].
      * destruct (winner l) as [w|] eqn:Hw; [|by left].
        cbn in Hacc. apply elem_of_union in Hacc as [?|Hin]; [by left|].
        apply elem_of_list_to_set, list_elem_of_filter in Hin as [Hne Hin].
        right. exists tg, l, w. split; [apply list_elem_of_here | done].
      * right. exists tg', l', w. split; [by apply list_elem_of_further | done].
    + intros [Hacc|(tg' & l' & w & [[= -> ->]|Hin]%elem_of_cons & Hw & Hu & Hne)].
      * left. destruct (winner l); [|done]. cbn. apply elem_of_union. by left.
      * left. rewrite Hw. cbn. apply elem_of_union. right.
        by apply elem_of_list_to_set, list_elem_of_filter.
      * right. exists tg', l', w. eauto.
Qed.

Section Selection.
Variable all_sessions : list (string * SessionData).
Hypothesis all_NoDup : NoDup all_sessions.*1.

Lemma group_elem_of (tg : Z) (l : list (string * Z)) :
  (tg, l) ∈ group_by_tg_id all_sessions ↔
  l = members tg all_sessions ∧ l ≠ [].
Proof.
  destruct (group_by_tg_id_spec all_sessions) as [Hnd Hget]. split.
  - intros Hin%(elem_of_dict_get _ _ _ Hnd). rewrite Hget in Hin.
    destruct (members tg all_sessions) eqn:Hm; [done|]. by injection Hin as <-.
  - intros [-> Hne]. apply dict_get_elem_of. rewrite Hget.
    by destruct (members tg all_sessions).
Qed.

Lemma member_of_own_group (u : string) (d : SessionData) :
  dict_get u all_sessions = Some d →
  (u, created_at d) ∈ members (tg_id d) all_sessions.
Proof.
  intros Hd%dict_get_elem_of. apply elem_of_members. by exists d.
Qed.

Lemma member_record (tg : Z) (u : string) (c : Z) :
  (u, c) ∈ members tg all_sessions →
  ∃ d, dict_get u all_sessions = Some d ∧ tg_id d = tg ∧ created_at d = c.
Proof.
  intros (d & Hin & Htg & Hc)%elem_of_members. exists d.
  split; [by apply elem_of_dict_get | done].
Qed.

(** The tasks to keep: the winner of each group. *)
Lemma keep_spec (u : string) :
  u ∈ (select (group_by_tg_id all_sessions)).1 ↔
  ∃ d, dict_get u all_sessions = Some d ∧
       winner (members (tg_id d) all_sessions) = Some u.
Proof.
  unfold select. rewrite select_keep. cbn. split.
  - intros [?%not_elem_of_empty|(tg & l & [-> Hne]%group_elem_of & Hw)]; [done|].
    destruct (winner_spec _ _ Hw) as (c & Hin & _).
    destruct (member_record _ _ _ Hin) as (d & Hd & <- & _). eauto.
  - intros (d & Hd & Hw). right. exists (tg_id d), (members (tg_id d) all_sessions).
    split; [|done]. apply group_elem_of. split; [done|].
    intros Hnil. apply member_of_own_group in Hd. rewrite Hnil in Hd.
    by apply elem_of_nil in Hd.
Qed.

(** The tasks to delete: the members of a group that did not win. *)
Lemma delete_spec (u : string) :
  u ∈ (select (group_by_tg_id all_sessions)).2 ↔
  ∃ d w, dict_get u all_sessions = Some d ∧
         winner (members (tg_id d) all_sessions) = Some w ∧ u ≠ w.
Proof.
  unfold select. rewrite select_delete. cbn. split.
  - intros [?%not_elem_of_empty|(tg & l & w & [-> Hne]%group_elem_of & Hw & Hu & Hnw)];
      [done|].
    apply list_elem_of_fmap in Hu as ([u' c] & -> & Hin). cbn in *.
    destruct (member_record _ _ _ Hin) as (d & Hd & <- & _). eauto.
  - intros (d & w & Hd & Hw & Hne). right.
    exists (tg_id d), (members (tg_id d) all_sessions), w.
    pose proof (member_of_own_group _ _ Hd) as Hin.
    split; [|split; [done|split; [|done]]].
    + apply group_elem_of. split; [done|]. intros Hnil. rewrite Hnil in Hin.
      by apply elem_of_nil in Hin.
    + apply list_elem_of_fmap. by exists (u, created_at d).
Qed.

Lemma own_group_has_winner (u : string) (d : SessionData) :
  dict_get u all_sessions = Some d →
  ∃ w, winner (members (tg_id d) all_sessions) = Some w.
Proof.
  intros Hin%member_of_own_group. apply winner_is_Some.
  intros Hnil. rewrite Hnil in Hin. by apply elem_of_nil in Hin.
Qed.

(** Two kept tasks of one account are the same task. *)
Lemma keep_one_per_account (u1 u2 : string) (d1 d2 : SessionData) :
  u1 ∈ (select (group_by_tg_id all_sessions)).1 → u2 ∈ (select (group_by_tg_id all_sessions)).1 →
  dict_get u1 all_sessions = Some d1 → dict_get u2 all_sessions = Some d2 →
  tg_id d1 = tg_id d2 → u1 = u2.
Proof.
  intros (e1 & He1 & Hw1)%keep_spec (e2 & He2 & Hw2)%keep_spec Hd1 Hd2 Htg.
  assert (e1 = d1) as -> by congruence. assert (e2 = d2) as -> by congruence.
  rewrite Htg in Hw1. congruence.
Qed.

End Selection.

(** *** [initialize] and the invariant *)

Section InitializeFacts.
Variable cfg : Config.

(** Phase 1 yields a dict keyed by the uuid of each record. *)
Lemma load_all_keyed (listing : list string) (st : SessionManager) :
  let all_sessions := (load_all listing st).1 in
  NoDup all_sessions.*1 ∧ ∀ u d, (u, d) ∈ all_sessions → uuid d = u.
Proof.
  unfold load_all.
  assert (∀ acc : list (string * SessionData) * nat,
    (NoDup acc.1.*1 ∧ ∀ u d, (u, d) ∈ acc.1 → uuid d = u) →
    let r := foldl (λ '(all_sessions, error_count) stem,
                      match _load_session_file stem st with
                      | inr session_data =>
                          (dict_set (uuid session_data) session_data all_sessions,
                           error_count)
                      | inl _ => (all_sessions, S error_count)
                      end) acc listing in
    NoDup r.1.*1 ∧ ∀ u d, (u, d) ∈ r.1 → uuid d = u) as Hgen.
  { induction listing as [|stem listing IH]; intros [all0 n0] Hacc; [done|].
    simpl. apply IH. destruct (_load_session_file stem st) as [e|d0]; [done|].
    cbn [fst] in *. destruct Hacc as [Hnd Hkey]. split.
    - by apply dict_set_NoDup.
    - intros u d [[-> ->]|Hin]%dict_set_elem_of; [done | by apply Hkey]. }
  apply Hgen. cbn. split; [apply NoDup_nil_2|]. by intros u d ?%elem_of_nil.
Qed.

(** The first loop of phase 4 keeps the invariant at every iteration,
    whether or not it runs to its end. *)
Lemma invariant_load_kept (env : Env) (all_sessions : list (string * SessionData))
    (keep : list string) (st : SessionManager) :
  NoDup keep →
  (∀ u d, dict_get u all_sessions = Some d → uuid d = u) →
  (∀ u1 u2 d1 d2, u1 ∈ keep → u2 ∈ keep →
     dict_get u1 all_sessions = Some d1 → dict_get u2 all_sessions = Some d2 →
     tg_id d1 = tg_id d2 → u1 = u2) →
  (∀ u, u ∈ keep → sessions st !! u = None) →
  (∀ u d, u ∈ keep → dict_get u all_sessions = Some d →
          tg_id_to_uuid st !! tg_id d = None) →
  one_task_per_account st →
  one_task_per_account (load_kept cfg env all_sessions keep st).2.
Proof.
  intros Hnd Hkey. revert st Hnd.
  induction keep as [|u keep IH]; intros st Hnd Hone Hfresh Hfree Hinv; [done|].
  apply NoDup_cons in Hnd as [Hu Hnd]. simpl.
  destruct (dict_get u all_sessions) as [d|] eqn:Hd; [|done].
  pose proof (Hkey u d Hd) as Hud.
  assert (one_task_per_account (register d st)) as Hinv1.
  { apply invariant_register; [|by eapply Hfree; [apply list_elem_of_here|]|done].
    rewrite Hud. apply Hfresh, list_elem_of_here. }
  destruct (start_heartbeat_indices cfg env (uuid d) (register d st)) as (Hs & Ht).
  destruct (start_heartbeat cfg env (uuid d) (register d st)) as [[e|[]] st2];
    cbn [snd] in *.
  - by apply (invariant_same_indices (register d st)).
  - apply IH; [done| | | |by apply (invariant_same_indices (register d st))].
    + intros u1 u2 d1 d2 H1 H2. apply Hone; by apply list_elem_of_further.
    + intros v Hv. rewrite Hs. cbn. rewrite Hud, lookup_insert_ne.
      * by apply Hfresh, list_elem_of_further.
      * intros <-. done.
    + intros v e Hv He. rewrite Ht. cbn. rewrite lookup_insert_ne.
      * eapply Hfree; [by apply list_elem_of_further | done].
      * intros Htg. apply Hu.
        rewrite (Hone u v d e); [done|apply list_elem_of_here|
                                 by apply list_elem_of_further|done|done|done].
Qed.

Lemma discard_indices (env : Env) (all_sessions : list (string * SessionData))
    (del : list string) (st : SessionManager) :
  sessions (discard env all_sessions del st).2 = sessions st ∧
  tg_id_to_uuid (discard env all_sessions del st).2 = tg_id_to_uuid st ∧
  jobs (discard env all_sessions del st).2 = jobs st.
Proof.
  revert st. induction del as [|u del IH]; intros st; [done|]. simpl.
  destruct (dict_get u all_sessions) as [d|]; [|done].
  destruct (IH (remove_file env u
                  (emit (Notified (send_cleanup (notify_chat_id d) u replaced_reason)) st)))
    as (-> & -> & ->).
  unfold remove_file. cbn. destruct (unlink_raises env u); [done|].
  by destruct (files st !! u).
Qed.

Lemma in_rank_order_Permutation (rank : string → nat) (l : list string) :
  in_rank_order rank l ≡ₚ l.
Proof. apply merge_sort_Permutation. Qed.

Lemma iterate_NoDup (env : Env) (s : gset string) : NoDup (iterate env s).
Proof.
  unfold iterate. rewrite in_rank_order_Permutation. apply NoDup_elements.
Qed.

Lemma iterate_elem_of (env : Env) (s : gset string) (u : string) :
  u ∈ iterate env s ↔ u ∈ s.
Proof.
  unfold iterate. rewrite in_rank_order_Permutation. apply elem_of_elements.
Qed.

Lemma glob_elem_of (env : Env) (st : SessionManager) (stem : string) :
  stem ∈ glob env st ↔ is_Some (files st !! stem).
Proof.
  unfold glob. rewrite in_rank_order_Permutation, elem_of_elements.
  apply elem_of_dom.
Qed.

Lemma empty_index (st : SessionManager) :
  one_task_per_account st → sessions st = ∅ →
  ∀ tg, tg_id_to_uuid st !! tg = None.
Proof.
  intros Hinv Hs tg. destruct (tg_id_to_uuid st !! tg) as [u|] eqn:Hidx; [|done].
  destruct (index_is_live st Hinv tg u Hidx) as (d & Hd & _).
  by rewrite Hs, lookup_empty in Hd.
Qed.

(** The states [initialize] goes through while loading the kept tasks, started on an
    empty live index. *)
Lemma invariant_loading (env : Env) (st : SessionManager) (k : nat) :
  sessions st = ∅ → one_task_per_account st →
  let all_sessions := (load_all (glob env st) st).1 in
  let keep := (select (group_by_tg_id all_sessions)).1 in
  one_task_per_account
    (load_kept cfg env all_sessions (take k (iterate env keep)) st).2.
Proof.
  intros Hempty Hinv all_sessions keep.
  destruct (load_all_keyed (glob env st) st) as [Hnd Hkey]. fold all_sessions in Hnd, Hkey.
  assert (∀ u, u ∈ take k (iterate env keep) → u ∈ keep) as Hsub.
  { intros u Hu%subseteq_take. by apply iterate_elem_of in Hu. }
  apply invariant_load_kept; [| | | | |done].
  - eapply sublist_NoDup; [|apply sublist_take].
    apply iterate_NoDup.
  - intros u d Hd%dict_get_elem_of. by apply Hkey.
  - intros u1 u2 d1 d2 H1%Hsub H2%Hsub. by apply keep_one_per_account.
  - intros u _. by rewrite Hempty, lookup_empty.
  - intros u d _ _. by apply empty_index.
Qed.

Lemma invariant_initialize (env : Env) (st : SessionManager) :
  sessions st = ∅ → one_task_per_account st →
  one_task_per_account (initialize cfg env st).2.
Proof.
  intros Hempty Hinv. unfold initialize.
  set (all_sessions := (load_all (glob env st) st).1).
  set (selected := select (group_by_tg_id all_sessions)).
  pose proof (invariant_loading env st
                (length (iterate env selected.1)) Hempty Hinv) as Hadm.
  cbn zeta in Hadm. fold all_sessions selected in Hadm.
  rewrite take_ge in Hadm by done.
  destruct (load_kept cfg env all_sessions (iterate env selected.1) st)
    as [[e|[]] st1]; [done|]. cbn [snd] in Hadm.
  destruct (discard_indices env all_sessions (iterate env selected.2) st1)
    as (Hs & Ht & _).
  by apply (invariant_same_indices st1).
Qed.


End InitializeFacts.

(** *** Startup reconciliation *)

Section ReconciliationFacts.
Variable cfg : Config.

(** On a well-named directory, phase 1 loads exactly the readable files
    that [glob] lists. *)
Lemma load_all_persisted (listing : list string) (st : SessionManager) :
  well_named (files st) →
  ∀ u d, dict_get u (load_all listing st).1 = Some d ↔
         u ∈ listing ∧ files st !! u = Some (FileOk d).
Proof.
  intros Hnamed. unfold load_all.
  assert (∀ (acc : list (string * SessionData) * nat) (seen : list string),
    (∀ u d, dict_get u acc.1 = Some d ↔ u ∈ seen ∧ files st !! u = Some (FileOk d)) →
    let r := foldl (λ '(all_sessions, error_count) stem,
                      match _load_session_file stem st with
                      | inr session_data =>
                          (dict_set (uuid session_data) session_data all_sessions,
                           error_count)
                      | inl _ => (all_sessions, S error_count)
                      end) acc listing in
    ∀ u d, dict_get u r.1 = Some d ↔
           u ∈ seen ++ listing ∧ files st !! u = Some (FileOk d)) as Hgen.
  { induction listing as [|stem listing IH]; intros [all0 n0] seen Hacc.
    - cbn zeta. cbn [foldl]. by rewrite app_nil_r.
    - cbn zeta. cbn [foldl].
      replace (seen ++ stem :: listing) with ((seen ++ [stem]) ++ listing)
        by by rewrite <- app_assoc.
      apply IH. cbn [fst] in *. intros u d.
      rewrite elem_of_app, list_elem_of_singleton.
      unfold _load_session_file.
      destruct (files st !! stem) as [[d0|]|] eqn:Hstem; cbn [fst].
      + pose proof (Hnamed stem d0 Hstem) as Hd0. rewrite Hd0.
        destruct (decide (stem = u)) as [->|Hne].
        * rewrite dict_get_set_eq, Hstem. split; [intros [= ->]; auto | by intros [_ [= ->]]].
        * rewrite dict_get_set_ne, Hacc by done.
          split; [intros [? ?]; auto | by intros [[?|?] ?]].
      + rewrite Hacc. split; [intros [? ?]; auto|].
        intros [[?| ->] Hf]; [done | congruence].
      + rewrite Hacc. split; [intros [? ?]; auto|].
        intros [[?| ->] Hf]; [done | congruence]. }
  intros u d. apply (Hgen ([], 0%nat) []). cbn. intros u' d'.
  split; [done | by intros [?%elem_of_nil _]].
Qed.

Lemma next_interval_total (rnd : nat) :
  0 ≤ jitter_seconds cfg → ∃ i, _calculate_next_interval cfg rnd = ret i.
Proof.
  intros Hj. unfold _calculate_next_interval, randint.
  destruct (Z.ltb_spec (jitter_seconds cfg) 0); [lia | eauto].
Qed.

(** With a valid jitter bound the first loop runs to its end: the listed
    tasks are live and scheduled, nothing else has changed. *)
Lemma load_kept_runs (env : Env) (all_sessions : list (string * SessionData))
    (keep : list string) (st : SessionManager) :
  0 ≤ jitter_seconds cfg → NoDup keep →
  (∀ u d, dict_get u all_sessions = Some d → uuid d = u) →
  (∀ u, u ∈ keep → is_Some (dict_get u all_sessions)) →
  ∃ st', load_kept cfg env all_sessions keep st = (ret tt, st') ∧
    files st' = files st ∧ log st' = log st ∧
    (∀ u, u ∈ keep → sessions st' !! u = dict_get u all_sessions) ∧
    (∀ u, u ∉ keep → sessions st' !! u = sessions st !! u) ∧
    (∀ u, u ∈ keep → is_Some (jobs st' !! u)) ∧
    (∀ u, u ∉ keep → jobs st' !! u = jobs st !! u).
Proof.
  intros Hj Hnd Hkey. revert st Hnd.
  induction keep as [|u keep IH]; intros st Hnd Hall.
  - exists st. repeat split; try done; by intros u ?%elem_of_nil.
  - apply NoDup_cons in Hnd as [Hu Hnd].
    destruct (Hall u (list_elem_of_here _ _)) as [d Hd].
    pose proof (Hkey u d Hd) as Hud. simpl. rewrite Hd.
    unfold start_heartbeat, schedule_next. cbn [sessions register with_tg_id_to_uuid with_sessions].
    rewrite lookup_insert_eq.
    destruct (next_interval_total (random_source env (uuid d)) Hj) as [i ->].
    cbn iota beta.
    set (st2 := with_jobs _ _).
    destruct (IH st2 Hnd) as (st' & Hrun & Hf & Hl & Hs_in & Hs_out & Hj_in & Hj_out).
    { intros v Hv. by apply Hall, list_elem_of_further. }
    exists st'. split; [done|]. split; [by rewrite Hf|]. split; [by rewrite Hl|].
    repeat split.
    + intros v [->|Hv]%elem_of_cons; [|by apply Hs_in].
      rewrite Hs_out by done. subst st2. cbn. by rewrite Hud, lookup_insert_eq.
    + intros v [Hne Hv]%not_elem_of_cons. rewrite Hs_out by done.
      subst st2. cbn. by rewrite Hud, lookup_insert_ne.
    + intros v [->|Hv]%elem_of_cons; [|by apply Hj_in].
      rewrite Hj_out by done. subst st2. cbn. rewrite Hud, lookup_insert_eq. eauto.
    + intros v [Hne Hv]%not_elem_of_cons. rewrite Hj_out by done.
      subst st2. cbn. by rewrite Hud, lookup_insert_ne.
Qed.

Lemma discard_events_cons (env : Env) (all_sessions : list (string * SessionData))
    (u : string) (d : SessionData) (del : list string) :
  dict_get u all_sessions = Some d →
  discard_events env all_sessions (u :: del) =
    Notified (send_cleanup (notify_chat_id d) u replaced_reason)
    :: (if unlink_raises env u then [] else [FileDeleted u])
    ++ discard_events env all_sessions del.
Proof. intros Hd. unfold discard_events. cbn. by rewrite Hd. Qed.

(** The second loop runs to its end: one notification per listed task,
    each followed by the deletion of the file unless the unlink raises. *)
Lemma discard_runs (env : Env) (all_sessions : list (string * SessionData))
    (del : list string) (st : SessionManager) :
  NoDup del →
  (∀ u, u ∈ del → is_Some (dict_get u all_sessions)) →
  (∀ u, u ∈ del → is_Some (files st !! u)) →
  ∃ st', discard env all_sessions del st = (ret tt, st') ∧
    log st' = log st ++ discard_events env all_sessions del ∧
    (∀ u, u ∈ del →
       files st' !! u = if unlink_raises env u then files st !! u else None) ∧
    (∀ u, u ∉ del → files st' !! u = files st !! u).
Proof.
  intros Hnd. revert st Hnd.
  induction del as [|u del IH]; intros st Hnd Hall Hfiles.
  - exists st. repeat split; try done.
    + by rewrite app_nil_r.
    + by intros u ?%elem_of_nil.
  - apply NoDup_cons in Hnd as [Hu Hnd].
    destruct (Hall u (list_elem_of_here _ _)) as [d Hd].
    destruct (Hfiles u (list_elem_of_here _ _)) as [f Hf].
    rewrite (discard_events_cons _ _ _ d) by done.
    cbn [discard]. rewrite Hd.
    set (st1 := remove_file env u _).
    assert (log st1 = log st
              ++ Notified (send_cleanup (notify_chat_id d) u replaced_reason)
              :: (if unlink_raises env u then [] else [FileDeleted u])) as Hl1.
    { subst st1. unfold remove_file. destruct (unlink_raises env u); [done|].
      cbn [files emit]. rewrite Hf. cbn. by rewrite <- app_assoc. }
    assert (files st1 = if unlink_raises env u then files st
                        else delete u (files st)) as Hf1.
    { subst st1. unfold remove_file. destruct (unlink_raises env u); [done|].
      cbn [files emit]. by rewrite Hf. }
    destruct (IH st1 Hnd) as (st' & Hrun & Hl & Hin & Hout).
    { intros v Hv. by apply Hall, list_elem_of_further. }
    { intros v Hv. rewrite Hf1.
      assert (u ≠ v) by (by intros ->).
      destruct (unlink_raises env u); [|rewrite lookup_delete_ne by done];
        by apply Hfiles, list_elem_of_further. }
    exists st'. split; [done|]. split; [|split].
    + rewrite Hl, Hl1. rewrite <- app_assoc. done.
    + intros v [->|Hv]%elem_of_cons.
      * rewrite Hout, Hf1 by done.
        destruct (unlink_raises env u); [done | apply lookup_delete_eq].
      * rewrite Hin, Hf1 by done.
        assert (u ≠ v) by (by intros ->).
        destruct (unlink_raises env v); [|done].
        destruct (unlink_raises env u); [done | by rewrite lookup_delete_ne].
    + intros v [Hne Hv]%not_elem_of_cons. rewrite Hout, Hf1 by done.
      destruct (unlink_raises env u); [done | by rewrite lookup_delete_ne].
Qed.

Lemma discard_events_app (env : Env) (all_sessions : list (string * SessionData))
    (l1 l2 : list string) :
  discard_events env all_sessions (l1 ++ l2) =
    discard_events env all_sessions l1 ++ discard_events env all_sessions l2.
Proof. unfold discard_events. apply bind_app. Qed.

Lemma discard_events_other (env : Env) (all_sessions : list (string * SessionData))
    (del : list string) (u : string) :
  u ∉ del → cleanups_for u (discard_events env all_sessions del) = 0%nat.
Proof.
  induction del as [|v del IH]; [done|].
  intros [Hne Hu]%not_elem_of_cons.
  change (v :: del) with ([v] ++ del).
  rewrite discard_events_app, cleanups_for_app, IH by done.
  unfold discard_events. cbn. destruct (dict_get v all_sessions); [|done].
  unfold cleanups_for. cbn. rewrite bool_decide_eq_false_2 by done.
  by destruct (unlink_raises env v).
Qed.

(** Each discarded task gets its one notification, and its file is deleted
    right after, unless the unlink raises. *)
Lemma discard_events_one (env : Env) (all_sessions : list (string * SessionData))
    (del : list string) (u : string) (d : SessionData) :
  NoDup del → u ∈ del → dict_get u all_sessions = Some d →
  ∃ before after,
    discard_events env all_sessions del =
      before ++ [Notified (send_cleanup (notify_chat_id d) u replaced_reason)]
             ++ (if unlink_raises env u then [] else [FileDeleted u])
             ++ after ∧
    cleanups_for u before = 0%nat ∧ cleanups_for u after = 0%nat.
Proof.
  intros Hnd (l1 & l2 & ->)%list_elem_of_split Hd.
  apply NoDup_app in Hnd as (_ & Hl1 & [Hl2 _]%NoDup_cons).
  exists (discard_events env all_sessions l1), (discard_events env all_sessions l2).
  split.
  - by rewrite discard_events_app, (discard_events_cons _ _ _ d).
  - split; apply discard_events_other; [|done].
    intros Hin. apply (Hl1 u Hin), list_elem_of_here.
Qed.

Lemma invariant_new_manager (disk : gmap string file) :
  one_task_per_account (new_manager disk).
Proof. split; cbn; intros *; by rewrite ?lookup_empty. Qed.

(** C3: at startup, on a directory whose records sit in the files named
    after them, [initialize] returns normally and, for every account with
    loaded records, loads and schedules exactly one of them, one whose
    [created_at] no other record of the account exceeds; the live index
    holds nothing else. The record it loads keeps its file and gets no
    cleanup notification. Every other record of the account stays out of
    the live index and of the scheduler and has exactly one cleanup
    notification sent for its uuid; its file is deleted right after that
    notification (and stays only if the unlink raises). *)
Theorem C3_startup_reconciliation (env : Env) (disk : gmap string file) :
  0 ≤ jitter_seconds cfg → well_named disk →
  ∃ st', initialize cfg env (new_manager disk) = (ret tt, st') ∧
    (∀ u d, sessions st' !! u = Some d → persisted disk d ∧ uuid d = u) ∧
    ∀ d, persisted disk d →
      ∃ w, persisted disk w ∧ tg_id w = tg_id d ∧
        (∀ d', persisted disk d' → tg_id d' = tg_id d →
               created_at d' ≤ created_at w) ∧
        sessions st' !! uuid w = Some w ∧
        tg_id_to_uuid st' !! tg_id d = Some (uuid w) ∧
        is_Some (jobs st' !! uuid w) ∧
        files st' !! uuid w = Some (FileOk w) ∧
        cleanups_for (uuid w) (log st') = 0%nat ∧
        ∀ d', persisted disk d' → tg_id d' = tg_id d → uuid d' ≠ uuid w →
          sessions st' !! uuid d' = None ∧
          jobs st' !! uuid d' = None ∧
          files st' !! uuid d' =
            (if unlink_raises env (uuid d') then Some (FileOk d') else None) ∧
          ∃ before after,
            log st' = before
              ++ [Notified (send_cleanup (notify_chat_id d') (uuid d') replaced_reason)]
              ++ (if unlink_raises env (uuid d') then [] else [FileDeleted (uuid d')])
              ++ after ∧
            cleanups_for (uuid d') before = 0%nat ∧
            cleanups_for (uuid d') after = 0%nat.
Proof.
  intros Hj Hnamed.
  set (st := new_manager disk).
  pose proof (invariant_initialize cfg env st eq_refl
                (invariant_new_manager disk)) as Hinv.
  unfold initialize in *.
  set (all_sessions := (load_all (glob env st) st).1) in *.
  set (sel := select (group_by_tg_id all_sessions)) in *.
  destruct (load_all_keyed (glob env st) st) as [Hnd Hkey0].
  fold all_sessions in Hnd, Hkey0.
  assert (∀ u d, dict_get u all_sessions = Some d → uuid d = u) as Hkey.
  { intros u d Hd%dict_get_elem_of. by apply Hkey0. }
  assert (∀ u d, dict_get u all_sessions = Some d ↔ disk !! u = Some (FileOk d))
    as Hload.
  { intros u d. unfold all_sessions. rewrite load_all_persisted by done.
    split; [by intros [_ ?]|]. intros Hf. split; [|done].
    apply glob_elem_of. cbn. by rewrite Hf. }
  assert (∀ d, persisted disk d ↔ dict_get (uuid d) all_sessions = Some d) as Hpers.
  { intros d. unfold persisted. by rewrite Hload. }
  (* the first loop *)
  destruct (load_kept_runs env all_sessions (iterate env sel.1) st Hj)
    as (st1 & Hrun1 & Hf1 & Hl1 & Hs_in & Hs_out & Hj_in & Hj_out).
  { apply iterate_NoDup. }
  { exact Hkey. }
  { intros u Hu%iterate_elem_of.
    apply keep_spec in Hu as (d & Hd & _); [eauto | done]. }
  (* the second loop *)
  destruct (discard_runs env all_sessions (iterate env sel.2) st1)
    as (st2 & Hrun2 & Hl2 & Hf_in & Hf_out).
  { apply iterate_NoDup. }
  { intros u Hu%iterate_elem_of.
    apply delete_spec in Hu as (d & w & Hd & _); [eauto | done]. }
  { intros u Hu%iterate_elem_of.
    apply delete_spec in Hu as (d & w & Hd & _); [|done].
    rewrite Hf1. cbn. apply Hload in Hd. by rewrite Hd. }
  destruct (discard_indices env all_sessions (iterate env sel.2) st1)
    as (Hs2 & Ht2 & Hj2).
  rewrite Hrun1 in Hinv. rewrite Hrun2 in Hinv, Hs2, Ht2, Hj2. cbn [snd] in *.
  rewrite Hrun1. exists st2. split; [exact Hrun2|].
  assert (∀ u, u ∈ iterate env sel.1 ↔ u ∈ sel.1) as Hk
    by (intros u; apply iterate_elem_of).
  assert (∀ u, u ∈ iterate env sel.2 ↔ u ∈ sel.2) as Hdl
    by (intros u; apply iterate_elem_of).
  split.
  { intros u d. rewrite Hs2. destruct (decide (u ∈ iterate env sel.1)) as [Hu|Hu].
    - rewrite Hs_in by done. intros Hd. pose proof (Hkey u d Hd) as <-.
      split; [by apply Hpers | done].
    - rewrite Hs_out by done. subst st. cbn. by rewrite lookup_empty. }
  intros d Hd%Hpers.
  destruct (own_group_has_winner all_sessions (uuid d) d Hd) as [wu Hw].
  destruct (winner_spec _ _ Hw) as (c & Hin & Hmax).
  destruct (member_record all_sessions Hnd _ _ _ Hin) as (w & Hwd & Htgw & Hcw).
  pose proof (Hkey _ _ Hwd) as Hwu. subst wu.
  assert (uuid w ∈ sel.1) as Hkeep.
  { apply keep_spec; [done|]. exists w. split; [done|]. by rewrite Htgw. }
  assert (uuid w ∉ sel.2) as Hnodel.
  { intros (d0 & w0 & Hd0 & Hw0 & Hne)%delete_spec; [|done].
    assert (d0 = w) as -> by congruence. rewrite Htgw in Hw0. congruence. }
  assert (sessions st2 !! uuid w = Some w) as Hlive.
  { rewrite Hs2, Hs_in, Hwd; [done|]. by apply Hk. }
  exists w. split; [by apply Hpers|]. split; [done|]. split.
  { intros d' Hd'%Hpers Htg'. rewrite Hcw. apply (Hmax (uuid d')).
    apply elem_of_members. exists d'. split; [by apply dict_get_elem_of | done]. }
  split; [done|]. split.
  { rewrite <- Htgw. by apply (index_of_live st2 Hinv). }
  split; [rewrite Hj2; by apply Hj_in, Hk|]. split.
  { rewrite Hf_out by (by rewrite Hdl). rewrite Hf1. cbn. by apply Hload. }
  split.
  { rewrite Hl2, Hl1. cbn. apply discard_events_other. by rewrite Hdl. }
  intros d' Hd'%Hpers Htg' Hne.
  assert (uuid d' ∈ sel.2) as Hdel.
  { apply delete_spec; [done|]. exists d', (uuid w).
    split; [done|]. split; [by rewrite Htg' | done]. }
  assert (uuid d' ∉ sel.1) as Hnokeep.
  { intros (d0 & Hd0 & Hw0)%keep_spec; [|done].
    assert (d0 = d') as -> by congruence. rewrite Htg' in Hw0. congruence. }
  split.
  { rewrite Hs2, Hs_out by (by rewrite Hk). subst st. cbn. apply lookup_empty. }
  split.
  { rewrite Hj2, Hj_out by (by rewrite Hk). subst st. cbn. apply lookup_empty. }
  split.
  { rewrite Hf_in by (by apply Hdl). rewrite Hf1. cbn.
    apply Hload in Hd'. by rewrite Hd'. }
  rewrite Hl2, Hl1. cbn.
  apply discard_events_one; [apply iterate_NoDup | by apply Hdl | done].
Qed.

End ReconciliationFacts.

(** *** Live records are stored under their own uuid *)

Section KeyedFacts.
Variable cfg : Config.

Lemma keyed_same_sessions (st st' : SessionManager) :
  sessions st' = sessions st → keyed st → keyed st'.
Proof. intros Hs Hk u d. rewrite Hs. apply Hk. Qed.

Lemma keyed_insert (st st' : SessionManager) (u : string) (d : SessionData) :
  sessions st' = <[u := d]> (sessions st) → uuid d = u → keyed st → keyed st'.
Proof.
  intros Hs Hd Hk v e. rewrite Hs.
  intros [[<- <-]|[_ Hv]]%lookup_insert_Some; [done | by apply Hk].
Qed.

Lemma keyed_cleanup_task (env : Env) (u reason : string) (st : SessionManager) :
  keyed st → keyed (cleanup_task env u reason st).
Proof.
  intros Hk. destruct (sessions st !! u) as [d|] eqn:Hu;
    [|by rewrite cleanup_task_absent].
  destruct (cleanup_task_live env u reason st d Hu) as (Hs & _).
  intros v e. rewrite Hs. intros [_ Hv]%lookup_delete_Some. by apply Hk.
Qed.

Lemma keyed_create_task (env : Env) (session : string) (chat : Z)
    (st : SessionManager) :
  keyed st → keyed (create_task cfg env session chat st).2.
Proof.
  intros Hk. unfold create_task.
  destruct (validate_session (tg_validate env)).1 as [e|info]; [done|].
  cbn zeta. set (tg := ai_tg_id info).
  assert (keyed (replace_existing env tg st)) as Hk1.
  { unfold replace_existing. destruct (tg_id_to_uuid st !! tg); [|done].
    by apply keyed_cleanup_task. }
  set (st1 := replace_existing env tg st) in *.
  set (d := new_session_data env tg session chat).
  destruct (save_indices env 0 d st1) as (Hs2 & _).
  destruct (_save_session_file env 0 d st1) as [[e|[]] st2]; cbn [snd] in *.
  - by apply (keyed_same_sessions st1).
  - assert (keyed (register d st2)) as Hk3.
    { apply (keyed_insert st1 _ (uuid d) d); [by cbn; rewrite Hs2 | done | done]. }
    destruct (start_heartbeat_indices cfg env (uuid d) (register d st2)) as (Hs4 & _).
    destruct (start_heartbeat cfg env (uuid d) (register d st2)) as [[e|[]] st4];
      cbn [snd] in *; by apply (keyed_same_sessions (register d st2)).
Qed.

Lemma keyed_handle_success (env : Env) (n : nat) (u : string) (st : SessionManager) :
  keyed st → keyed (_handle_success env n u st).2.
Proof.
  intros Hk. unfold _handle_success, _save_session_file.
  destruct (sessions st !! u) as [d|] eqn:Hu; [|done].
  cbn zeta. destruct (write_raises env n); [destruct (write_opens env n)|];
    cbn [snd];
    (eapply (keyed_insert st); [reflexivity | by apply (Hk u d) | done]).
Qed.

Lemma keyed_handle_failure (env : Env) (n : nat) (u : string) (error : exn)
    (st : SessionManager) :
  keyed st → keyed (_handle_failure cfg env n u error st).2.
Proof.
  intros Hk. unfold _handle_failure, _save_session_file.
  destruct (sessions st !! u) as [d|] eqn:Hu; [|done].
  cbn zeta. destruct (write_raises env n); cbn [snd].
  - destruct (write_opens env n);
      (eapply (keyed_insert st); [reflexivity | by apply (Hk u d) | done]).
  - destruct (max_failures cfg <=? _); cbn [snd];
      [apply keyed_cleanup_task|];
      (eapply (keyed_insert st); [reflexivity | by apply (Hk u d) | done]).
Qed.

Lemma keyed_reschedule (env : Env) (u : string) (st : SessionManager) :
  keyed st → keyed (_execute_heartbeat_and_reschedule cfg env u st).2.
Proof.
  intros Hk.
  assert (keyed (execute_heartbeat cfg env u st).2) as Hk1.
  { unfold execute_heartbeat. destruct (sessions st !! u) as [d|]; [|done].
    assert (keyed (heartbeat_attempt cfg env u st).2) as Hk0.
    { unfold heartbeat_attempt.
      destruct (heartbeat (tg_heartbeat env)).1 as [e|[|]]; [done| |].
      - by apply keyed_handle_success.
      - by apply keyed_handle_failure. }
    destruct (heartbeat_attempt cfg env u st) as [[e|[]] st1]; [|done].
    cbn [snd] in Hk0.
    destruct (heartbeat (tg_heartbeat env)).1; by apply keyed_handle_failure. }
  unfold _execute_heartbeat_and_reschedule.
  destruct (execute_heartbeat cfg env u st) as [[e|[]] st1]; [done|].
  cbn [snd] in Hk1. destruct (sessions st1 !! u); [|done].
  destruct (schedule_next_indices cfg env u st1) as (Hs & _).
  by apply (keyed_same_sessions st1).
Qed.

Lemma keyed_load_kept (env : Env) (all_sessions : list (string * SessionData))
    (keep : list string) (st : SessionManager) :
  keyed st → keyed (load_kept cfg env all_sessions keep st).2.
Proof.
  revert st. induction keep as [|u keep IH]; intros st Hk; [done|]. simpl.
  destruct (dict_get u all_sessions) as [d|]; [|done].
  assert (keyed (register d st)) as Hk1
    by (by apply (keyed_insert st _ (uuid d) d)).
  destruct (start_heartbeat_indices cfg env (uuid d) (register d st)) as (Hs & _).
  destruct (start_heartbeat cfg env (uuid d) (register d st)) as [[e|[]] st2];
    cbn [snd] in *.
  - by apply (keyed_same_sessions (register d st)).
  - by apply IH, (keyed_same_sessions (register d st)).
Qed.

Lemma keyed_initialize (env : Env) (st : SessionManager) :
  keyed st → keyed (initialize cfg env st).2.
Proof.
  intros Hk. unfold initialize.
  set (all_sessions := (load_all (glob env st) st).1).
  set (selected := select (group_by_tg_id all_sessions)).
  pose proof (keyed_load_kept env all_sessions
                (iterate env selected.1) st Hk) as Hk1.
  destruct (load_kept cfg env all_sessions (iterate env selected.1) st)
    as [[e|[]] st1]; [done|]. cbn [snd] in Hk1.
  destruct (discard_indices env all_sessions (iterate env selected.2) st1)
    as (Hs & _).
  by apply (keyed_same_sessions st1).
Qed.

(** X29: in every reachable state a live record sits under its own uuid, so
    that the file named after the key is the file of the record. *)
Lemma reachable_keyed (st : SessionManager) : reachable cfg st → keyed st.
Proof.
  induction 1 as [disk | st env _ IH _ | st env k _ IH _
                 | st env session chat _ IH _
                 | st env session chat info _ IH _
                 | st env u reason _ IH | st env u _ IH].
  - intros u d. cbn. by rewrite lookup_empty.
  - by apply keyed_initialize.
  - by apply keyed_load_kept.
  - by apply keyed_create_task.
  - destruct (save_indices env 0
      (new_session_data env (ai_tg_id info) session chat)
      (replace_existing env (ai_tg_id info) st)) as (Hs & _).
    apply (keyed_same_sessions (replace_existing env (ai_tg_id info) st)); [done|].
    unfold replace_existing. destruct (tg_id_to_uuid st !! ai_tg_id info); [|done].
    by apply keyed_cleanup_task.
  - by apply keyed_cleanup_task.
  - by apply keyed_reschedule.
Qed.

End KeyedFacts.

(** * Further properties of the code *)

(** ** Text *)

Section TextFacts.
Import Stdlib.Strings.Ascii Text Validators CodeListener.

Lemma append_cons (c : ascii) (s t : string) :
  String c s +:+ t = String c (s +:+ t).
Proof. reflexivity. Qed.

Lemma append_nil_l (t : string) : "" +:+ t = t.
Proof. reflexivity. Qed.

Lemma append_nil_r (s : string) : s +:+ "" = s.
Proof. induction s as [|c s IH]; [done|]. by rewrite append_cons, IH. Qed.

Lemma append_assoc (s t r : string) : (s +:+ t) +:+ r = s +:+ t +:+ r.
Proof. induction s as [|c s IH]; [done|]. by rewrite !append_cons, IH. Qed.

Lemma length_append (s t : string) :
  String.length (s +:+ t) = (String.length s + String.length t)%nat.
Proof. induction s as [|c s IH]; [done|]. rewrite append_cons. cbn. by rewrite IH. Qed.

Lemma all_append (p : ascii → bool) (s t : string) :
  all p (s +:+ t) = all p s && all p t.
Proof.
  induction s as [|c s IH]; [done|]. rewrite append_cons. cbn.
  by rewrite IH, andb_assoc.
Qed.

Lemma all_impl (p q : ascii → bool) (s : string) :
  (∀ c, p c = true → q c = true) → all p s = true → all q s = true.
Proof.
  intros Hpq. induction s as [|c s IH]; [done|]. cbn.
  intros [Hc Hs]%andb_true_iff. by rewrite (Hpq c Hc), IH.
Qed.

Lemma is_decimal_word (c : ascii) : is_decimal c = true → is_word c = true.
Proof. unfold is_word, is_decimal. by intros ->. Qed.

Lemma is_decimal_digit (c : ascii) : is_decimal c = true → is_digit c = true.
Proof. unfold is_digit. by intros ->. Qed.

(** *** The uuid pattern *)

Lemma hexes_spec (n : nat) (s r : string) :
  hexes n s = Some r →
  ∃ m, s = m +:+ r ∧ String.length m = n ∧ all is_hex m = true ∧
       hexes n m = Some "".
Proof.
  revert s. induction n as [|n IH]; intros s.
  - intros [= <-]. by exists "".
  - destruct s as [|c s]; [done|]. cbn [hexes].
    destruct (is_hex c) eqn:Hc; [|done].
    intros (m & -> & <- & Hm & Hr)%IH. exists (String c m).
    cbn [all hexes String.length]. by rewrite Hc, Hm, Hr.
Qed.

Lemma hexes_append (n : nat) (s r t : string) :
  hexes n s = Some r → hexes n (s +:+ t) = Some (r +:+ t).
Proof.
  revert s. induction n as [|n IH]; intros s.
  - by intros [= <-].
  - destruct s as [|c s]; [done|]. rewrite append_cons. cbn [hexes].
    destruct (is_hex c); [apply IH | done].
Qed.

Lemma match_atom_spec (a : atom) (s r : string) :
  match_atom a s = Some r →
  ∃ m, s = m +:+ r ∧ all is_uuid_char m = true ∧ match_atom a m = Some "" ∧
       String.length m = match a with Hex n => n | Dash => 1%nat end.
Proof.
  destruct a as [n|]; cbn [match_atom].
  - intros (m & -> & Hn & Hm & Hr)%hexes_spec. exists m.
    repeat split; try done.
    eapply all_impl; [|exact Hm]. unfold is_uuid_char. by intros c ->.
  - unfold dash. destruct s as [|c s]; [done|].
    destruct (decide (c = "-"%char)) as [->|Hne].
    + intros [= <-]. by exists "-".
    + by destruct c as [[] [] [] [] [] [] [] []].
Qed.

Lemma match_atom_append (a : atom) (s r t : string) :
  match_atom a s = Some r → match_atom a (s +:+ t) = Some (r +:+ t).
Proof.
  destruct a as [n|]; cbn [match_atom]; [apply hexes_append|].
  unfold dash. destruct s as [|c s]; [done|]. rewrite append_cons.
  destruct (decide (c = "-"%char)) as [->|Hne]; [by intros [= <-]|].
  by destruct c as [[] [] [] [] [] [] [] []].
Qed.

Lemma match_atoms_cons (a : atom) (atoms : list atom) (r : option string) :
  match_atoms (a :: atoms) r = match_atoms atoms (r ≫= match_atom a).
Proof. reflexivity. Qed.

Lemma match_atoms_None (atoms : list atom) : match_atoms atoms None = None.
Proof. induction atoms as [|a atoms IH]; [done|]. by rewrite match_atoms_cons. Qed.

Lemma match_atoms_spec (atoms : list atom) (s r : string) :
  match_atoms atoms (Some s) = Some r →
  ∃ m, s = m +:+ r ∧ all is_uuid_char m = true ∧
       match_atoms atoms (Some m) = Some "" ∧ String.length m = width atoms.
Proof.
  revert s. induction atoms as [|a atoms IH]; intros s.
  - intros [= <-]. by exists "".
  - rewrite match_atoms_cons. cbn [mbind option_bind].
    destruct (match_atom a s) as [s1|] eqn:Ha;
      [|by rewrite (match_atoms_None atoms)].
    intros (m2 & -> & Hm2 & Hr2 & Hl2)%IH.
    apply match_atom_spec in Ha as (m1 & -> & Hm1 & Hr1 & Hl1).
    exists (m1 +:+ m2). rewrite append_assoc, all_append, Hm1, Hm2, length_append.
    repeat split; try done.
    + rewrite match_atoms_cons. cbn [mbind option_bind].
      apply (match_atom_append _ _ _ m2) in Hr1. rewrite Hr1. exact Hr2.
    + cbn [width foldr]. by rewrite Hl1, Hl2.
Qed.

Lemma match_atoms_append (atoms : list atom) (s r t : string) :
  match_atoms atoms (Some s) = Some r →
  match_atoms atoms (Some (s +:+ t)) = Some (r +:+ t).
Proof.
  revert s. induction atoms as [|a atoms IH]; intros s.
  - by intros [= <-].
  - rewrite !match_atoms_cons. cbn [mbind option_bind].
    destruct (match_atom a s) as [s1|] eqn:Ha;
      [|by rewrite (match_atoms_None atoms)].
    rewrite (match_atom_append _ _ _ t Ha). apply IH.
Qed.

Lemma uuid_pattern_spec (s r : string) :
  uuid_pattern s = Some r →
  ∃ m, s = m +:+ r ∧ all is_uuid_char m = true ∧
       uuid_pattern m = Some "" ∧ String.length m = 36%nat.
Proof. apply (match_atoms_spec uuid_atoms). Qed.

Lemma uuid_pattern_append (s r t : string) :
  uuid_pattern s = Some r → uuid_pattern (s +:+ t) = Some (r +:+ t).
Proof. apply (match_atoms_append uuid_atoms). Qed.

Lemma validate_uuid_format_pattern (u : string) :
  validate_uuid_format u = true ↔ uuid_pattern u = Some "".
Proof.
  unfold validate_uuid_format. destruct (uuid_pattern u) as [r|]; [|done].
  rewrite bool_decide_eq_true. split; [by intros -> | by intros [= ->]].
Qed.

(** X1: a string [validate_uuid_format] accepts has 36 characters, each a
    hexadecimal digit or a dash: it holds no path separator, no dot and no
    newline, so that [<uuid>.json] names a file of the data directory. *)
Theorem validate_uuid_format_shape (u : string) :
  validate_uuid_format u = true →
  String.length u = 36%nat ∧
  all is_uuid_char u = true ∧
  all (λ c, bool_decide (c ≠ "/"%char ∧ c ≠ "\"%char ∧ c ≠ "."%char
                         ∧ c ≠ "010"%char ∧ c ≠ "000"%char)) u = true.
Proof.
  intros (m & Hu & Hm & _ & Hl)%validate_uuid_format_pattern%uuid_pattern_spec.
  rewrite append_nil_r in Hu. subst m. split; [done|]. split; [exact Hm|].
  eapply all_impl; [|exact Hm]. intros c. unfold is_uuid_char, is_hex.
  destruct c as [[] [] [] [] [] [] [] []]; vm_compute; congruence.
Qed.

(** X2: the two uuid checks differ by the end anchor. Whatever
    [validate_uuid_format] (web_server.py) accepts, [validate_uuid]
    (models.py) accepts too, and [validate_uuid] also accepts it followed
    by one newline, which [validate_uuid_format] rejects; [validate_uuid]
    accepts nothing else, and returns its argument as it is. *)
Theorem validate_uuid_trailing_newline (v : string) :
  (validate_uuid_format v = true →
     validate_uuid v = ret v ∧
     validate_uuid (v +:+ newline) = ret (v +:+ newline) ∧
     validate_uuid_format (v +:+ newline) = false) ∧
  (∀ v', validate_uuid v = ret v' →
     v' = v ∧
     (validate_uuid_format v = true ∨
      ∃ u, v = u +:+ newline ∧ validate_uuid_format u = true)).
Proof.
  split.
  - intros Hv%validate_uuid_format_pattern.
    pose proof (uuid_pattern_append _ _ newline Hv) as Hn.
    rewrite append_nil_l in Hn.
    unfold validate_uuid, validate_uuid_format. rewrite Hv, Hn. done.
  - intros v'. unfold validate_uuid.
    destruct (uuid_pattern v) as [r|] eqn:Hr; [|done].
    destruct (bool_decide (r = "") || bool_decide (r = newline)) eqn:Hend; [|done].
    intros [= <-]. split; [done|].
    apply orb_true_iff in Hend as [->%bool_decide_eq_true | ->%bool_decide_eq_true].
    + left. by apply validate_uuid_format_pattern.
    + right. apply uuid_pattern_spec in Hr as (m & -> & _ & Hm & _).
      exists m. split; [done|]. by apply validate_uuid_format_pattern.
Qed.

(** *** Phone numbers *)

Lemma all_remove (p : ascii → bool) (x : ascii) (s : string) :
  all p (remove x s) = true →
  all (λ c, p c || bool_decide (c = x)) s = true.
Proof.
  induction s as [|c s IH]; [done|]. cbn [remove all].
  destruct (decide (c = x)) as [->|Hne].
  - intros Hs%IH. by rewrite Hs, bool_decide_eq_true_2, orb_true_r.
  - cbn [all]. intros [-> Hs%IH]%andb_true_iff. by rewrite Hs.
Qed.

Lemma count_remove (p : ascii → bool) (x : ascii) (s : string) :
  p x = false → count p (remove x s) = count p s.
Proof.
  intros Hx. induction s as [|c s IH]; [done|]. cbn [remove count].
  destruct (decide (c = x)) as [->|Hne].
  - by rewrite Hx, IH.
  - cbn [count]. by rewrite IH.
Qed.

Lemma count_all (p : ascii → bool) (s : string) :
  all p s = true → count p s = String.length s.
Proof.
  induction s as [|c s IH]; [done|]. cbn.
  intros [-> Hs]%andb_true_iff. by rewrite IH.
Qed.

Lemma count_none (p q : ascii → bool) (s : string) :
  (∀ c, p c = true → q c = false) → all p s = true → count q s = 0%nat.
Proof.
  intros Hpq. induction s as [|c s IH]; [done|]. cbn.
  intros [Hc Hs]%andb_true_iff. by rewrite (Hpq c Hc), IH.
Qed.

Lemma isdigit_all (s : string) :
  isdigit s = true → all is_digit s = true ∧ s ≠ "".
Proof. by destruct s. Qed.

(** X3: a phone number [validate_phone] accepts is returned as it was
    given (spaces and dashes included); it is made of digits, spaces, dashes
    and at most one plus sign, and has 10 to 15 digits. *)
Theorem validate_phone_accepts (v v' : string) :
  validate_phone v = ret v' →
  v' = v ∧
  all is_phone_char v = true ∧
  (10 ≤ count is_digit v ≤ 15)%nat ∧
  (count is_plus v ≤ 1)%nat.
Proof.
  unfold validate_phone. cbn zeta.
  set (cleaned0 := remove "-" (remove " " v)).
  set (cleaned := match cleaned0 with String "+" rest => rest | _ => cleaned0 end).
  destruct (isdigit cleaned) eqn:Hd; [|done]. cbn [negb].
  destruct ((len cleaned <? 10) || (15 <? len cleaned)) eqn:Hlen; [done|].
  intros [= <-]. split; [done|].
  apply orb_false_iff in Hlen as [Hlo%Z.ltb_ge Hhi%Z.ltb_ge]. unfold len in *.
  apply isdigit_all in Hd as [Hd _].
  assert (all (λ c, is_digit c || is_plus c) cleaned0 = true ∧
          count is_digit cleaned0 = String.length cleaned ∧
          (count is_plus cleaned0 ≤ 1)%nat) as (Hall & Hcount & Hplus).
  { assert (all (λ c, is_digit c || is_plus c) cleaned = true) as Hc
      by (eapply all_impl; [|exact Hd]; by intros c ->).
    assert (count is_plus cleaned = 0%nat) as Hp.
    { eapply count_none; [|exact Hd]. intros c.
      destruct c as [[] [] [] [] [] [] [] []]; vm_compute; congruence. }
    destruct (decide (head cleaned0 = Some "+"%char)) as [Hplus|Hplus].
    - destruct cleaned0 as [|c rest]; [done|]. injection Hplus as ->.
      change cleaned with rest in *. cbn [all count].
      rewrite Hc, Hp, (count_all _ _ Hd). done.
    - assert (cleaned = cleaned0) as Heq.
      { subst cleaned. destruct cleaned0 as [|c rest]; [done|].
        by destruct c as [[] [] [] [] [] [] [] []]. }
      rewrite <- Heq, Hc, Hp, (count_all _ _ Hd). split; [done|]. split; [done|lia]. }
  subst cleaned0. split; [|split].
  - apply all_remove, all_remove in Hall. eapply all_impl; [|exact Hall].
    intros c. unfold is_phone_char. by intros ->.
  - rewrite !count_remove in Hcount by done. lia.
  - rewrite !count_remove in Hplus by done. exact Hplus.
Qed.

(** *** The verification code in a message *)

Lemma digits_spec (n : nat) (s m rest : string) :
  digits n s = Some (m, rest) →
  s = m +:+ rest ∧ String.length m = n ∧ all is_decimal m = true.
Proof.
  revert s m. induction n as [|n IH]; intros s m.
  - by intros [= <- <-].
  - destruct s as [|c s]; [done|]. cbn [digits].
    destruct (is_decimal c) eqn:Hc; [|done].
    destruct (digits n s) as [[m' r']|] eqn:Hd; [|done].
    cbn. intros [= <- <-]. apply IH in Hd as (-> & <- & Hm).
    cbn [all String.length]. by rewrite Hc, Hm.
Qed.

Lemma digits_append (m rest : string) :
  all is_decimal m = true → digits (String.length m) (m +:+ rest) = Some (m, rest).
Proof.
  induction m as [|c m IH]; [done|]. cbn [all String.length].
  intros [Hc Hm]%andb_true_iff. rewrite append_cons. cbn [digits].
  by rewrite Hc, IH.
Qed.

Lemma last_of_decimal (prev : option ascii) (m : string) :
  m ≠ "" → all is_decimal m = true → at_word (last_of prev m) = true.
Proof.
  revert prev. induction m as [|c m IH]; intros prev; [done|]. intros _.
  cbn [all last_of]. intros [Hc Hm]%andb_true_iff.
  destruct m as [|c' m]; [by apply is_decimal_word | by apply IH].
Qed.

Lemma head_decimal (m rest : string) :
  m ≠ "" → all is_decimal m = true → at_word (head (m +:+ rest)) = true.
Proof.
  destruct m as [|c m]; [done|]. intros _ [Hc _]%andb_true_iff.
  by apply is_decimal_word.
Qed.

Lemma last_of_append (prev : option ascii) (s t : string) :
  last_of prev (s +:+ t) = last_of (last_of prev s) t.
Proof.
  revert prev. induction s as [|c s IH]; intros prev; [done|].
  rewrite append_cons. cbn [last_of]. apply IH.
Qed.

Lemma digits_then_boundary_spec (n : nat) (prev : option ascii) (s m : string) :
  n ≠ 0%nat → digits_then_boundary n prev s = Some m →
  ∃ post, s = m +:+ post ∧ String.length m = n ∧ all is_decimal m = true ∧
          at_word (head post) = false.
Proof.
  intros Hn. unfold digits_then_boundary.
  destruct (digits n s) as [[m' rest]|] eqn:Hd; [|done].
  destruct (word_boundary (last_of prev m') rest) eqn:Hb; [|done].
  intros [= <-]. apply digits_spec in Hd as (-> & Hl & Hm).
  exists rest. repeat split; try done.
  unfold word_boundary in Hb. rewrite last_of_decimal in Hb; [|by destruct m'; subst|done].
  by destruct (at_word (head rest)).
Qed.

Lemma match_here_spec (prev : option ascii) (s m : string) :
  match_here prev s = Some m →
  ∃ post, s = m +:+ post ∧
          (String.length m = 5 ∨ String.length m = 6)%nat ∧
          all is_decimal m = true ∧
          at_word prev = false ∧ at_word (head post) = false.
Proof.
  unfold match_here. destruct (word_boundary prev s) eqn:Hb; [|done].
  intros Hm.
  assert (∃ n, n ≠ 0%nat ∧ (n = 5 ∨ n = 6)%nat ∧
               digits_then_boundary n prev s = Some m) as (n & Hn & Hn' & Hd).
  { destruct (digits_then_boundary 6 prev s) as [m6|] eqn:H6.
    - exists 6%nat. injection Hm as ->. auto.
    - exists 5%nat. auto. }
  apply digits_then_boundary_spec in Hd as (post & -> & Hl & Hall & Hpost); [|done].
  exists post. rewrite Hl. repeat split; try done.
  unfold word_boundary in Hb. rewrite head_decimal in Hb; [|by destruct m; subst|done].
  by destruct (at_word prev).
Qed.

Lemma search_sound (prev : option ascii) (s m : string) :
  search prev s = Some m →
  ∃ pre post, s = pre +:+ m +:+ post ∧
    (String.length m = 5 ∨ String.length m = 6)%nat ∧
    all is_decimal m = true ∧
    at_word (last_of prev pre) = false ∧ at_word (head post) = false.
Proof.
  revert prev. induction s as [|c s IH]; intros prev; cbn [search].
  - destruct (match_here prev "") as [m'|] eqn:Hm; [|done].
    intros [= ->]. apply match_here_spec in Hm as (post & ? & ? & ? & ? & ?).
    by exists "", post.
  - destruct (match_here prev (String c s)) as [m'|] eqn:Hm.
    + intros [= ->]. apply match_here_spec in Hm as (post & ? & ? & ? & ? & ?).
      by exists "", post.
    + intros (pre & post & -> & ? & ? & ? & ?)%IH.
      by exists (String c pre), post.
Qed.

Lemma match_here_complete (prev : option ascii) (code post : string) :
  (String.length code = 5 ∨ String.length code = 6)%nat →
  all is_decimal code = true →
  at_word prev = false → at_word (head post) = false →
  is_Some (match_here prev (code +:+ post)).
Proof.
  intros Hl Hall Hprev Hpost.
  assert (code ≠ "") as Hne by (intros ->; cbn in Hl; lia).
  unfold match_here, word_boundary. rewrite Hprev, head_decimal by done. cbn [xorb].
  destruct (digits_then_boundary 6 prev (code +:+ post)) as [m6|] eqn:H6; [eauto|].
  destruct Hl as [Hl|Hl].
  - unfold digits_then_boundary. rewrite <- Hl, digits_append by done.
    unfold word_boundary. rewrite last_of_decimal, Hpost by done. eauto.
  - unfold digits_then_boundary in H6. rewrite <- Hl, digits_append in H6 by done.
    unfold word_boundary in H6. by rewrite last_of_decimal, Hpost in H6.
Qed.

Lemma search_complete (prev : option ascii) (pre code post : string) :
  (String.length code = 5 ∨ String.length code = 6)%nat →
  all is_decimal code = true →
  at_word (last_of prev pre) = false → at_word (head post) = false →
  is_Some (search prev (pre +:+ code +:+ post)).
Proof.
  intros Hl Hall. revert prev. induction pre as [|c pre IH]; intros prev Hprev Hpost.
  - rewrite append_nil_l.
    destruct (match_here_complete prev code post Hl Hall Hprev Hpost) as [m Hm].
    destruct (code +:+ post); cbn [search]; rewrite Hm; eauto.
  - rewrite append_cons. cbn [search].
    destruct (match_here prev _); [eauto|]. by apply IH.
Qed.

(** X4: the code [_extract_verification_code] returns is a run of 5 or 6
    decimal digits of the message with no word character right before or
    right after it; and it returns a code whenever the message holds such a
    run, so that [None] means there is none. *)
Theorem extract_verification_code_standalone (message : string) :
  (∀ code, _extract_verification_code message = Some code →
     ∃ pre post, message = pre +:+ code +:+ post ∧ standalone_code pre code post) ∧
  (∀ pre code post, message = pre +:+ code +:+ post →
     standalone_code pre code post →
     is_Some (_extract_verification_code message)).
Proof.
  split.
  - intros code (pre & post & ? & ? & ? & ? & ?)%search_sound.
    by exists pre, post.
  - intros pre code post -> (Hall & Hl & Hpre & Hpost).
    by apply search_complete.
Qed.

(** X5: whatever [_extract_verification_code] finds in a message is a
    code that [LoginCodeRequest.validate_code] accepts. *)
Theorem extracted_code_validates (message code : string) :
  _extract_verification_code message = Some code →
  validate_code code = ret code.
Proof.
  intros (pre & post & _ & Hl & Hall & _)%search_sound.
  unfold validate_code, isdigit, len.
  assert (all is_digit code = true) as Hd
    by (eapply all_impl; [apply is_decimal_digit | exact Hall]).
  destruct code as [|c code]; [cbn in Hl; lia|]. rewrite Hd. cbn [negb].
  destruct Hl as [Hl|Hl]; rewrite Hl; reflexivity.
Qed.

End TextFacts.

Section LifecycleFacts.
Variable cfg : Config.

(** ** Timers and cleanup *)

(** X6: a timer that fires for a task already cleaned up does nothing: no
    probe, no write, no notification, and no new job. *)
Theorem timer_after_cleanup_is_inert (env env' : Env) (u reason : string)
    (st : SessionManager) :
  let st' := cleanup_task env u reason st in
  _execute_heartbeat_and_reschedule cfg env' u st' = (ret tt, st') ∧
  execute_heartbeat cfg env' u st' = (ret tt, st') ∧
  start_heartbeat cfg env' u st' = (ret tt, st').
Proof.
  intros st'. pose proof (cleanup_task_gone env u reason st) as Hgone.
  fold st' in Hgone.
  assert (execute_heartbeat cfg env' u st' = (ret tt, st')) as Hrun
    by (unfold execute_heartbeat; by rewrite Hgone).
  split; [|split; [done|]].
  - unfold _execute_heartbeat_and_reschedule. by rewrite Hrun, Hgone.
  - unfold start_heartbeat. by rewrite Hgone.
Qed.

Lemma remove_file_other (env : Env) (u v : string) (st : SessionManager) :
  v ≠ u →
  files (remove_file env u st) !! v = files st !! v ∧
  ∃ l, log (remove_file env u st) = log st ++ l ∧
       (l = [] ∨ l = [FileDeleted u]).
Proof.
  intros Hne. unfold remove_file. destruct (unlink_raises env u).
  { split; [done|]. exists []. by rewrite app_nil_r; auto. }
  destruct (files st !! u).
  - cbn. rewrite lookup_delete_ne by done. eauto.
  - split; [done|]. exists []. by rewrite app_nil_r; auto.
Qed.

(** X7: [cleanup_task] touches one task only: the record, the job and the
    file of every other task stay as they were, no cleanup notification is
    sent for another task, and the reverse-index entry of another task is
    kept. *)
Theorem cleanup_task_frame (env : Env) (u reason v : string)
    (st : SessionManager) :
  v ≠ u →
  let st' := cleanup_task env u reason st in
  sessions st' !! v = sessions st !! v ∧
  jobs st' !! v = jobs st !! v ∧
  files st' !! v = files st !! v ∧
  cleanups_for v (log st') = cleanups_for v (log st) ∧
  ∀ tg, tg_id_to_uuid st !! tg = Some v → tg_id_to_uuid st' !! tg = Some v.
Proof.
  intros Hne st'. subst st'. destruct (sessions st !! u) as [d|] eqn:Hu;
    [|by rewrite cleanup_task_absent].
  destruct (cleanup_task_live env u reason st d Hu) as (Hs & Ht & Hj & Hf & Hl).
  rewrite Hs, Ht, Hj, Hf, Hl, !lookup_delete_ne by done.
  destruct (remove_file_other env u v st Hne) as (Hfv & _).
  destruct (remove_file_other env u v
              (emit (Notified (send_cleanup (notify_chat_id d) u reason)) st) Hne)
    as (_ & l & -> & Hl').
  split; [done|]. split; [done|]. split; [done|]. split.
  - cbn [log emit]. rewrite !cleanups_for_app.
    unfold cleanups_for at 2. cbn. rewrite bool_decide_eq_false_2 by done.
    destruct Hl' as [->| ->]; cbn; lia.
  - intros tg Htg. destruct (decide (tg_id_to_uuid st !! tg_id d = Some u)) as [Hd|Hd];
      [|done].
    rewrite lookup_delete_ne; [done|]. intros <-. congruence.
Qed.

(** ** Creation *)

(** A successful [create_task], from the state in which the account's
    previous task (if any) has been retired. *)
Lemma create_task_runs (env : Env) (session : string) (chat : Z)
    (st : SessionManager) (account_info : AccountInfo) :
  fst (validate_session (tg_validate env)) = ret account_info →
  write_raises env 0%nat = None →
  0 ≤ jitter_seconds cfg →
  let tg := ai_tg_id account_info in
  let d := new_session_data env tg session chat in
  let st1 := replace_existing env tg st in
  ∃ st' i,
    create_task cfg env session chat st = (ret (uuid4 env), st') ∧
    within_jitter cfg i ∧
    sessions st' = <[uuid4 env := d]> (sessions st1) ∧
    tg_id_to_uuid st' = <[tg := uuid4 env]> (tg_id_to_uuid st1) ∧
    jobs st' = <[uuid4 env := now env (uuid4 env) + i]> (jobs st1) ∧
    files st' = <[uuid4 env := FileOk d]> (files st1) ∧
    log st' = log st1 ++ [FileWritten (uuid4 env) d].
Proof.
  intros Hgate Hw Hj tg d st1.
  destruct (next_interval_total cfg (random_source env (uuid4 env)) Hj) as [i Hi].
  unfold create_task. rewrite Hgate. cbn zeta. fold tg. fold st1. fold d.
  unfold _save_session_file. rewrite Hw.
  unfold start_heartbeat. cbn [sessions register with_tg_id_to_uuid with_sessions
    emit with_files uuid d new_session_data].
  rewrite lookup_insert_eq. unfold schedule_next. rewrite Hi.
  eexists _, i. split; [reflexivity|].
  split; [by eapply next_interval_range|]. done.
Qed.

(** X8: the first task of an account. When the credential validates, the
    account has no task and the record can be written, [create_task]
    returns the new uuid with the new record live (counter 0, no heartbeat
    yet, created now), the account pointing at it, its file written and
    its first heartbeat scheduled within the jitter range; the write is the
    only event, no notification is sent, and no job is cancelled. *)
Theorem create_task_first_task (env : Env) (session : string) (chat : Z)
    (st : SessionManager) (account_info : AccountInfo) :
  fst (validate_session (tg_validate env)) = ret account_info →
  write_raises env 0%nat = None →
  0 ≤ jitter_seconds cfg →
  tg_id_to_uuid st !! ai_tg_id account_info = None →
  let tg := ai_tg_id account_info in
  let d := {| uuid := uuid4 env; tg_id := tg; session_string := session;
              notify_chat_id := chat; consecutive_failures := 0;
              created_at := utcnow env; last_heartbeat := None |} in
  ∃ st' i,
    create_task cfg env session chat st = (ret (uuid4 env), st') ∧
    within_jitter cfg i ∧
    sessions st' = <[uuid4 env := d]> (sessions st) ∧
    tg_id_to_uuid st' = <[tg := uuid4 env]> (tg_id_to_uuid st) ∧
    jobs st' = <[uuid4 env := now env (uuid4 env) + i]> (jobs st) ∧
    files st' = <[uuid4 env := FileOk d]> (files st) ∧
    log st' = log st ++ [FileWritten (uuid4 env) d].
Proof.
  intros Hgate Hw Hj Hidx tg d.
  destruct (create_task_runs env session chat st account_info Hgate Hw Hj)
    as (st' & i & Hrun & Hi & Hs & Ht & Hjobs & Hf & Hl).
  unfold replace_existing in Hs, Ht, Hjobs, Hf, Hl.
  rewrite Hidx in Hs, Ht, Hjobs, Hf, Hl. by exists st', i.
Qed.

(** X9: replacing a task. When the account already has a live task, a
    successful [create_task] takes the old task out of the live index and
    of the scheduler, sends one cleanup notification for it with the
    replacement reason, and only then writes the new record; the account
    ends with the new task alone. *)
Theorem create_task_replaces (env : Env) (session : string) (chat : Z)
    (st : SessionManager) (account_info : AccountInfo) (old : string)
    (d_old : SessionData) :
  fst (validate_session (tg_validate env)) = ret account_info →
  write_raises env 0%nat = None →
  0 ≤ jitter_seconds cfg →
  tg_id_to_uuid st !! ai_tg_id account_info = Some old →
  sessions st !! old = Some d_old →
  tg_id d_old = ai_tg_id account_info →
  old ≠ uuid4 env →
  let tg := ai_tg_id account_info in
  let d := new_session_data env tg session chat in
  ∃ st' removal,
    create_task cfg env session chat st = (ret (uuid4 env), st') ∧
    sessions st' = <[uuid4 env := d]> (delete old (sessions st)) ∧
    sessions st' !! old = None ∧
    tg_id_to_uuid st' = <[tg := uuid4 env]> (tg_id_to_uuid st) ∧
    jobs st' !! old = None ∧
    is_Some (jobs st' !! uuid4 env) ∧
    log st' = log st
      ++ [Notified (send_cleanup (notify_chat_id d_old) old replaced_reason)]
      ++ removal ++ [FileWritten (uuid4 env) d] ∧
    (removal = [] ∨ removal = [FileDeleted old]).
Proof.
  intros Hgate Hw Hj Hidx Hold Htg Hne tg d.
  destruct (create_task_runs env session chat st account_info Hgate Hw Hj)
    as (st' & i & Hrun & _ & Hs & Ht & Hjobs & _ & Hl).
  fold tg in Hs, Ht, Hjobs, Hl, Hidx, Htg. fold d in Hs, Hl.
  unfold replace_existing in Hs, Ht, Hjobs, Hl. rewrite Hidx in Hs, Ht, Hjobs, Hl.
  destruct (cleanup_task_live env old replaced_reason st d_old Hold)
    as (Hcs & Hct & Hcj & _ & Hcl).
  rewrite Htg, Hidx, decide_True in Hct by done.
  rewrite Hcs in Hs. rewrite Hct in Ht. rewrite Hcj in Hjobs. rewrite Hcl in Hl.
  assert (∃ removal,
    log (remove_file env old
           (emit (Notified (send_cleanup (notify_chat_id d_old) old replaced_reason)) st))
    = log st ++ [Notified (send_cleanup (notify_chat_id d_old) old replaced_reason)]
        ++ removal ∧ (removal = [] ∨ removal = [FileDeleted old]))
    as (removal & Hrem & Hcases).
  { unfold remove_file. destruct (unlink_raises env old).
    { exists []. by auto. }
    cbn [files emit]. destruct (files st !! old).
    - exists [FileDeleted old]. cbn. rewrite <- app_assoc. auto.
    - exists []. auto. }
  exists st', removal. split; [exact Hrun|]. split; [exact Hs|].
  split; [by rewrite Hs, lookup_insert_ne, lookup_delete_eq|].
  split; [by rewrite Ht, insert_delete_eq|].
  split; [by rewrite Hjobs, lookup_insert_ne, lookup_delete_eq|].
  split; [rewrite Hjobs, lookup_insert_eq; eauto|].
  split; [|exact Hcases].
  rewrite Hl, Hrem. by rewrite <- !app_assoc.
Qed.

(** X10: a replacement is not atomic. When the account has a live task and
    the write of the new record raises, [create_task] raises that error
    with the old task already retired (notification sent, job cancelled,
    record out of the live index) and no new task in its place: the
    account is left without a task. When the error came once the new file
    had been opened, that file stays in the directory, named after a uuid
    no index knows and holding nothing that loads; when it came at [open],
    the directory is as the cleanup of the old task left it. *)
Theorem create_task_unwritten_loses_old (env : Env) (session : string) (chat : Z)
    (st : SessionManager) (account_info : AccountInfo) (old : string)
    (d_old : SessionData) (e : exn) :
  fst (validate_session (tg_validate env)) = ret account_info →
  write_raises env 0%nat = Some e →
  tg_id_to_uuid st !! ai_tg_id account_info = Some old →
  sessions st !! old = Some d_old →
  tg_id d_old = ai_tg_id account_info →
  let st1 := cleanup_task env old replaced_reason st in
  let st' := if write_opens env 0
             then with_files (insert (uuid4 env) FileBad) st1 else st1 in
  create_task cfg env session chat st = (raise e, st') ∧
  sessions st' = delete old (sessions st) ∧
  tg_id_to_uuid st' !! ai_tg_id account_info = None ∧
  jobs st' !! old = None ∧
  cleanups_for old (log st') = S (cleanups_for old (log st)) ∧
  files st' = (if write_opens env 0
               then <[uuid4 env := FileBad]> (files st1) else files st1) ∧
  (write_opens env 0 = true →
   files st' !! uuid4 env = Some FileBad ∧
   _load_session_file (uuid4 env) st' = raise (Exn OtherException "Invalid session file")).
Proof.
  intros Hgate Hw Hidx Hold Htg st1 st'.
  destruct (cleanup_task_live env old replaced_reason st d_old Hold)
    as (Hcs & Hct & Hcj & _ & Hcl).
  fold st1 in Hcs, Hct, Hcj, Hcl.
  rewrite Htg, Hidx, decide_True in Hct by done.
  assert (sessions st' = sessions st1 ∧ tg_id_to_uuid st' = tg_id_to_uuid st1 ∧
          jobs st' = jobs st1 ∧ log st' = log st1) as (Hs' & Ht' & Hj' & Hl')
    by (subst st'; by destruct (write_opens env 0)).
  split.
  { unfold create_task. rewrite Hgate. cbn zeta.
    unfold replace_existing. rewrite Hidx. fold st1.
    unfold _save_session_file. by rewrite Hw. }
  split; [by rewrite Hs'|]. split; [by rewrite Ht', Hct, lookup_delete_eq|].
  split; [by rewrite Hj', Hcj, lookup_delete_eq|].
  split.
  { rewrite Hl', Hcl. unfold remove_file. destruct (unlink_raises env old).
    - cbn [log emit]. rewrite cleanups_for_app, cleanups_for_cleanup. lia.
    - cbn [files emit]. destruct (files st !! old); cbn [log emit with_files].
      + rewrite !cleanups_for_app, cleanups_for_cleanup.
        change (cleanups_for old [FileDeleted old]) with 0%nat. lia.
      + rewrite cleanups_for_app, cleanups_for_cleanup. lia. }
  split; [subst st'; by destruct (write_opens env 0)|].
  intros Ho. subst st'. rewrite Ho. cbn [files with_files].
  unfold _load_session_file. cbn [files with_files].
  by rewrite lookup_insert_eq.
Qed.

(** ** Heartbeats with a failing disk *)

(** X11: a false result of the probe whose failure handler cannot write is
    counted twice. The handler has incremented the counter before its write
    raises; the error is caught by [execute_heartbeat] and given to the
    failure handler again, which increments once more, writes, and notifies
    with the text of the write error; the threshold is then checked against
    the counter plus two. *)
Theorem false_result_unwritten_counts_twice (env : Env) (u : string)
    (d : SessionData) (st : SessionManager) (e : exn) :
  sessions st !! u = Some d → probe_outcome env = ret false →
  write_raises env 0%nat = Some e → write_raises env 1%nat = None →
  let d2 := incr_failures (incr_failures d) in
  let st2 := emit (Notified (send_failure (notify_chat_id d) u (exn_str e)))
               (emit (FileWritten (uuid d) d2)
                  (with_files (insert (uuid d) (FileOk d2))
                     (with_sessions (insert u d2)
                        (with_sessions (insert u (incr_failures d)) st)))) in
  consecutive_failures d2 = consecutive_failures d + 2 ∧
  execute_heartbeat cfg env u st =
    (ret tt, if max_failures cfg <=? consecutive_failures d + 2
             then cleanup_task env u (max_failures_reason cfg) st2 else st2).
Proof.
  intros Hu Hp Hw0 Hw1 d2 st2.
  assert (consecutive_failures d2 = consecutive_failures d + 2) as Hc
    by (cbn; lia).
  split; [exact Hc|].
  unfold execute_heartbeat, heartbeat_attempt. unfold probe_outcome in Hp.
  rewrite Hu, Hp. unfold _handle_failure at 1. unfold _save_session_file at 1.
  rewrite Hu, Hw0. cbn zeta. cbn iota.
  unfold _handle_failure, _save_session_file.
  assert (∀ st0 : SessionManager,
            sessions (if write_opens env 0
                      then with_files (insert (uuid d) FileBad) st0 else st0)
            = sessions st0) as Hsame by (intros; by destruct (write_opens env 0)).
  cbn [uuid incr_failures]. rewrite Hsame.
  cbn [sessions with_sessions]. rewrite lookup_insert_eq, Hw1. cbn zeta.
  fold d2. rewrite Hc.
  change (uuid d2) with (uuid d). change (notify_chat_id d2) with (notify_chat_id d).
  rewrite overwritten. fold st2.
  by destruct (max_failures cfg <=? consecutive_failures d + 2).
Qed.

(** X12: when the probe raises and the failure handler cannot write, the
    write error leaves [execute_heartbeat] and
    [_execute_heartbeat_and_reschedule]: the counter has gone up in the
    live index, no notification is sent, and no next heartbeat is
    scheduled. On the disk the task's record is as it was when the error
    came at [open]; when it came once the file had been opened, the record
    is destroyed: the file named after the record's uuid holds nothing
    that loads. *)
Theorem failed_probe_unwritten_escapes (env : Env) (u : string)
    (d : SessionData) (st : SessionManager) (e0 e : exn) :
  sessions st !! u = Some d → probe_outcome env = raise e0 →
  write_raises env 0%nat = Some e →
  let st0 := with_sessions (insert u (incr_failures d)) st in
  let st' := if write_opens env 0
             then with_files (insert (uuid d) FileBad) st0 else st0 in
  execute_heartbeat cfg env u st = (raise e, st') ∧
  _execute_heartbeat_and_reschedule cfg env u st = (raise e, st') ∧
  sessions st' !! u = Some (incr_failures d) ∧
  files st' = (if write_opens env 0
               then <[uuid d := FileBad]> (files st) else files st) ∧
  jobs st' = jobs st ∧ log st' = log st ∧
  (write_opens env 0 = true →
   _load_session_file (uuid d) st' = raise (Exn OtherException "Invalid session file")).
Proof.
  intros Hu Hp Hw st0 st'.
  assert (execute_heartbeat cfg env u st = (raise e, st')) as Hrun.
  { unfold execute_heartbeat, heartbeat_attempt. unfold probe_outcome in Hp.
    rewrite Hu, Hp. unfold _handle_failure, _save_session_file.
    by rewrite Hu, Hw. }
  split; [exact Hrun|]. split.
  { unfold _execute_heartbeat_and_reschedule. by rewrite Hrun. }
  split; [subst st'; destruct (write_opens env 0); apply lookup_insert_eq|].
  split; [subst st'; by destruct (write_opens env 0)|].
  split; [subst st'; by destruct (write_opens env 0)|].
  split; [subst st'; by destruct (write_opens env 0)|].
  intros Ho. subst st'. rewrite Ho. unfold _load_session_file.
  cbn [files with_files]. by rewrite lookup_insert_eq.
Qed.

End LifecycleFacts.

Section ThresholdFacts.
Variable cfg : Config.

(** ** Any threshold *)

Lemma execute_heartbeats_cons (env : Env) (envs : list Env) (u : string)
    (st : SessionManager) :
  execute_heartbeats cfg (env :: envs) u st =
    execute_heartbeats cfg envs u (execute_heartbeat cfg env u st).2.
Proof. reflexivity. Qed.

Lemma same_identity_refl (d : SessionData) : same_identity d d.
Proof. by repeat split. Qed.

Lemma same_identity_trans (d1 d2 d3 : SessionData) :
  same_identity d1 d2 → same_identity d2 d3 → same_identity d1 d3.
Proof.
  intros (? & ? & ? & ? & ?) (? & ? & ? & ? & ?). repeat split; congruence.
Qed.

(** One failed probe below the threshold. *)
Lemma failing_step (env : Env) (u : string) (d : SessionData)
    (st : SessionManager) :
  sessions st !! u = Some d → fails env →
  consecutive_failures d + 1 < max_failures cfg →
  let st1 := (execute_heartbeat cfg env u st).2 in
  sessions st1 !! u = Some (incr_failures d) ∧
  cleanups_for u (log st1) = cleanups_for u (log st) ∧
  jobs st1 = jobs st.
Proof.
  intros Hu [Hp Hw] Hlt.
  pose proof (execute_heartbeat_failure cfg env u d st Hu Hp Hw) as E.
  cbn zeta in E.
  assert ((max_failures cfg <=? consecutive_failures (incr_failures d)) = false) as Hb
    by (apply Z.leb_gt; cbn; lia).
  rewrite Hb in E. cbn zeta. rewrite E. cbn [snd].
  pose proof (handled_state_fields u (incr_failures d)
    (send_failure (notify_chat_id (incr_failures d)) u (failure_text env)) st)
    as (Hs & _ & Hj & _ & Hl).
  rewrite Hs, Hj, Hl. split; [apply lookup_insert_eq|]. split; [|done].
  apply cleanups_for_handled. discriminate.
Qed.

(** The failed probe that meets the threshold. *)
Lemma failing_last (env : Env) (u : string) (d : SessionData)
    (st : SessionManager) :
  sessions st !! u = Some d → fails env →
  max_failures cfg ≤ consecutive_failures d + 1 →
  let st1 := (execute_heartbeat cfg env u st).2 in
  sessions st1 !! u = None ∧ jobs st1 !! u = None ∧
  cleanups_for u (log st1) = S (cleanups_for u (log st)).
Proof.
  intros Hu [Hp Hw] Hge.
  pose proof (execute_heartbeat_failure cfg env u d st Hu Hp Hw) as E.
  cbn zeta in E.
  assert ((max_failures cfg <=? consecutive_failures (incr_failures d)) = true) as Hb
    by (apply Z.leb_le; cbn; lia).
  rewrite Hb in E. cbn zeta. rewrite E. cbn [snd].
  set (d' := incr_failures d) in *.
  pose proof (handled_state_fields u d'
    (send_failure (notify_chat_id d') u (failure_text env)) st)
    as (Hs & _ & Hj & _ & Hl).
  set (st0 := emit _ _) in *.
  assert (sessions st0 !! u = Some d') as Hu0
    by (rewrite Hs; apply lookup_insert_eq).
  destruct (cleanup_task_live env u (max_failures_reason cfg) st0 d' Hu0)
    as (Hcs & _ & Hcj & _ & Hcl).
  rewrite Hcs, Hcj, Hcl, !lookup_delete_eq. split; [done|]. split; [done|].
  assert (cleanups_for u (log st0) = cleanups_for u (log st)) as Hn
    by (rewrite Hl; apply cleanups_for_handled; discriminate).
  unfold remove_file. destruct (unlink_raises env u).
  - cbn [log emit]. rewrite cleanups_for_app, cleanups_for_cleanup, Hn. lia.
  - cbn [files emit]. destruct (files st0 !! u); cbn [log emit with_files].
    + rewrite !cleanups_for_app, cleanups_for_cleanup, Hn.
      change (cleanups_for u [FileDeleted u]) with 0%nat. lia.
    + rewrite cleanups_for_app, cleanups_for_cleanup, Hn. lia.
Qed.

Lemma failures_below_threshold (envs : list Env) (u : string) (d : SessionData)
    (st : SessionManager) :
  sessions st !! u = Some d → Forall fails envs →
  consecutive_failures d + Z.of_nat (length envs) < max_failures cfg →
  let st' := execute_heartbeats cfg envs u st in
  ∃ d', sessions st' !! u = Some d' ∧
        consecutive_failures d' = consecutive_failures d + Z.of_nat (length envs) ∧
        same_identity d d' ∧ last_heartbeat d' = last_heartbeat d ∧
        cleanups_for u (log st') = cleanups_for u (log st) ∧
        jobs st' = jobs st.
Proof.
  revert d st. induction envs as [|env envs IH]; intros d st Hu Hall Hlt.
  - exists d. cbn. repeat split; try done. lia.
  - apply Forall_cons in Hall as [Henv Hall]. cbn [length] in Hlt.
    rewrite execute_heartbeats_cons.
    destruct (failing_step env u d st Hu Henv) as (Hu1 & Hn1 & Hj1); [lia|].
    destruct (IH (incr_failures d) _ Hu1 Hall) as (d' & Hd' & Hc & Hid & Hh & Hn & Hj).
    { cbn [consecutive_failures incr_failures]. lia. }
    exists d'. split; [exact Hd'|]. split.
    { rewrite Hc. cbn [consecutive_failures incr_failures length]. lia. }
    split; [exact Hid|]. split; [exact Hh|]. split; [by rewrite Hn|by rewrite Hj].
Qed.

(** X13: for any threshold [max_failures], a live task whose probe fails at
    every execution (the handler's write going through) stays live as long
    as its counter is below the threshold, the counter going up by one per
    execution with no other field of the record changed, no cleanup
    notification sent and its job left alone; the execution that brings the
    counter to the threshold takes the task out of the live index, cancels
    its job and sends exactly one cleanup notification. *)
Theorem failures_up_to_threshold (envs : list Env) (u : string) (d : SessionData)
    (st : SessionManager) :
  sessions st !! u = Some d → Forall fails envs →
  let st' := execute_heartbeats cfg envs u st in
  let count := consecutive_failures d + Z.of_nat (length envs) in
  (count < max_failures cfg →
     ∃ d', sessions st' !! u = Some d' ∧
           consecutive_failures d' = count ∧
           same_identity d d' ∧ last_heartbeat d' = last_heartbeat d ∧
           cleanups_for u (log st') = cleanups_for u (log st) ∧
           jobs st' = jobs st) ∧
  (envs ≠ [] → count = max_failures cfg →
     sessions st' !! u = None ∧ jobs st' !! u = None ∧
     cleanups_for u (log st') = S (cleanups_for u (log st))).
Proof.
  intros Hu Hall st' count. split.
  { intros Hlt. by apply failures_below_threshold. }
  subst st' count. intros Hne Hcount.
  destruct (exists_last Hne) as (front & env & ->).
  apply Forall_app in Hall as [Hfront [Hlast _]%Forall_cons].
  rewrite length_app in Hcount. cbn [length] in Hcount.
  destruct (failures_below_threshold front u d st Hu Hfront)
    as (d' & Hd' & Hc & _ & _ & Hn & _); [lia|].
  unfold execute_heartbeats. rewrite foldl_app. cbn [foldl].
  fold (execute_heartbeats cfg front u st).
  destruct (failing_last env u d' _ Hd' Hlast) as (Hs & Hj & Hcl); [lia|].
  by rewrite Hs, Hj, Hcl, Hn.
Qed.

(** ** What a heartbeat leaves alone *)

Lemma identity_insert (u : string) (d d1 : SessionData)
    (m m' : gmap string SessionData) :
  m !! u = Some d → same_identity d d1 → m' = <[u := d1]> m →
  ∀ v d', m' !! v = Some d' →
    ∃ d0, m !! v = Some d0 ∧ same_identity d0 d' ∧ (v ≠ u → d' = d0).
Proof.
  intros Hu Hid -> v d'. destruct (decide (u = v)) as [<-|Hne].
  - rewrite lookup_insert_eq. intros [= <-]. exists d.
    split; [done|]. split; [done|]. by intros [].
  - rewrite lookup_insert_ne by done. intros Hv. exists d'.
    split; [done|]. split; [apply same_identity_refl | done].
Qed.

Lemma identity_cleanup_task (env : Env) (u reason : string) (st : SessionManager) :
  ∀ v d', sessions (cleanup_task env u reason st) !! v = Some d' →
          sessions st !! v = Some d'.
Proof.
  intros v d'. destruct (sessions st !! u) as [d|] eqn:Hu;
    [|by rewrite cleanup_task_absent].
  destruct (cleanup_task_live env u reason st d Hu) as (-> & _).
  by intros [_ ?]%lookup_delete_Some.
Qed.

Lemma identity_handle_success (env : Env) (n : nat) (u : string)
    (st : SessionManager) :
  ∀ v d', sessions (_handle_success env n u st).2 !! v = Some d' →
    ∃ d0, sessions st !! v = Some d0 ∧ same_identity d0 d' ∧ (v ≠ u → d' = d0).
Proof.
  unfold _handle_success, _save_session_file.
  destruct (sessions st !! u) as [d|] eqn:Hu.
  - cbn zeta. destruct (write_raises env n); [destruct (write_opens env n)|];
      cbn [snd];
      by apply (identity_insert u d (set_heartbeat_success (utcnow env) d)).
  - intros v d' Hv. exists d'. split; [done|].
    split; [apply same_identity_refl | done].
Qed.

Lemma identity_handle_failure (env : Env) (n : nat) (u : string) (error : exn)
    (st : SessionManager) :
  ∀ v d', sessions (_handle_failure cfg env n u error st).2 !! v = Some d' →
    ∃ d0, sessions st !! v = Some d0 ∧ same_identity d0 d' ∧ (v ≠ u → d' = d0).
Proof.
  unfold _handle_failure, _save_session_file.
  destruct (sessions st !! u) as [d|] eqn:Hu.
  - cbn zeta. destruct (write_raises env n); cbn [snd];
      [destruct (write_opens env n);
       by apply (identity_insert u d (incr_failures d))|].
    destruct (max_failures cfg <=? _); cbn [snd];
      [intros v d' Hv%identity_cleanup_task; revert v d' Hv|];
      by apply (identity_insert u d (incr_failures d)).
  - intros v d' Hv. exists d'. split; [done|].
    split; [apply same_identity_refl | done].
Qed.

Lemma identity_compose (u : string) (m1 m2 m3 : gmap string SessionData) :
  (∀ v d', m2 !! v = Some d' →
     ∃ d0, m1 !! v = Some d0 ∧ same_identity d0 d' ∧ (v ≠ u → d' = d0)) →
  (∀ v d', m3 !! v = Some d' →
     ∃ d0, m2 !! v = Some d0 ∧ same_identity d0 d' ∧ (v ≠ u → d' = d0)) →
  ∀ v d', m3 !! v = Some d' →
    ∃ d0, m1 !! v = Some d0 ∧ same_identity d0 d' ∧ (v ≠ u → d' = d0).
Proof.
  intros H12 H23 v d3 (d2 & (d1 & Hd1 & Hid1 & He1)%H12 & Hid2 & He2)%H23.
  exists d1. split; [done|]. split; [by eapply same_identity_trans|].
  intros Hne. by rewrite He2, He1.
Qed.

(** X14: whatever the probe and the disk do, a run of a task's timer
    changes no record but that task's, creates no task, and in that task's
    record changes nothing but the failure counter and the time of the
    last heartbeat: uuid, account, credential, chat and creation time stay
    as they were. *)
Theorem heartbeat_keeps_identity (env : Env) (u : string) (st : SessionManager) :
  ∀ v d', sessions (_execute_heartbeat_and_reschedule cfg env u st).2 !! v = Some d' →
    ∃ d0, sessions st !! v = Some d0 ∧ same_identity d0 d' ∧ (v ≠ u → d' = d0).
Proof.
  assert (∀ v d', sessions (execute_heartbeat cfg env u st).2 !! v = Some d' →
    ∃ d0, sessions st !! v = Some d0 ∧ same_identity d0 d' ∧ (v ≠ u → d' = d0))
    as Hrun.
  { unfold execute_heartbeat. destruct (sessions st !! u) as [d|] eqn:Hu.
    2:{ intros v d' Hv. exists d'. split; [done|].
        split; [apply same_identity_refl | done]. }
    assert (∀ v d', sessions (heartbeat_attempt cfg env u st).2 !! v = Some d' →
      ∃ d0, sessions st !! v = Some d0 ∧ same_identity d0 d' ∧ (v ≠ u → d' = d0))
      as Hattempt.
    { unfold heartbeat_attempt.
      destruct (heartbeat (tg_heartbeat env)).1 as [e|[|]].
      - intros v d' Hv. exists d'. split; [done|].
        split; [apply same_identity_refl | done].
      - apply identity_handle_success.
      - apply identity_handle_failure. }
    destruct (heartbeat_attempt cfg env u st) as [[e|[]] st1]; [|exact Hattempt].
    cbn [snd] in Hattempt.
    destruct (heartbeat (tg_heartbeat env)).1;
      (eapply identity_compose; [exact Hattempt | apply identity_handle_failure]). }
  unfold _execute_heartbeat_and_reschedule.
  destruct (execute_heartbeat cfg env u st) as [[e|[]] st1]; [exact Hrun|].
  cbn [snd] in Hrun. destruct (sessions st1 !! u); [|exact Hrun].
  destruct (schedule_next_indices cfg env u st1) as (-> & _). exact Hrun.
Qed.

(** ** Jobs belong to live tasks *)

Lemma jobs_are_live_mono (st st' : SessionManager) :
  (∀ u, is_Some (sessions st !! u) → is_Some (sessions st' !! u)) →
  jobs st' = jobs st → jobs_are_live st → jobs_are_live st'.
Proof. intros Hs Hj Hinv u. rewrite Hj. intros Hu. by apply Hs, Hinv. Qed.

Lemma jobs_are_live_cleanup_task (env : Env) (u reason : string)
    (st : SessionManager) :
  jobs_are_live st → jobs_are_live (cleanup_task env u reason st).
Proof.
  intros Hinv. destruct (sessions st !! u) as [d|] eqn:Hu;
    [|by rewrite cleanup_task_absent].
  destruct (cleanup_task_live env u reason st d Hu) as (Hs & _ & Hj & _).
  intros v. rewrite Hs, Hj. intros [j [Hne Hv]%lookup_delete_Some].
  rewrite lookup_delete_ne by done. apply Hinv. eauto.
Qed.

Lemma jobs_are_live_schedule_next (env : Env) (u : string) (st : SessionManager) :
  is_Some (sessions st !! u) → jobs_are_live st →
  jobs_are_live (schedule_next cfg env u st).2.
Proof.
  intros Hu Hinv. unfold schedule_next.
  destruct (_calculate_next_interval cfg _); [done|].
  intros v. cbn [snd jobs sessions with_jobs].
  intros [j [[<- _]|[_ Hv]]%lookup_insert_Some]; [done|]. apply Hinv. eauto.
Qed.

Lemma jobs_are_live_start_heartbeat (env : Env) (u : string) (st : SessionManager) :
  jobs_are_live st → jobs_are_live (start_heartbeat cfg env u st).2.
Proof.
  intros Hinv. unfold start_heartbeat.
  destruct (sessions st !! u) eqn:Hu; [|done].
  apply jobs_are_live_schedule_next; [by rewrite Hu | done].
Qed.

Lemma jobs_are_live_save_register (env : Env) (n : nat) (d : SessionData)
    (st : SessionManager) :
  jobs_are_live st →
  jobs_are_live (register d (_save_session_file env n d st).2).
Proof.
  intros Hinv. apply (jobs_are_live_mono st); [| |done].
  - intros u Hu. unfold _save_session_file.
    destruct (write_raises env n); [destruct (write_opens env n)|]; cbn;
      (destruct (decide (uuid d = u)) as [<-|Hne];
        [rewrite lookup_insert_eq; eauto | by rewrite lookup_insert_ne]).
  - unfold _save_session_file.
    by destruct (write_raises env n), (write_opens env n).
Qed.

Lemma jobs_are_live_create_task (env : Env) (session : string) (chat : Z)
    (st : SessionManager) :
  jobs_are_live st → jobs_are_live (create_task cfg env session chat st).2.
Proof.
  intros Hinv. unfold create_task.
  destruct (validate_session (tg_validate env)).1 as [e|info]; [done|].
  cbn zeta. set (tg := ai_tg_id info).
  assert (jobs_are_live (replace_existing env tg st)) as Hinv1.
  { unfold replace_existing. destruct (tg_id_to_uuid st !! tg); [|done].
    by apply jobs_are_live_cleanup_task. }
  set (st1 := replace_existing env tg st) in *.
  set (d := new_session_data env tg session chat).
  pose proof (jobs_are_live_save_register env 0 d st1 Hinv1) as Hinv2.
  destruct (_save_session_file env 0 d st1) as [[e|[]] st2] eqn:Hsave.
  - cbn [snd]. apply (jobs_are_live_mono st1); [| |done];
      unfold _save_session_file in Hsave;
      destruct (write_raises env 0), (write_opens env 0); by simplify_eq.
  - cbn [snd] in Hinv2.
    pose proof (jobs_are_live_start_heartbeat env (uuid d) _ Hinv2) as Hinv3.
    by destruct (start_heartbeat cfg env (uuid d) (register d st2)) as [[e|[]] st3].
Qed.

Lemma jobs_are_live_insert (st : SessionManager) (u : string) (d : SessionData) :
  jobs_are_live st → jobs_are_live (with_sessions (insert u d) st).
Proof.
  intros Hinv. apply (jobs_are_live_mono st); [|done|done].
  intros v Hv. cbn. destruct (decide (u = v)) as [<-|Hne];
    [rewrite lookup_insert_eq; eauto | by rewrite lookup_insert_ne].
Qed.

Lemma jobs_are_live_handle_success (env : Env) (n : nat) (u : string)
    (st : SessionManager) :
  jobs_are_live st → jobs_are_live (_handle_success env n u st).2.
Proof.
  intros Hinv. unfold _handle_success, _save_session_file.
  destruct (sessions st !! u) as [d|]; [|done]. cbn zeta.
  pose proof (jobs_are_live_insert st u (set_heartbeat_success (utcnow env) d) Hinv).
  by destruct (write_raises env n), (write_opens env n).
Qed.

Lemma jobs_are_live_handle_failure (env : Env) (n : nat) (u : string)
    (error : exn) (st : SessionManager) :
  jobs_are_live st → jobs_are_live (_handle_failure cfg env n u error st).2.
Proof.
  intros Hinv. unfold _handle_failure, _save_session_file.
  destruct (sessions st !! u) as [d|]; [|done]. cbn zeta.
  pose proof (jobs_are_live_insert st u (incr_failures d) Hinv).
  destruct (write_raises env n); [by destruct (write_opens env n)|].
  destruct (max_failures cfg <=? _); cbn [snd]; [|done].
  by apply jobs_are_live_cleanup_task.
Qed.

Lemma jobs_are_live_reschedule (env : Env) (u : string) (st : SessionManager) :
  jobs_are_live st →
  jobs_are_live (_execute_heartbeat_and_reschedule cfg env u st).2.
Proof.
  intros Hinv.
  assert (jobs_are_live (execute_heartbeat cfg env u st).2) as Hrun.
  { unfold execute_heartbeat. destruct (sessions st !! u); [|done].
    assert (jobs_are_live (heartbeat_attempt cfg env u st).2) as Hattempt.
    { unfold heartbeat_attempt.
      destruct (heartbeat (tg_heartbeat env)).1 as [e|[|]]; [done| |].
      - by apply jobs_are_live_handle_success.
      - by apply jobs_are_live_handle_failure. }
    destruct (heartbeat_attempt cfg env u st) as [[e|[]] st1]; [|done].
    cbn [snd] in Hattempt.
    destruct (heartbeat (tg_heartbeat env)).1; by apply jobs_are_live_handle_failure. }
  unfold _execute_heartbeat_and_reschedule.
  destruct (execute_heartbeat cfg env u st) as [[e|[]] st1]; [done|].
  cbn [snd] in Hrun. destruct (sessions st1 !! u) eqn:Hu; [|done].
  apply jobs_are_live_schedule_next; [by rewrite Hu | done].
Qed.

Lemma jobs_are_live_load_kept (env : Env) (all_sessions : list (string * SessionData))
    (keep : list string) (st : SessionManager) :
  jobs_are_live st → jobs_are_live (load_kept cfg env all_sessions keep st).2.
Proof.
  revert st. induction keep as [|u keep IH]; intros st Hinv; [done|]. simpl.
  destruct (dict_get u all_sessions) as [d|]; [|done].
  assert (jobs_are_live (register d st)) as Hinv1.
  { apply (jobs_are_live_mono st); [|done|done]. intros v Hv. cbn.
    destruct (decide (uuid d = v)) as [<-|Hne];
      [rewrite lookup_insert_eq; eauto | by rewrite lookup_insert_ne]. }
  pose proof (jobs_are_live_start_heartbeat env (uuid d) _ Hinv1) as Hinv2.
  destruct (start_heartbeat cfg env (uuid d) (register d st)) as [[e|[]] st2];
    [done|]. by apply IH.
Qed.

Lemma jobs_are_live_initialize (env : Env) (st : SessionManager) :
  jobs_are_live st → jobs_are_live (initialize cfg env st).2.
Proof.
  intros Hinv. unfold initialize.
  set (all_sessions := (load_all (glob env st) st).1).
  set (selected := select (group_by_tg_id all_sessions)).
  pose proof (jobs_are_live_load_kept env all_sessions
                (iterate env selected.1) st Hinv) as Hinv1.
  destruct (load_kept cfg env all_sessions (iterate env selected.1) st)
    as [[e|[]] st1]; [done|]. cbn [snd] in Hinv1.
  destruct (discard_indices env all_sessions (iterate env selected.2) st1)
    as (Hs & _ & Hj).
  apply (jobs_are_live_mono st1); [by intros u; rewrite Hs | done | done].
Qed.

(** X15: in every reachable state, the intermediate states of [initialize]
    and [create_task] included, every job of the scheduler belongs to a
    live task: no operation leaves a timer behind for a task that is
    gone. *)
Theorem reachable_jobs_are_live (st : SessionManager) :
  reachable cfg st → jobs_are_live st.
Proof.
  induction 1 as [disk | st env _ IH _ | st env k _ IH _
                 | st env session chat _ IH _
                 | st env session chat info _ IH _
                 | st env u reason _ IH | st env u _ IH].
  - intros u. cbn. rewrite lookup_empty. by intros [? ?].
  - by apply jobs_are_live_initialize.
  - by apply jobs_are_live_load_kept.
  - by apply jobs_are_live_create_task.
  - assert (jobs_are_live (replace_existing env (ai_tg_id info) st)) as Hinv1.
    { unfold replace_existing.
      destruct (tg_id_to_uuid st !! ai_tg_id info); [|done].
      by apply jobs_are_live_cleanup_task. }
    apply (jobs_are_live_mono (replace_existing env (ai_tg_id info) st));
      [| |done]; unfold _save_session_file;
      by destruct (write_raises env 0), (write_opens env 0).
  - by apply jobs_are_live_cleanup_task.
  - by apply jobs_are_live_reschedule.
Qed.

End ThresholdFacts.

Section StartupFacts.
Variable cfg : Config.

(** ** Startup *)

Lemma discard_events_deleted (env : Env) (all_sessions : list (string * SessionData))
    (del : list string) (stem : string) :
  FileDeleted stem ∈ discard_events env all_sessions del → stem ∈ del.
Proof.
  unfold discard_events. intros (u & Hin & Hu)%list_elem_of_bind.
  destruct (dict_get u all_sessions); [|by apply elem_of_nil in Hin].
  apply elem_of_cons in Hin as [?|Hin]; [done|].
  destruct (unlink_raises env u); [by apply elem_of_nil in Hin|].
  apply list_elem_of_singleton in Hin. by simplify_eq.
Qed.

(** What [lifespan_startup] leaves, in terms of the two sets [initialize] selects. *)
Lemma startup_runs (env : Env) (disk : gmap string file) :
  0 ≤ jitter_seconds cfg → well_named disk →
  let st := new_manager disk in
  let all_sessions := (load_all (glob env st) st).1 in
  let sel := select (group_by_tg_id all_sessions) in
  NoDup all_sessions.*1 ∧
  (∀ u d, dict_get u all_sessions = Some d ↔ disk !! u = Some (FileOk d)) ∧
  (∀ u, u ∈ sel.1 → is_Some (dict_get u all_sessions)) ∧
  (∀ u, u ∈ sel.2 → is_Some (dict_get u all_sessions)) ∧
  ∃ st', lifespan_startup cfg env disk = (ret tt, st') ∧
    (∀ u, sessions st' !! u =
          if decide (u ∈ sel.1) then dict_get u all_sessions else None) ∧
    (∀ u, is_Some (jobs st' !! u) ↔ u ∈ sel.1) ∧
    (∀ u, files st' !! u =
          if decide (u ∈ sel.2)
          then (if unlink_raises env u then disk !! u else None)
          else disk !! u) ∧
    log st' = discard_events env all_sessions (iterate env sel.2).
Proof.
  intros Hj Hnamed st all_sessions sel. unfold lifespan_startup. fold st.
  unfold initialize. fold all_sessions. fold sel.
  destruct (load_all_keyed (glob env st) st) as [Hnd Hkey0].
  fold all_sessions in Hnd, Hkey0.
  assert (∀ u d, dict_get u all_sessions = Some d → uuid d = u) as Hkey.
  { intros u d Hd%dict_get_elem_of. by apply Hkey0. }
  assert (∀ u d, dict_get u all_sessions = Some d ↔ disk !! u = Some (FileOk d))
    as Hload.
  { intros u d. unfold all_sessions. rewrite load_all_persisted by done.
    split; [by intros [_ ?]|]. intros Hf. split; [|done].
    apply glob_elem_of. cbn. by rewrite Hf. }
  assert (∀ u, u ∈ sel.1 → is_Some (dict_get u all_sessions)) as Hkeep.
  { intros u Hu. apply keep_spec in Hu as (d & Hd & _); [eauto | done]. }
  assert (∀ u, u ∈ sel.2 → is_Some (dict_get u all_sessions)) as Hdel.
  { intros u Hu. apply delete_spec in Hu as (d & w & Hd & _); [eauto | done]. }
  split; [exact Hnd|]. split; [exact Hload|]. split; [exact Hkeep|].
  split; [exact Hdel|].
  destruct (load_kept_runs cfg env all_sessions (iterate env sel.1) st Hj)
    as (st1 & Hrun1 & Hf1 & Hl1 & Hs_in & Hs_out & Hj_in & Hj_out).
  { apply iterate_NoDup. }
  { exact Hkey. }
  { intros u Hu%iterate_elem_of. by apply Hkeep. }
  destruct (discard_runs env all_sessions (iterate env sel.2) st1)
    as (st2 & Hrun2 & Hl2 & Hf_in & Hf_out).
  { apply iterate_NoDup. }
  { intros u Hu%iterate_elem_of. by apply Hdel. }
  { intros u Hu%iterate_elem_of. destruct (Hdel u Hu) as [d Hd].
    rewrite Hf1. cbn. apply Hload in Hd. by rewrite Hd. }
  destruct (discard_indices env all_sessions (iterate env sel.2) st1)
    as (Hs2 & _ & Hj2).
  rewrite Hrun2 in Hs2, Hj2. cbn [snd] in Hs2, Hj2.
  rewrite Hrun1. exists st2. split; [exact Hrun2|]. split; [|split; [|split]].
  - intros u. rewrite Hs2. destruct (decide (u ∈ sel.1)) as [Hu|Hu].
    + apply Hs_in. by apply iterate_elem_of.
    + rewrite Hs_out by (by rewrite iterate_elem_of). apply lookup_empty.
  - intros u. rewrite Hj2. split.
    + intros Hjob. destruct (decide (u ∈ sel.1)) as [Hu|Hu]; [done|].
      rewrite Hj_out in Hjob by (by rewrite iterate_elem_of).
      cbn in Hjob. rewrite lookup_empty in Hjob. by destruct Hjob.
    + intros Hu. apply Hj_in. by apply iterate_elem_of.
  - intros u. destruct (decide (u ∈ sel.2)) as [Hu|Hu].
    + rewrite Hf_in by (by apply iterate_elem_of). by rewrite Hf1.
    + rewrite Hf_out by (by rewrite iterate_elem_of). by rewrite Hf1.
  - by rewrite Hl2, Hl1.
Qed.

(** X16: at startup, on a directory whose records sit in the files named
    after them, a file that cannot be read or validated is skipped: it is
    left in place, its stem is neither live nor scheduled, and nothing
    about it is sent or deleted. *)
Theorem startup_skips_unreadable (env : Env) (disk : gmap string file) :
  0 ≤ jitter_seconds cfg → well_named disk →
  ∃ st', lifespan_startup cfg env disk = (ret tt, st') ∧
    ∀ stem, disk !! stem = Some FileBad →
      files st' !! stem = Some FileBad ∧
      sessions st' !! stem = None ∧
      jobs st' !! stem = None ∧
      cleanups_for stem (log st') = 0%nat ∧
      FileDeleted stem ∉ log st'.
Proof.
  intros Hj Hnamed.
  destruct (startup_runs env disk Hj Hnamed)
    as (_ & Hload & Hkeep & Hdel & st' & Hrun & Hs & Hjobs & Hf & Hl).
  exists st'. split; [exact Hrun|]. intros stem Hbad.
  set (st := new_manager disk) in *.
  set (all_sessions := (load_all (glob env st) st).1) in *.
  set (sel := select (group_by_tg_id all_sessions)) in *.
  assert (dict_get stem all_sessions = None) as Hnone.
  { destruct (dict_get stem all_sessions) as [d|] eqn:Hd; [|done].
    apply Hload in Hd. congruence. }
  assert (stem ∉ sel.1) as Hk.
  { intros [d Hd]%Hkeep. congruence. }
  assert (stem ∉ sel.2) as Hdl.
  { intros [d Hd]%Hdel. congruence. }
  split; [by rewrite Hf, decide_False|]. split; [by rewrite Hs, decide_False|].
  split.
  { destruct (jobs st' !! stem) eqn:Hjob; [|done].
    destruct Hk. apply Hjobs. by rewrite Hjob. }
  rewrite Hl. split.
  - apply discard_events_other. by rewrite iterate_elem_of.
  - intros Hin%discard_events_deleted. by apply iterate_elem_of in Hin.
Qed.

Lemma selected_once (all_sessions : list (string * SessionData)) (u : string)
    (d : SessionData) :
  NoDup all_sessions.*1 → dict_get u all_sessions = Some d →
  let sel := select (group_by_tg_id all_sessions) in
  (u ∈ sel.1 ∨ u ∈ sel.2) ∧ ¬ (u ∈ sel.1 ∧ u ∈ sel.2).
Proof.
  intros Hnd Hd sel.
  destruct (own_group_has_winner all_sessions u d Hd) as [w Hw]. split.
  - destruct (decide (u = w)) as [->|Hne].
    + left. apply keep_spec; [done|]. eauto.
    + right. apply delete_spec; [done|]. eauto.
  - intros [(d1 & Hd1 & Hw1)%keep_spec (d2 & w2 & Hd2 & Hw2 & Hne)%delete_spec];
      [|done|done].
    assert (d1 = d) as -> by congruence. assert (d2 = d) as -> by congruence.
    congruence.
Qed.


(** X18: on a directory that already has one readable record per account,
    each in the file named after it, startup loads and schedules every
    readable record, leaves the directory as it is and sends nothing. *)
Theorem startup_on_reconciled_disk (env : Env) (disk : gmap string file) :
  0 ≤ jitter_seconds cfg → well_named disk → one_file_per_account disk →
  ∃ st', lifespan_startup cfg env disk = (ret tt, st') ∧
    (∀ u d, sessions st' !! u = Some d ↔ disk !! u = Some (FileOk d)) ∧
    (∀ u d, sessions st' !! u = Some d → is_Some (jobs st' !! u)) ∧
    files st' = disk ∧
    log st' = [].
Proof.
  intros Hj Hnamed Hone.
  destruct (startup_runs env disk Hj Hnamed)
    as (Hnd & Hload & Hkeep & Hdel & st' & Hrun & Hs & Hjobs & Hf & Hl).
  exists st'. split; [exact Hrun|].
  set (st := new_manager disk) in *.
  set (all_sessions := (load_all (glob env st) st).1) in *.
  set (sel := select (group_by_tg_id all_sessions)) in *.
  assert (∀ u d, dict_get u all_sessions = Some d → uuid d = u) as Hkey.
  { intros u d Hd%Hload. by apply Hnamed. }
  assert (sel.2 = ∅) as Hempty.
  { apply elem_of_equiv_empty_L. intros u (d & w & Hd & Hw & Hne)%delete_spec; [|done].
    destruct (winner_spec _ _ Hw) as (c & Hin & _).
    destruct (member_record all_sessions Hnd _ _ _ Hin) as (dw & Hdw & Htg & _).
    apply Hne. rewrite <- (Hkey u d Hd), <- (Hkey w dw Hdw). f_equal.
    apply Hone; [| |done]; unfold persisted.
    - rewrite (Hkey u d Hd). by apply Hload.
    - rewrite (Hkey w dw Hdw). by apply Hload. }
  assert (∀ u d, dict_get u all_sessions = Some d → u ∈ sel.1) as Hall.
  { intros u d Hd. destruct (selected_once all_sessions u d Hnd Hd) as [[?|Hu] _];
      [done|]. fold sel in Hu. rewrite Hempty in Hu. by apply elem_of_empty in Hu. }
  split; [|split; [|split]].
  - intros u d. rewrite Hs, <- Hload. destruct (decide (u ∈ sel.1)) as [Hu|Hu]; [done|].
    split; [done|]. intros Hd. destruct Hu. by eapply Hall.
  - intros u d. rewrite Hs. destruct (decide (u ∈ sel.1)) as [Hu|Hu]; [|done].
    intros _. by apply Hjobs.
  - apply map_eq. intros u. rewrite Hf, Hempty. by rewrite decide_False by set_solver.
  - rewrite Hl, Hempty. unfold iterate, in_rank_order. by rewrite elements_empty.
Qed.

End StartupFacts.

(** ** The task routes *)

Section RouteFacts.
Variable cfg : Config.
Import Validators.


(** X20: how [POST /api/task/create] reports an unusable credential depends
    on the invocation that meets it. Met at the first invocation, the gate
    turns it into a [ValueError] and the route answers 400 with the gate's
    message; met at the retry that follows a flood wait, it leaves the gate
    as it is and the route answers 500. In both cases the state is
    untouched. *)
Theorem create_keepalive_task_rejections (env : Env) (session : string) (chat : Z)
    (st : SessionManager) (e : exn) :
  exn_class_of e = AuthKeyUnregisteredError →
  (tg_validate env 0%nat = raise e →
     create_keepalive_task cfg env session chat st =
       (HTTPException 400 "Session expired or invalid", st)) ∧
  (∀ e0 seconds,
     tg_validate env 0%nat = raise e0 →
     exn_class_of e0 = FloodWaitError seconds →
     tg_validate env 1%nat = raise e →
     create_keepalive_task cfg env session chat st =
       (HTTPException 500 "Internal server error during task creation", st)).
Proof.
  intros He. split.
  - intros H0. unfold create_keepalive_task, create_task, validate_session,
      handle_telegram_errors. by rewrite H0, He.
  - intros e0 seconds H0 He0 H1.
    unfold create_keepalive_task, create_task, validate_session,
      handle_telegram_errors. rewrite H0, He0. cbn [fst]. by rewrite H1, He.
Qed.

(** X21: a 201 answer of [POST /api/task/create] names a task that is live:
    the uuid in the answer is the key of a live record with that uuid, a
    clean counter and the credential and chat of the request; the account
    of the record points at it, a job is scheduled for it, and the
    verification link is [/verifyCode/] followed by the uuid. *)
Theorem created_answer_names_live_task (env : Env) (session : string) (chat : Z)
    (st : SessionManager) :
  let r := (create_keepalive_task cfg env session chat st).1 in
  let st' := (create_keepalive_task cfg env session chat st).2 in
  status_of r = 201 →
  ∃ u d message,
    r = JSONResponse 201 [("status", JString "created"); ("uuid", JString u);
                          ("verify_url", JString ("/verifyCode/" +:+ u));
                          ("message", JString message)] ∧
    sessions st' !! u = Some d ∧
    uuid d = u ∧ consecutive_failures d = 0 ∧ last_heartbeat d = None ∧
    session_string d = session ∧ notify_chat_id d = chat ∧
    tg_id_to_uuid st' !! tg_id d = Some u ∧
    is_Some (jobs st' !! u).
Proof.
  unfold create_keepalive_task.
  destruct (create_task cfg env session chat st) as [[e|u] st'] eqn:Hrun.
  { cbn zeta. destruct (exn_class_of e); cbn; lia. }
  cbn [fst snd]. intros _.
  pose proof (create_task_job cfg env session chat st st' u Hrun) as (-> & i & _ & Hjob).
  unfold create_task in Hrun.
  destruct (validate_session (tg_validate env)).1 as [e|info]; [done|].
  cbn zeta in Hrun.
  set (d := new_session_data env (ai_tg_id info) session chat) in *.
  destruct (_save_session_file env 0 d _) as [[e|[]] st2]; [done|].
  destruct (start_heartbeat_indices cfg env (uuid d) (register d st2)) as (Hs & Ht).
  destruct (start_heartbeat cfg env (uuid d) (register d st2)) as [[e|[]] st3];
    [done|]. cbn [snd] in Hs, Ht. injection Hrun as <-.
  eexists (uuid4 env), d, _. split; [reflexivity|].
  rewrite Hs, Ht, Hjob. cbn [sessions tg_id_to_uuid register with_sessions
    with_tg_id_to_uuid]. rewrite !lookup_insert_eq. repeat split; eauto.
Qed.

(** X22: the validation route and the creation route judge a credential
    alike. When [POST /api/task/validate] refuses it (400 or 500),
    [POST /api/task/create] given the same answers of Telegram refuses it
    with the same status, answers the very same error when that status is
    400, and leaves the state untouched. When the validation answers 200
    and the record can be written, the creation answers 201 and the task it
    names is live for the account the validation reported. *)
Theorem validate_and_create_agree (env : Env) (session : string) (chat : Z)
    (st : SessionManager) :
  let v := validate_task_session cfg env in
  let r := (create_keepalive_task cfg env session chat st).1 in
  let st' := (create_keepalive_task cfg env session chat st).2 in
  (status_of v ≠ 200 →
     status_of r = status_of v ∧ st' = st ∧ (status_of v = 400 → r = v)) ∧
  (status_of v = 200 → write_raises env 0%nat = None → 0 ≤ jitter_seconds cfg →
     status_of r = 201 ∧
     field "uuid" r = Some (JString (uuid4 env)) ∧
     ∃ d, sessions st' !! uuid4 env = Some d ∧
          field "tg_id" v = Some (JInt (tg_id d))).
Proof.
  intros v r st'. subst v r st'. unfold validate_task_session.
  destruct (validate_session (tg_validate env)).1 as [e|info] eqn:Hgate.
  - split.
    + intros _. unfold create_keepalive_task, create_task. rewrite Hgate.
      by destruct (exn_class_of e).
    + by destruct (exn_class_of e).
  - split; [done|]. intros _ Hw Hj.
    destruct (create_task_runs cfg env session chat st info Hgate Hw Hj)
      as (st' & i & Hrun & _ & Hs & _).
    unfold create_keepalive_task. rewrite Hrun. cbn [fst snd status_of field].
    split; [done|]. split; [done|]. eexists. rewrite Hs, lookup_insert_eq.
    split; reflexivity.
Qed.

(** X23: creating a first task and deleting it through the routes is a
    round trip. When the account has no task, the new uuid is unused and
    neither the write nor the unlink fails, the deletion answers 200 and the
    live index, the reverse index, the scheduler and the directory are
    back to what they were before the creation; the log has grown by the
    write, the cleanup notification with the manual reason, and the
    deletion, in that order. *)
Theorem create_then_delete_round_trip (env env' : Env) (session : string)
    (chat : Z) (st : SessionManager) (account_info : AccountInfo) :
  fst (validate_session (tg_validate env)) = ret account_info →
  write_raises env 0%nat = None →
  0 ≤ jitter_seconds cfg →
  tg_id_to_uuid st !! ai_tg_id account_info = None →
  sessions st !! uuid4 env = None →
  jobs st !! uuid4 env = None →
  files st !! uuid4 env = None →
  validate_uuid_format (uuid4 env) = true →
  unlink_raises env' (uuid4 env) = false →
  let d := new_session_data env (ai_tg_id account_info) session chat in
  let st1 := (create_keepalive_task cfg env session chat st).2 in
  let r := delete_task env' (uuid4 env) st1 in
  status_of r.1 = 200 ∧
  sessions r.2 = sessions st ∧
  tg_id_to_uuid r.2 = tg_id_to_uuid st ∧
  jobs r.2 = jobs st ∧
  files r.2 = files st ∧
  log r.2 = log st ++ [FileWritten (uuid4 env) d;
                       Notified (send_cleanup chat (uuid4 env) manual_reason);
                       FileDeleted (uuid4 env)].
Proof.
  intros Hgate Hw Hj Hidx Hfresh Hjob Hfile Hfmt Hunlink d st1 r.
  destruct (create_task_runs cfg env session chat st account_info Hgate Hw Hj)
    as (st' & i & Hrun & _ & Hs & Ht & Hjobs & Hf & Hl).
  unfold replace_existing in Hs, Ht, Hjobs, Hf, Hl.
  rewrite Hidx in Hs, Ht, Hjobs, Hf, Hl. fold d in Hs, Hf, Hl.
  assert (st1 = st') as -> by (subst st1; unfold create_keepalive_task; by rewrite Hrun).
  assert (sessions st' !! uuid4 env = Some d) as Hlive
    by (rewrite Hs; apply lookup_insert_eq).
  subst r. unfold delete_task. rewrite Hfmt, Hlive. cbn [fst snd status_of].
  destruct (cleanup_task_live env' (uuid4 env) manual_reason st' d Hlive)
    as (Hcs & Hct & Hcj & Hcf & Hcl).
  rewrite Hcs, Hct, Hcj, Hcf, Hcl. split; [done|].
  split; [by rewrite Hs, delete_insert_id|].
  split.
  { rewrite Ht. cbn [tg_id d new_session_data]. rewrite lookup_insert_eq.
    rewrite decide_True by done. by rewrite delete_insert_id. }
  split; [by rewrite Hjobs, delete_insert_id|].
  unfold remove_file. rewrite Hunlink. cbn [files emit]. rewrite Hf, lookup_insert_eq.
  cbn [files log emit with_files]. rewrite Hf, Hl. split; [by rewrite delete_insert_id|].
  by rewrite <- !app_assoc.
Qed.

End RouteFacts.

(** ** Redaction, for any bound *)

Section MaskingBound.
Import Masking.

Lemma substring_length_le (n : nat) (s : string) :
  (String.length (String.substring 0 n s) ≤ n)%nat.
Proof.
  revert n. induction s as [|c s IH]; intros [|n]; simpl; try lia.
  specialize (IH n). lia.
Qed.

Lemma mask_is_prefix (data : string) (visible_chars : Z) :
  0 ≤ visible_chars →
  ∃ n : nat,
    Z.of_nat n ≤ Z.max 3 visible_chars ∧
    mask_sensitive_data data visible_chars =
      if decide (data = "") then "" else String.substring 0 n data +:+ "...".
Proof.
  intros Hv. destruct data as [|c data]; [exists 0%nat; split; [lia|done]|].
  unfold mask_sensitive_data, py_prefix.
  destruct (Z.of_nat _ <=? visible_chars).
  - exists 3%nat. split; [lia|]. by rewrite decide_False.
  - exists (Z.to_nat visible_chars). split; [lia|].
    rewrite decide_False by done.
    by destruct (Z.ltb_spec visible_chars 0); [lia|].
Qed.

Lemma mask_length (data : string) (visible_chars : Z) :
  0 ≤ visible_chars →
  Z.of_nat (String.length (mask_sensitive_data data visible_chars))
    ≤ Z.max 3 visible_chars + 3.
Proof.
  intros Hv. destruct (mask_is_prefix data visible_chars Hv) as (n & Hn & ->).
  destruct (decide (data = "")); [cbn; lia|].
  rewrite length_append. pose proof (substring_length_le n data). cbn. lia.
Qed.

(** X24: with a non-negative bound [visible_chars], [mask_sensitive_data]
    emits either the empty string or a prefix of the data of at most
    [max 3 visible_chars] characters followed by the ellipsis; with the
    default bound the output has at most 13 characters, whatever the length
    of the credential. *)
Theorem mask_output_bounded (data : string) (visible_chars : Z) :
  0 ≤ visible_chars →
  (∃ n : nat,
     Z.of_nat n ≤ Z.max 3 visible_chars ∧
     mask_sensitive_data data visible_chars =
       if decide (data = "") then "" else String.substring 0 n data +:+ "...") ∧
  Z.of_nat (String.length (mask_sensitive_data data visible_chars))
    ≤ Z.max 3 visible_chars + 3 ∧
  (String.length (mask data) ≤ 13)%nat.
Proof.
  intros Hv. split; [by apply mask_is_prefix|]. split; [by apply mask_length|].
  pose proof (mask_length data default_visible_chars) as H.
  unfold mask. unfold default_visible_chars in *. lia.
Qed.

End MaskingBound.

(** ** The login routes *)

Section LoginFacts.
Import Login.
Context {time : Type}.
Variable timed_out : time → time → bool.
Implicit Types (st : @LoginState time) (env : @LoginEnv time).

Lemma filter_ext_in {A : Type} (P Q : A → Prop) `{∀ x, Decision (P x)}
    `{∀ x, Decision (Q x)} (l : list A) :
  (∀ x, x ∈ l → (P x ↔ Q x)) → filter P l = filter Q l.
Proof.
  induction l as [|x l IH]; [done|]. intros Hl.
  assert (filter P l = filter Q l) as Hrec
    by (apply IH; intros y Hy; by apply Hl, list_elem_of_further).
  destruct (decide (P x)) as [Hx|Hx].
  - rewrite !filter_cons_True; [by rewrite Hrec | | done].
    by apply (Hl x (list_elem_of_here _ _)).
  - rewrite !filter_cons_False; [done | | done].
    intros Hq. by apply Hx, (Hl x (list_elem_of_here _ _)).
Qed.

Lemma filter_all {A : Type} (P : A → Prop) `{∀ x, Decision (P x)} (l : list A) :
  (∀ x, x ∈ l → P x) → filter P l = l.
Proof.
  induction l as [|x l IH]; [done|]. intros Hl.
  rewrite filter_cons_True by (apply Hl, list_elem_of_here).
  rewrite IH; [done|]. intros y Hy. by apply Hl, list_elem_of_further.
Qed.

Lemma filter_none {A : Type} (P : A → Prop) `{∀ x, Decision (P x)} (l : list A) :
  (∀ x, x ∈ l → ¬ P x) → filter P l = [].
Proof.
  induction l as [|x l IH]; [done|]. intros Hl.
  rewrite filter_cons_False by (apply Hl, list_elem_of_here).
  apply IH. intros y Hy. by apply Hl, list_elem_of_further.
Qed.

Lemma dict_pop_filter {V : Type} (k : string) (d : list (string * V)) :
  NoDup d.*1 → dict_pop k d = filter (λ kv, kv.1 ≠ k) d.
Proof.
  induction d as [|[k' v] d IH]; [done|]. rewrite fmap_cons. cbn [fst].
  intros [Hk Hnd]%NoDup_cons. cbn [dict_pop].
  destruct (decide (k' = k)) as [->|Hne].
  - rewrite filter_cons_False by (cbn; auto).
    symmetry. apply filter_all. intros [k0 v0] Hin.
    cbn. intros ->. apply Hk, list_elem_of_fmap. by exists (k, v0).
  - rewrite filter_cons_True by done. by rewrite IH.
Qed.

Lemma dict_get_filter_ne {V : Type} (k sid : string) (d : list (string * V)) :
  dict_get k (filter (λ kv, kv.1 ≠ sid) d) =
    if decide (k = sid) then None else dict_get k d.
Proof.
  induction d as [|[k' v] d IH]; [by destruct (decide (k = sid))|].
  destruct (decide (k' = sid)) as [->|Hk'].
  - rewrite filter_cons_False by (cbn; auto). rewrite IH. cbn [dict_get].
    destruct (decide (k = sid)) as [->|Hne]; [done|]. by rewrite decide_False.
  - rewrite filter_cons_True by done. cbn [dict_get].
    destruct (decide (k' = k)) as [->|Hne]; [by rewrite decide_False|]. exact IH.
Qed.

Lemma filter_keys_NoDup {V : Type} (P : string * V → Prop)
    `{∀ kv, Decision (P kv)} (d : list (string * V)) :
  NoDup d.*1 → NoDup (filter P d).*1.
Proof.
  intros Hnd. eapply sublist_NoDup; [exact Hnd|].
  apply fmap_sublist, sublist_filter.
Qed.

Lemma cleanup_login_session_known env (sid : string) (l : LoginSession) st :
  NoDup (login_sessions st).*1 →
  dict_get sid (login_sessions st) = Some l →
  let st' := cleanup_login_session env sid st in
  login_sessions st' = filter (λ kv, kv.1 ≠ sid) (login_sessions st) ∧
  disconnected st' = disconnected st ++ (if is_connected env sid then [sid] else []) ∧
  dict_get sid (login_sessions st') = None ∧
  (∀ sid', sid' ≠ sid →
     dict_get sid' (login_sessions st') = dict_get sid' (login_sessions st)) ∧
  NoDup (login_sessions st').*1.
Proof.
  intros Hnd Hl. unfold cleanup_login_session. rewrite Hl.
  cbn [login_sessions disconnected]. rewrite dict_pop_filter by done.
  split; [done|]. split; [by destruct (is_connected env sid); rewrite ?app_nil_r|].
  split; [|split].
  - by rewrite dict_get_filter_ne, decide_True.
  - intros sid' Hne. by rewrite dict_get_filter_ne, decide_False.
  - by apply filter_keys_NoDup.
Qed.

(** X25: a failed code submission ends the login session. When the
    submission raises (a wrong or expired code, or anything else), the
    route answers 400 for a [ValueError] and 500 otherwise, with no session
    string, and the session is out of [login_sessions] (the other sessions
    stay); whatever is then sent for the same session id, code or
    password, is answered 400 "invalid or expired session" and changes
    nothing. *)
Theorem failed_code_ends_session env (sid : string) (l : LoginSession) st
    (e : exn) :
  NoDup (login_sessions st).*1 →
  dict_get sid (login_sessions st) = Some l →
  fst (handle_telegram_errors (tg_submit_code env)) = raise e →
  let r := (login_code env sid st).1 in
  let st' := (login_code env sid st).2 in
  status_of r = (match exn_class_of e with ValueError => 400 | _ => 500 end) ∧
  session_string_of r = None ∧
  dict_get sid (login_sessions st') = None ∧
  (∀ sid', sid' ≠ sid →
     dict_get sid' (login_sessions st') = dict_get sid' (login_sessions st)) ∧
  ∀ env', login_code env' sid st' = (HTTPException 400 expired_detail, st') ∧
          login_password env' sid st' = (HTTPException 400 expired_detail, st').
Proof.
  intros Hnd Hl He r st'.
  assert (st' = cleanup_login_session env sid st ∧
          status_of r = (match exn_class_of e with ValueError => 400 | _ => 500 end) ∧
          session_string_of r = None) as (-> & Hr & Hs).
  { subst r st'. unfold login_code. rewrite Hl, He.
    by destruct (exn_class_of e). }
  destruct (cleanup_login_session_known env sid l st Hnd Hl)
    as (_ & _ & Hgone & Hother & _).
  split; [exact Hr|]. split; [exact Hs|]. split; [exact Hgone|].
  split; [exact Hother|]. intros env'.
  unfold login_code, login_password. by rewrite Hgone.
Qed.

(** X26: the two-factor path. For a session whose code has not been
    submitted, a password is refused with 400 and nothing changes. When
    the code submission reports that a password is required, the route
    answers 200 without a session string and keeps the session, now
    waiting for the password; a password submission that then succeeds is
    answered 200 with the session string Telegram returned, and the session
    is out of [login_sessions]. *)
Theorem two_factor_path env env2 (sid : string) (l : LoginSession) st
    (session : string) (tg : Z) :
  NoDup (login_sessions st).*1 →
  dict_get sid (login_sessions st) = Some l →
  status l = code_sent →
  fst (handle_telegram_errors (tg_submit_code env)) = ret PasswordRequired →
  fst (handle_telegram_errors (tg_submit_password env2)) = ret (session, tg) →
  login_password env2 sid st =
    (HTTPException 400 "Session is not in password_required state", st) ∧
  let r1 := (login_code env sid st).1 in
  let st1 := (login_code env sid st).2 in
  status_of r1 = 200 ∧ session_string_of r1 = None ∧
  dict_get sid (login_sessions st1) = Some (with_status password_required l) ∧
  (∀ sid', sid' ≠ sid →
     dict_get sid' (login_sessions st1) = dict_get sid' (login_sessions st)) ∧
  disconnected st1 = disconnected st ∧
  let r2 := (login_password env2 sid st1).1 in
  let st2 := (login_password env2 sid st1).2 in
  status_of r2 = 200 ∧ session_string_of r2 = Some session ∧
  dict_get sid (login_sessions st2) = None ∧
  (∀ sid', sid' ≠ sid →
     dict_get sid' (login_sessions st2) = dict_get sid' (login_sessions st)).
Proof.
  intros Hnd Hl Hstatus Hcode Hpass. split.
  { unfold login_password. by rewrite Hl, Hstatus. }
  intros r1 st1.
  assert (st1 = {| login_sessions :=
                     dict_set sid (with_status password_required l) (login_sessions st);
                   disconnected := disconnected st |} ∧
          status_of r1 = 200 ∧ session_string_of r1 = None) as (Hst1 & Hr1 & Hs1).
  { subst r1 st1. unfold login_code. by rewrite Hl, Hcode. }
  assert (dict_get sid (login_sessions st1) = Some (with_status password_required l))
    as Hl1 by (rewrite Hst1; cbn; apply dict_get_set_eq).
  assert (∀ sid', sid' ≠ sid →
     dict_get sid' (login_sessions st1) = dict_get sid' (login_sessions st)) as Hother1.
  { intros sid' Hne. rewrite Hst1. cbn. by apply dict_get_set_ne. }
  assert (NoDup (login_sessions st1).*1) as Hnd1
    by (rewrite Hst1; cbn; by apply dict_set_NoDup).
  split; [exact Hr1|]. split; [exact Hs1|]. split; [exact Hl1|].
  split; [exact Hother1|]. split; [by rewrite Hst1|].
  intros r2 st2.
  assert (st2 = cleanup_login_session env2 sid st1 ∧
          status_of r2 = 200 ∧ session_string_of r2 = Some session)
    as (-> & Hr2 & Hs2).
  { subst r2 st2. unfold login_password. by rewrite Hl1, Hpass. }
  destruct (cleanup_login_session_known env2 sid _ st1 Hnd1 Hl1)
    as (_ & _ & Hgone & Hother2 & _).
  split; [exact Hr2|]. split; [exact Hs2|]. split; [exact Hgone|].
  intros sid' Hne. by rewrite Hother2, Hother1.
Qed.

(** Popping the sessions of [ids], one after the other. *)
Lemma cleanup_sweep env (ids : list string) st :
  NoDup (login_sessions st).*1 → NoDup ids →
  (∀ sid, sid ∈ ids → sid ∈ (login_sessions st).*1) →
  let st' := foldl (λ st sid, cleanup_login_session env sid st) st ids in
  login_sessions st' = filter (λ kv, kv.1 ∉ ids) (login_sessions st) ∧
  disconnected st' = disconnected st ++ filter (λ sid, is_connected env sid = true) ids.
Proof.
  revert st. induction ids as [|sid ids IH]; intros st Hnd Hids Hin.
  - cbn. rewrite app_nil_r. split; [|done].
    symmetry. apply filter_all. intros kv _. apply not_elem_of_nil.
  - apply NoDup_cons in Hids as [Hsid Hids]. cbn [foldl].
    assert (is_Some (dict_get sid (login_sessions st))) as [l Hl].
    { destruct (dict_get sid (login_sessions st)) eqn:Hget; [eauto|].
      apply dict_get_None in Hget. destruct Hget. apply Hin, list_elem_of_here. }
    destruct (cleanup_login_session_known env sid l st Hnd Hl)
      as (Hs1 & Hd1 & _ & _ & Hnd1).
    destruct (IH (cleanup_login_session env sid st) Hnd1 Hids) as (Hs & Hd).
    { intros sid' Hin'. rewrite Hs1.
      assert (sid' ≠ sid) as Hne by (intros ->; done).
      specialize (Hin sid' (list_elem_of_further _ _ _ Hin')).
      apply list_elem_of_fmap in Hin as ([k v] & -> & Hkv).
      apply list_elem_of_fmap. exists (k, v). split; [done|].
      by apply list_elem_of_filter. }
    cbn zeta. rewrite Hs, Hd, Hs1, Hd1. split.
    + rewrite list_filter_filter. apply list_filter_iff. intros [k v]. cbn.
      rewrite not_elem_of_cons. tauto.
    + rewrite <- app_assoc. f_equal.
      destruct (is_connected env sid) eqn:Hc.
      * by rewrite filter_cons_True.
      * rewrite filter_cons_False; [done|]. by rewrite Hc.
Qed.

(** X27: the periodic sweep removes exactly the sessions that have timed
    out: afterwards [login_sessions] holds the sessions that have not, in
    their order, and the clients of the removed sessions that were still
    connected have been disconnected, in the order of the dict; a second
    sweep at the same time removes nothing. The sweep at shutdown leaves
    no session. *)
Theorem login_session_sweeps env st :
  NoDup (login_sessions st).*1 →
  let fresh := λ kv : string * LoginSession,
                 timed_out (time_time env) (created_at kv.2) = false in
  let st' := cleanup_expired_sessions timed_out env st in
  login_sessions st' = filter fresh (login_sessions st) ∧
  disconnected st' =
    disconnected st ++
    filter (λ sid, is_connected env sid = true)
      (filter (λ kv, ¬ fresh kv) (login_sessions st)).*1 ∧
  login_sessions (cleanup_expired_sessions timed_out env st') = login_sessions st' ∧
  login_sessions (cleanup_all_login_sessions env st) = [].
Proof.
  intros Hnd fresh st'.
  set (stale := λ kv : string * LoginSession,
                  timed_out (time_time env) (created_at kv.2) = true).
  assert (∀ d : list (string * LoginSession), NoDup d.*1 →
            filter (λ kv, kv.1 ∉ (filter stale d).*1) d = filter fresh d) as Hsplit.
  { intros d Hd. apply filter_ext_in. intros [k v] Hin. cbn.
    subst fresh stale. cbn. split.
    - intros Hk. destruct (timed_out _ _) eqn:Ht; [|done].
      destruct Hk. apply list_elem_of_fmap. exists (k, v). split; [done|].
      by apply list_elem_of_filter.
    - intros Hf ([k' v'] & Hk & [Hs Hin']%list_elem_of_filter)%list_elem_of_fmap.
      cbn in Hk, Hs. subst k'.
      assert (v' = v) as ->.
      { apply (elem_of_dict_get k v' d Hd) in Hin'.
        apply (elem_of_dict_get k v d Hd) in Hin. congruence. }
      congruence. }
  assert (∀ s : LoginState, NoDup (login_sessions s).*1 →
    login_sessions (cleanup_expired_sessions timed_out env s)
      = filter fresh (login_sessions s) ∧
    disconnected (cleanup_expired_sessions timed_out env s)
      = disconnected s ++ filter (λ sid, is_connected env sid = true)
                            (filter stale (login_sessions s)).*1) as Hsweep.
  { intros s Hs. unfold cleanup_expired_sessions. cbn zeta.
    destruct (cleanup_sweep env (filter stale (login_sessions s)).*1 s Hs)
      as (Hl & Hd).
    - by apply filter_keys_NoDup.
    - intros sid ([k v] & -> & [_ Hin]%list_elem_of_filter)%list_elem_of_fmap.
      apply list_elem_of_fmap. by exists (k, v).
    - split; [|exact Hd]. etransitivity; [exact Hl|]. by apply Hsplit. }
  destruct (Hsweep st Hnd) as (Hl & Hd). fold st' in Hl, Hd.
  split; [exact Hl|]. split.
  { rewrite Hd. f_equal. f_equal. f_equal. apply list_filter_iff. intros [k v].
    subst fresh stale. cbn. by destruct (timed_out _ _). }
  split.
  - destruct (Hsweep st') as (-> & _).
    { rewrite Hl. by apply filter_keys_NoDup. }
    rewrite Hl, list_filter_filter. apply list_filter_iff. tauto.
  - unfold cleanup_all_login_sessions. cbn zeta.
    destruct (cleanup_sweep env (login_sessions st).*1 st Hnd Hnd) as (-> & _);
      [done|].
    apply filter_none. intros [k v] Hin Hno. apply Hno.
    apply list_elem_of_fmap. by exists (k, v).
Qed.

End LoginFacts.

(** * Scenarios *)



(** Three failed probes in a row retire the task; exactly one cleanup
    notification names it. *)
Lemma C2_threshold_cleanup_witness :
  let r3 := execute_heartbeat Scenario.config
              (Scenario.failing (ret false) 40) Scenario.first_uuid Scenario.twice_failed in
  sessions r3.2 !! Scenario.first_uuid = None ∧
  jobs r3.2 !! Scenario.first_uuid = None ∧
  cleanups_for Scenario.first_uuid (log r3.2) = 1%nat ∧
  files r3.2 !! Scenario.first_uuid = None.
Proof.
  destruct (C2_threshold_cleanup Scenario.config
              (Scenario.failing (ret false) 20)
              (Scenario.failing Scenario.connection_reset 30)
              (Scenario.failing (ret false) 40)
              Scenario.first_uuid (Scenario.task Scenario.first_uuid 42 10) Scenario.one_live)
    as (_ & _ & _ & _ & Hfail & _);
    [reflexivity | vm_compute; reflexivity | reflexivity | reflexivity
    | discriminate | reflexivity | discriminate | reflexivity | reflexivity |].
  apply Hfail. discriminate.
Defined.

(** The restart over the duplicated disk keeps the newer record only. *)
Lemma C3_startup_reconciliation_witness :
  ∃ st', initialize Scenario.config (Scenario.calm Scenario.spare_uuid 10)
           (new_manager Scenario.duplicated_disk) = (ret tt, st') ∧
    sessions st' = {[ Scenario.newer_uuid := Scenario.task Scenario.newer_uuid 42 2 ]} ∧
    files st' = {[ Scenario.newer_uuid := FileOk (Scenario.task Scenario.newer_uuid 42 2) ]} ∧
    log st' = [Notified (send_cleanup 7 Scenario.older_uuid replaced_reason); FileDeleted Scenario.older_uuid].
Proof.
  destruct (C3_startup_reconciliation Scenario.config
              (Scenario.calm Scenario.spare_uuid 10) Scenario.duplicated_disk)
    as (st' & Hrun & _).
  - simpl. lia.
  - unfold Scenario.duplicated_disk.
    intros stem d [[<- [= <-]]|[_ [<- [= <-]]%lookup_singleton_Some]]%lookup_insert_Some;
      reflexivity.
  - exists st'. split; [exact Hrun|].
    vm_compute in Hrun. injection Hrun as <-. vm_compute. repeat split.
Defined.

(** A success after two failures: the counter is back to 0. *)
Lemma C4_success_resets_failures_witness :
  ∃ st', execute_heartbeat Scenario.config (Scenario.calm Scenario.spare_uuid 40)
           Scenario.first_uuid Scenario.twice_failed = (ret tt, st') ∧
    consecutive_failures <$> sessions Scenario.twice_failed !! Scenario.first_uuid
      = Some 2 ∧
    consecutive_failures <$> sessions st' !! Scenario.first_uuid = Some 0 ∧
    last_heartbeat <$> sessions st' !! Scenario.first_uuid = Some (Some 40).
Proof.
  destruct (C4_success_resets_failures Scenario.config
              (Scenario.calm Scenario.spare_uuid 40) Scenario.first_uuid
              (incr_failures (incr_failures (Scenario.task Scenario.first_uuid 42 10)))
              Scenario.twice_failed)
    as (_ & _ & _ & _ & Hrun); [vm_compute; reflexivity | reflexivity |].
  destruct Hrun as (st' & Hrun & Hs & _); [reflexivity|].
  exists st'. split; [exact Hrun|]. split; [vm_compute; reflexivity|].
  rewrite Hs, lookup_insert_eq. split; reflexivity.
Defined.

(** Telegram answers [AuthKeyUnregisteredError]: no task, no change. *)
Lemma C5_invalid_credential_creates_nothing_witness :
  let invalid := Exn ValueError "Session expired or invalid" in
  validate_session (tg_validate Scenario.rejecting) = (raise invalid, [Called 0]) ∧
  create_task Scenario.config Scenario.rejecting "1AQAAAsession" 7 Scenario.one_live
    = (raise invalid, Scenario.one_live).
Proof.
  destruct (C5_invalid_credential_creates_nothing Scenario.config Scenario.rejecting
              (Exn AuthKeyUnregisteredError "AUTH_KEY_UNREGISTERED"))
    as (Hgate & _ & Hcreate); [reflexivity | by left |].
  split; [exact Hgate | apply Hcreate].
Defined.

(** At the shipped configuration (one day, five minutes of jitter): a
    draw of 17 at the creation of a task at time 10, then a draw of 250
    when its first run, at time 86427, has completed. *)
Lemma C7_interval_within_jitter_witness :
  (∃ i, _calculate_next_interval Scenario.config 17%nat = ret i ∧
        within_jitter Scenario.config i) ∧
  jobs Scenario.one_live !! Scenario.first_uuid = Some (10 + 86417) ∧
  jobs (_execute_heartbeat_and_reschedule Scenario.config (Cases.drawing 250 86427)
          Scenario.first_uuid Scenario.one_live).2 !! Scenario.first_uuid
    = Some (86427 + 86650).
Proof.
  destruct (C7_interval_within_jitter Scenario.config 17%nat)
    as (Hrange & Htotal & _ & Hcreate & Hrun).
  split; [|split].
  - destruct Htotal as [i Hi]; [simpl; lia|].
    exists i. split; [exact Hi | by apply Hrange].
  - destruct (Hcreate (Scenario.calm Scenario.first_uuid 10) "1AQAAAsession" 7
                (new_manager ∅) Scenario.first_uuid Scenario.one_live)
      as (i & Hi & _ & Hjob); [vm_compute; reflexivity|].
    rewrite Hjob. vm_compute in Hi. by injection Hi as <-.
  - destruct (_execute_heartbeat_and_reschedule Scenario.config
                (Cases.drawing 250 86427) Scenario.first_uuid Scenario.one_live)
      as [r st'] eqn:Hrescheduled.
    assert (r = ret tt ∧ is_Some (sessions st' !! Scenario.first_uuid))
      as (-> & Hlive).
    { vm_compute in Hrescheduled. injection Hrescheduled as <- <-.
      split; [reflexivity | vm_compute; eauto]. }
    destruct (Hrun (Cases.drawing 250 86427) Scenario.first_uuid Scenario.one_live
                st' Hrescheduled Hlive) as (i & Hi & _ & Hjob).
    cbn [snd]. rewrite Hjob. vm_compute in Hi. by injection Hi as <-.
Defined.

(** Cleaning up a uuid that was never live. *)
Lemma C9_cleanup_task_idempotent_witness :
  cleanup_task (Scenario.calm Scenario.spare_uuid 50) Scenario.ghost_uuid "manual"
    Scenario.one_live = Scenario.one_live.
Proof.
  apply (C9_cleanup_task_idempotent (Scenario.calm Scenario.spare_uuid 50)
           (Scenario.calm Scenario.spare_uuid 50) Scenario.ghost_uuid "manual" "manual" Scenario.one_live).
  vm_compute. reflexivity.
Defined.

(** The unlink raises: the task is gone from memory, its file is not. *)
Lemma C10_cleanup_survives_failed_delete_witness :
  let st' := cleanup_task (Scenario.stuck_disk 50) Scenario.first_uuid "manual" Scenario.one_live in
  sessions st' !! Scenario.first_uuid = None ∧
  files st' !! Scenario.first_uuid = Some (FileOk (Scenario.task Scenario.first_uuid 42 10)) ∧
  log st' = log Scenario.one_live ++ [Notified (send_cleanup 7 Scenario.first_uuid "manual")].
Proof.
  destruct (C10_cleanup_survives_failed_delete (Scenario.stuck_disk 50) Scenario.first_uuid
              "manual" Scenario.one_live (Scenario.task Scenario.first_uuid 42 10))
    as (_ & Hgone & _ & _ & Hfiles & Hlog);
    [vm_compute; reflexivity | reflexivity |].
  split; [exact Hgone|]. split; [|exact Hlog].
  rewrite Hfiles. vm_compute. reflexivity.
Defined.

(** ** Further scenarios *)

(** A uuid as [uuid4] prints it. *)
Lemma validate_uuid_format_shape_witness :
  String.length Scenario.first_uuid = 36%nat ∧
  Text.all Validators.is_uuid_char Scenario.first_uuid = true.
Proof.
  destruct (validate_uuid_format_shape Scenario.first_uuid) as (Hl & Hc & _);
    [vm_compute; reflexivity|].
  split; [exact Hl | exact Hc].
Defined.

(** The same uuid followed by a newline passes the check of the model and
    not the check of the routes. *)
Lemma validate_uuid_trailing_newline_witness :
  Validators.validate_uuid (Scenario.first_uuid +:+ Validators.newline)
    = ret (Scenario.first_uuid +:+ Validators.newline) ∧
  Validators.validate_uuid_format (Scenario.first_uuid +:+ Validators.newline) = false.
Proof.
  destruct (validate_uuid_trailing_newline Scenario.first_uuid) as (Hyes & _).
  destruct Hyes as (_ & Hm & Hr); [vm_compute; reflexivity|].
  split; [exact Hm | exact Hr].
Defined.

(** A number written with a plus sign, spaces and dashes. *)
Lemma validate_phone_accepts_witness :
  Text.count Text.is_digit "+1 234-567-8901" = 11%nat ∧
  (Text.count Validators.is_plus "+1 234-567-8901" ≤ 1)%nat.
Proof.
  destruct (validate_phone_accepts "+1 234-567-8901" "+1 234-567-8901")
    as (_ & _ & _ & Hplus); [vm_compute; reflexivity|].
  split; [vm_compute; reflexivity | exact Hplus].
Defined.

(** A login message of Telegram. *)
Lemma extract_verification_code_standalone_witness :
  is_Some (CodeListener._extract_verification_code
             "Login code: 12345. Do not give this code to anyone.").
Proof.
  destruct (extract_verification_code_standalone
              "Login code: 12345. Do not give this code to anyone.") as (_ & Hfind).
  apply (Hfind "Login code: " "12345" ". Do not give this code to anyone.");
    [reflexivity|]. vm_compute. auto.
Defined.

Lemma extracted_code_validates_witness :
  Validators.validate_code "12345" = ret "12345".
Proof.
  apply (extracted_code_validates
           "Login code: 12345. Do not give this code to anyone." "12345").
  vm_compute. reflexivity.
Defined.

(** Retiring the task of account 42 leaves the task of account 43 as it
    was. *)
Lemma cleanup_task_frame_witness :
  let st' := cleanup_task (Scenario.calm Scenario.spare_uuid 50) Scenario.newer_uuid
               "manual" Cases.two_live in
  sessions st' !! Scenario.third_uuid = Some (Scenario.task Scenario.third_uuid 43 3) ∧
  tg_id_to_uuid st' !! 43 = Some Scenario.third_uuid.
Proof.
  destruct (cleanup_task_frame (Scenario.calm Scenario.spare_uuid 50) Scenario.newer_uuid
              "manual" Scenario.third_uuid Cases.two_live)
    as (Hs & _ & _ & _ & Ht); [discriminate|].
  split; [rewrite Hs; vm_compute; reflexivity|].
  apply Ht. vm_compute. reflexivity.
Defined.

(** The first task of account 42, on an empty directory. *)
Lemma create_task_first_task_witness :
  ∃ st', create_task Scenario.config (Scenario.calm Scenario.first_uuid 10)
           "1AQAAAsession" 7 (new_manager ∅) = (ret Scenario.first_uuid, st') ∧
    log st' = [FileWritten Scenario.first_uuid (Scenario.task Scenario.first_uuid 42 10)].
Proof.
  destruct (create_task_first_task Scenario.config (Scenario.calm Scenario.first_uuid 10)
              "1AQAAAsession" 7 (new_manager ∅) (Scenario.account 42))
    as (st' & i & Hrun & _ & _ & _ & _ & _ & Hl);
    [reflexivity | reflexivity | simpl; lia | reflexivity |].
  exists st'. split; [exact Hrun | exact Hl].
Defined.

(** A second task for account 42 replaces the first. *)
Lemma create_task_replaces_witness :
  ∃ st', create_task Scenario.config (Scenario.calm Scenario.third_uuid 20)
           "1AQAAAsession" 7 Scenario.one_live = (ret Scenario.third_uuid, st') ∧
    sessions st' !! Scenario.first_uuid = None ∧
    tg_id_to_uuid st' !! 42 = Some Scenario.third_uuid.
Proof.
  destruct (create_task_replaces Scenario.config (Scenario.calm Scenario.third_uuid 20)
              "1AQAAAsession" 7 Scenario.one_live (Scenario.account 42)
              Scenario.first_uuid (Scenario.task Scenario.first_uuid 42 10))
    as (st' & removal & Hrun & _ & Hold & Ht & _);
    [reflexivity | reflexivity | simpl; lia | vm_compute; reflexivity
    | vm_compute; reflexivity | reflexivity | discriminate |].
  exists st'. split; [exact Hrun|]. split; [exact Hold|].
  rewrite Ht. apply lookup_insert_eq.
Defined.

(** The disk is full when the replacement is written: account 42 loses
    its task, and the directory holds the new file, unreadable, in place
    of the old record. *)
Lemma create_task_unwritten_loses_old_witness :
  let r := create_task Scenario.config (Cases.full_disk (ret true) 20)
             "1AQAAAsession" 7 Scenario.one_live in
  r.1 = raise Cases.disk_full ∧ sessions r.2 = ∅ ∧ tg_id_to_uuid r.2 !! 42 = None ∧
  files r.2 = {[ Scenario.spare_uuid := FileBad ]}.
Proof.
  destruct (create_task_unwritten_loses_old Scenario.config
              (Cases.full_disk (ret true) 20) "1AQAAAsession" 7 Scenario.one_live
              (Scenario.account 42) Scenario.first_uuid
              (Scenario.task Scenario.first_uuid 42 10) Cases.disk_full)
    as (Hrun & Hs & Ht & _ & _ & Hf & _);
    [reflexivity | reflexivity | vm_compute; reflexivity
    | vm_compute; reflexivity | reflexivity |].
  cbn zeta. rewrite Hrun. cbn [fst snd]. split; [reflexivity|].
  split; [rewrite Hs; vm_compute; reflexivity|]. split; [exact Ht|].
  rewrite Hf. vm_compute. reflexivity.
Defined.

(** One false result with a full disk: the counter goes from 0 to 2. *)
Lemma false_result_unwritten_counts_twice_witness :
  consecutive_failures <$>
    sessions (execute_heartbeat Scenario.config (Cases.full_disk (ret false) 20)
                Scenario.first_uuid Scenario.one_live).2 !! Scenario.first_uuid
  = Some 2.
Proof.
  destruct (false_result_unwritten_counts_twice Scenario.config
              (Cases.full_disk (ret false) 20) Scenario.first_uuid
              (Scenario.task Scenario.first_uuid 42 10) Scenario.one_live Cases.disk_full)
    as (_ & Hrun);
    [vm_compute; reflexivity | reflexivity | reflexivity | reflexivity |].
  rewrite Hrun. vm_compute. reflexivity.
Defined.

(** A connection error with a full disk: the write error escapes, the
    job stays as it was, and the task's record is destroyed. *)
Lemma failed_probe_unwritten_escapes_witness :
  let r := _execute_heartbeat_and_reschedule Scenario.config
             (Cases.full_disk Scenario.connection_reset 20)
             Scenario.first_uuid Scenario.one_live in
  files Scenario.one_live
    = {[ Scenario.first_uuid := FileOk (Scenario.task Scenario.first_uuid 42 10) ]} ∧
  r.1 = raise Cases.disk_full ∧
  jobs r.2 = jobs Scenario.one_live ∧
  files r.2 = {[ Scenario.first_uuid := FileBad ]}.
Proof.
  destruct (failed_probe_unwritten_escapes Scenario.config
              (Cases.full_disk Scenario.connection_reset 20) Scenario.first_uuid
              (Scenario.task Scenario.first_uuid 42 10) Scenario.one_live
              (Exn OSError "Connection reset by peer") Cases.disk_full)
    as (_ & Hrun & _ & Hf & Hj & _);
    [vm_compute; reflexivity | reflexivity | reflexivity |].
  cbn zeta. rewrite Hrun. cbn [fst snd].
  split; [vm_compute; reflexivity|]. split; [reflexivity|].
  split; [exact Hj|]. rewrite Hf. vm_compute. reflexivity.
Defined.


(** Two failures leave the task live with its counter at 2; the third
    retires it. *)
Lemma failures_up_to_threshold_witness :
  let two := [Scenario.failing (ret false) 20;
              Scenario.failing Scenario.connection_reset 30] in
  let three := two ++ [Scenario.failing (ret false) 40] in
  (∃ d', sessions (execute_heartbeats Scenario.config two Scenario.first_uuid
                     Scenario.one_live) !! Scenario.first_uuid = Some d' ∧
         consecutive_failures d' = 2) ∧
  sessions (execute_heartbeats Scenario.config three Scenario.first_uuid
              Scenario.one_live) !! Scenario.first_uuid = None.
Proof.
  intros two three.
  assert (∀ h c, fails (Scenario.failing h c) ↔ h ≠ ret true) as Hfails.
  { intros h c. unfold fails, probe_outcome. cbn.
    destruct h as [[[] msg]|[|]]; cbn; split; try done; intros []; done. }
  split.
  - destruct (failures_up_to_threshold Scenario.config two Scenario.first_uuid
                (Scenario.task Scenario.first_uuid 42 10) Scenario.one_live)
      as (Hbelow & _); [vm_compute; reflexivity | |].
    { subst two. repeat constructor; by apply Hfails. }
    destruct Hbelow as (d' & Hd' & Hc & _); [simpl; lia|].
    exists d'. split; [exact Hd' | exact Hc].
  - destruct (failures_up_to_threshold Scenario.config three Scenario.first_uuid
                (Scenario.task Scenario.first_uuid 42 10) Scenario.one_live)
      as (_ & Hat); [vm_compute; reflexivity | |].
    { subst three two. repeat constructor; by apply Hfails. }
    destruct Hat as (Hgone & _); [discriminate | reflexivity | exact Hgone].
Defined.

(** After a failed probe the record of the task is the one created, but
    for its counter. *)
Lemma heartbeat_keeps_identity_witness :
  ∃ d0, sessions Scenario.one_live !! Scenario.first_uuid = Some d0 ∧
        same_identity d0 (incr_failures (Scenario.task Scenario.first_uuid 42 10)).
Proof.
  destruct (heartbeat_keeps_identity Scenario.config (Scenario.failing (ret false) 20)
              Scenario.first_uuid Scenario.one_live Scenario.first_uuid
              (incr_failures (Scenario.task Scenario.first_uuid 42 10)))
    as (d0 & Hd0 & Hid & _); [vm_compute; reflexivity|].
  exists d0. split; [exact Hd0 | exact Hid].
Defined.

(** A restart over two records of one account, then a replacement. *)
Lemma reachable_jobs_are_live_witness :
  jobs_are_live Scenario.restarted_then_replaced.
Proof.
  apply (reachable_jobs_are_live Scenario.config).
  unfold Scenario.restarted_then_replaced, Scenario.restarted.
  apply reach_create.
  - apply reach_initialize; [apply reach_new | reflexivity].
  - vm_compute. reflexivity.
Defined.

Lemma reachable_keyed_witness : keyed Scenario.restarted_then_replaced.
Proof.
  apply (reachable_keyed Scenario.config).
  unfold Scenario.restarted_then_replaced, Scenario.restarted.
  apply reach_create.
  - apply reach_initialize; [apply reach_new | reflexivity].
  - vm_compute. reflexivity.
Defined.

Lemma mixed_disk_well_named : well_named Cases.mixed_disk.
Proof.
  unfold Cases.mixed_disk. intros stem d.
  repeat (rewrite lookup_insert_Some; intros [[<- [= <-]]|[_ H]]; [reflexivity|];
          revert H).
  by intros [_ ?]%lookup_singleton_Some.
Qed.

Lemma reconciled_disk_well_named : well_named Cases.reconciled_disk.
Proof.
  unfold Cases.reconciled_disk. intros stem d.
  repeat (rewrite lookup_insert_Some; intros [[<- [= <-]]|[_ H]]; [reflexivity|];
          revert H).
  by intros [_ ?]%lookup_singleton_Some.
Qed.

(** The file that does not parse is still there after the restart. *)
Lemma startup_skips_unreadable_witness :
  ∃ st', lifespan_startup Scenario.config (Scenario.calm Scenario.spare_uuid 10) Cases.mixed_disk
           = (ret tt, st') ∧
    files st' !! Scenario.ghost_uuid = Some FileBad ∧
    sessions st' !! Scenario.ghost_uuid = None.
Proof.
  destruct (startup_skips_unreadable Scenario.config (Scenario.calm Scenario.spare_uuid 10)
              Cases.mixed_disk) as (st' & Hrun & Hbad);
    [simpl; lia | apply mixed_disk_well_named |].
  destruct (Hbad Scenario.ghost_uuid) as (Hf & Hs & _); [vm_compute; reflexivity|].
  exists st'. split; [exact Hrun|]. split; [exact Hf | exact Hs].
Defined.


Lemma reconciled_disk_one_per_account : one_file_per_account Cases.reconciled_disk.
Proof.
  assert (∀ d, persisted Cases.reconciled_disk d →
            d = Scenario.task Scenario.newer_uuid 42 2 ∨
            d = Scenario.task Scenario.third_uuid 43 3) as Hcases.
  { intros d. unfold persisted, Cases.reconciled_disk.
    rewrite lookup_insert_Some. intros [[_ [= <-]]|[_ H]]; [by left|].
    revert H. rewrite lookup_insert_Some. intros [[_ [= <-]]|[_ H]]; [by right|].
    by apply lookup_singleton_Some in H as [_ ?]. }
  intros d1 d2 [-> | ->]%Hcases [-> | ->]%Hcases; done.
Qed.

(** A second restart, over the reconciled directory, changes nothing. *)
Lemma startup_on_reconciled_disk_witness :
  ∃ st', lifespan_startup Scenario.config (Scenario.calm Scenario.spare_uuid 10)
           Cases.reconciled_disk = (ret tt, st') ∧
    files st' = Cases.reconciled_disk ∧ log st' = [].
Proof.
  destruct (startup_on_reconciled_disk Scenario.config
              (Scenario.calm Scenario.spare_uuid 10) Cases.reconciled_disk)
    as (st' & Hrun & _ & _ & Hf & Hl);
    [simpl; lia | apply reconciled_disk_well_named
    | apply reconciled_disk_one_per_account |].
  exists st'. split; [exact Hrun|]. split; [exact Hf | exact Hl].
Defined.


(** The credential is rejected at once: 400; after a flood wait: 500. *)
Lemma create_keepalive_task_rejections_witness :
  status_of (create_keepalive_task Scenario.config Scenario.rejecting
               "1AQAAAsession" 7 Scenario.one_live).1 = 400 ∧
  status_of (create_keepalive_task Scenario.config Cases.flood_then_rejected
               "1AQAAAsession" 7 Scenario.one_live).1 = 500.
Proof.
  split.
  - destruct (create_keepalive_task_rejections Scenario.config Scenario.rejecting
                "1AQAAAsession" 7 Scenario.one_live Cases.unregistered)
      as (Hfirst & _); [reflexivity|].
    by rewrite Hfirst.
  - destruct (create_keepalive_task_rejections Scenario.config Cases.flood_then_rejected
                "1AQAAAsession" 7 Scenario.one_live Cases.unregistered)
      as (_ & Hretry); [reflexivity|].
    by rewrite (Hretry (Exn (FloodWaitError 30) "A wait is required") 30).
Defined.

Lemma created_answer_names_live_task_witness :
  ∃ u d, sessions (create_keepalive_task Scenario.config
                     (Scenario.calm Scenario.first_uuid 10) "1AQAAAsession" 7
                     (new_manager ∅)).2 !! u = Some d ∧ uuid d = u.
Proof.
  destruct (created_answer_names_live_task Scenario.config
              (Scenario.calm Scenario.first_uuid 10) "1AQAAAsession" 7 (new_manager ∅))
    as (u & d & message & _ & Hlive & Hu & _); [vm_compute; reflexivity|].
  exists u, d. split; [exact Hlive | exact Hu].
Defined.

Lemma validate_and_create_agree_witness :
  status_of (create_keepalive_task Scenario.config Cases.flood_then_rejected
               "1AQAAAsession" 7 Scenario.one_live).1
  = status_of (validate_task_session Scenario.config Cases.flood_then_rejected).
Proof.
  destruct (validate_and_create_agree Scenario.config Cases.flood_then_rejected
              "1AQAAAsession" 7 Scenario.one_live) as (Hno & _).
  destruct Hno as (Hsame & _); [vm_compute; discriminate | exact Hsame].
Defined.

(** Account 42 creates its first task at time 10 and deletes it at 50. *)
Lemma create_then_delete_round_trip_witness :
  let st1 := (create_keepalive_task Scenario.config (Scenario.calm Scenario.first_uuid 10)
                "1AQAAAsession" 7 (new_manager ∅)).2 in
  let r := delete_task (Scenario.calm Scenario.spare_uuid 50) Scenario.first_uuid st1 in
  status_of r.1 = 200 ∧ sessions r.2 = ∅ ∧ jobs r.2 = ∅ ∧ files r.2 = ∅.
Proof.
  destruct (create_then_delete_round_trip Scenario.config
              (Scenario.calm Scenario.first_uuid 10) (Scenario.calm Scenario.spare_uuid 50)
              "1AQAAAsession" 7 (new_manager ∅) (Scenario.account 42))
    as (Hr & Hs & _ & Hj & Hf & _);
    [reflexivity | reflexivity | simpl; lia | reflexivity | reflexivity
    | reflexivity | reflexivity | vm_compute; reflexivity | reflexivity |].
  cbn zeta. split; [exact Hr|]. split; [exact Hs|]. split; [exact Hj | exact Hf].
Defined.

(** The default bound, on a credential of 13 characters. *)
Lemma mask_output_bounded_witness :
  (String.length (Masking.mask "1AQAAAsession") ≤ 13)%nat.
Proof.
  destruct (mask_output_bounded "1AQAAAsession" 10) as (_ & _ & Hlen);
    [lia | exact Hlen].
Defined.

Lemma pending_distinct : NoDup (Login.login_sessions Cases.pending).*1.
Proof.
  apply NoDup_cons. split; [|apply NoDup_singleton].
  by intros [=]%list_elem_of_singleton.
Qed.

(** A wrong code for the early session: 400, and the session is gone. *)
Lemma failed_code_ends_session_witness :
  let r := Login.login_code (Cases.login_env Cases.wrong_code 100) "sid-early"
             Cases.pending in
  status_of r.1 = 400 ∧
  dict_get "sid-early" (Login.login_sessions r.2) = None ∧
  is_Some (dict_get "sid-late" (Login.login_sessions r.2)).
Proof.
  destruct (failed_code_ends_session (Cases.login_env Cases.wrong_code 100) "sid-early"
              (Cases.login_session "sid-early" 0 Login.code_sent) Cases.pending
              (Exn ValueError "Invalid verification code"))
    as (Hr & _ & Hgone & Hother & _);
    [apply pending_distinct | reflexivity | reflexivity |].
  cbn zeta. split; [exact Hr|]. split; [exact Hgone|].
  rewrite Hother by discriminate. vm_compute. eauto.
Defined.

(** The early session goes through the password step. *)
Lemma two_factor_path_witness :
  let env := Cases.login_env (ret Login.PasswordRequired) 100 in
  let st1 := (Login.login_code env "sid-early" Cases.pending).2 in
  Login.session_string_of (Login.login_password env "sid-early" st1).1
    = Some "1AQAAAsession".
Proof.
  intros env st1.
  destruct (two_factor_path env env "sid-early"
              (Cases.login_session "sid-early" 0 Login.code_sent) Cases.pending
              "1AQAAAsession" 42)
    as (_ & _ & _ & _ & _ & _ & _ & Hs & _);
    [apply pending_distinct | reflexivity | reflexivity
    | reflexivity | reflexivity |].
  exact Hs.
Defined.

(** At time 700 the session started at 0 has timed out, the one started
    at 500 has not. *)
Lemma login_session_sweeps_witness :
  let env := Cases.login_env Cases.wrong_code 700 in
  (Login.login_sessions (Login.cleanup_expired_sessions Cases.timed_out env
                           Cases.pending)).*1 = ["sid-late"] ∧
  Login.login_sessions (Login.cleanup_all_login_sessions env Cases.pending) = [].
Proof.
  intros env.
  destruct (login_session_sweeps Cases.timed_out env Cases.pending)
    as (Hl & _ & _ & Hall); [apply pending_distinct|].
  split; [rewrite Hl; vm_compute; reflexivity | exact Hall].
Defined.
